(** * legit-city: the HTTP request handlers of server.js

  A shallow embedding of the route handlers of the server (registration,
  login, plans with currency conversion, services, announcements, work
  uploads, subscriptions) and the properties its specification states
  about them.

  Layout:
  - [Num]: JavaScript numbers as IEEE-754 binary64 values, with the
    multiplication and the [toFixed(2)] rounding the plan listing uses;
  - [Js]: JavaScript values, truthiness, property access, exceptions;
  - the runtime the handlers call into (built-ins, bcryptjs, axios,
    the MySQL driver);
  - the store: the six tables and the statements run on them;
  - the handlers, one definition per route, named after the route;
  - a concrete runtime and concrete requests ([Scenario]);
  - lemmas on the building blocks, then the properties the specification
    states, each under the identifier it has there (C1 to C10). *)

From Stdlib Require Import ZArith Lia String Ascii DecimalString DecimalPos DecimalZ.
From Stdlib Require Import Floats.SpecFloat.
From stdpp Require Import base option list strings gmap.

Local Open Scope string_scope.
Local Open Scope Z_scope.

(* ===================================================================== *)
(** ** Numbers *)
(* ===================================================================== *)

Module Num.

(** A JavaScript Number is a binary64 floating-point value: 53 bits of
    precision, infinities at exponent 1024. *)
Definition prec : Z := 53.
Definition emax : Z := 1024.

Definition number := spec_float.

(** The values of [number] that are binary64 values (mantissa and
    exponent in canonical form). *)
Definition valid (x : number) : bool := valid_binary prec emax x.

Definition NaN : number := S754_nan.
Definition zero : number := S754_zero false.
Definition one : number := S754_finite false 4503599627370496 (-52).

(** Number from an integer, rounded to nearest. *)
Definition of_Z (z : Z) : number := binary_normalize prec emax z 0 false.

(** The [*] operator on numbers. *)
Definition mul : number -> number -> number := SFmul prec emax.

(** ToBoolean on a number: [+0], [-0] and [NaN] are falsy. *)
Definition to_boolean (x : number) : bool :=
  match x with
  | S754_zero _ | S754_nan => false
  | _ => true
  end.

(** The integer a number denotes, when it denotes one. *)
Definition to_Z (x : number) : option Z :=
  match x with
  | S754_zero _ => Some 0
  | S754_finite s m e =>
      let mag :=
        if 0 <=? e then Some (Zpos m * 2 ^ e)
        else if Zpos m mod 2 ^ (- e) =? 0 then Some (Zpos m / 2 ^ (- e))
        else None in
      (fun v : Z => if s then - v else v) <$> mag
  | _ => None
  end.

(** *** [Number.prototype.toFixed(2)] and [Number(...)] of its result

    [x.toFixed(2)] yields a string.  The string is represented by what
    it spells: ["NaN"], a signed ["Infinity"], a sign and a count of
    hundredths (["-12.30"] is [NumFixed true 1230]), or, from 10^21 on,
    the exponent notation of [x] itself, which reads back as [x]. *)
Inductive numeral :=
| NumNaN
| NumInfinity (negative : bool)
| NumFixed (negative : bool) (hundredths : Z)
| NumExp (x : number).

(** Whether [m * 2^e >= 10^21]. *)
Definition ge_1e21 (m : positive) (e : Z) : bool :=
  if 0 <=? e then 10 ^ 21 <=? Zpos m * 2 ^ e
  else 10 ^ 21 * 2 ^ (- e) <=? Zpos m.

(** "Let n be an integer for which n / 10^2 - x is as close to zero as
    possible.  If there are two such n, pick the larger n", for
    [x = m * 2^e > 0]. *)
Definition nearest_hundredth (m : positive) (e : Z) : Z :=
  if 0 <=? e then 100 * Zpos m * 2 ^ e
  else (200 * Zpos m + 2 ^ (- e)) / (2 * 2 ^ (- e)).

Definition toFixed2 (x : number) : numeral :=
  match x with
  | S754_nan => NumNaN
  | S754_infinity s => NumInfinity s
  | S754_zero _ => NumFixed false 0
  | S754_finite s m e =>
      if ge_1e21 m e then NumExp x else NumFixed s (nearest_hundredth m e)
  end.

(** [Number(s)] for a string [s] produced by [toFixed(2)]: the binary64
    value nearest to the decimal the string spells. *)
Definition Number_of_numeral (s : numeral) : number :=
  match s with
  | NumNaN => NaN
  | NumInfinity neg => S754_infinity neg
  | NumExp x => x
  | NumFixed neg 0 => S754_zero neg
  | NumFixed neg (Zpos n) =>
      SFdiv prec emax (S754_finite neg n 0) (S754_finite false 100 0)
  | NumFixed _ (Zneg _) => NaN
  end.

(** [Number(x.toFixed(2))]. *)
Definition round2 (x : number) : number := Number_of_numeral (toFixed2 x).

(** The same value, bit for bit. *)
Definition number_eqb (x y : number) : bool :=
  match x, y with
  | S754_zero s, S754_zero t => Bool.eqb s t
  | S754_infinity s, S754_infinity t => Bool.eqb s t
  | S754_nan, S754_nan => true
  | S754_finite s m e, S754_finite t n f =>
      Bool.eqb s t && Pos.eqb m n && Z.eqb e f
  | _, _ => false
  end.

End Num.

Export Num.

(* ===================================================================== *)
(** ** JavaScript values *)
(* ===================================================================== *)

Module Js.

(** The values that travel through the handlers: parsed JSON and form
    fields, query parameters, rows handed back by the driver.  Strings
    are sequences of 8-bit code units. *)
#[warnings="-register-all"]
Inductive jsval :=
| JUndefined
| JNull
| JBool (b : bool)
| JNum (x : number)
| JStr (s : string)
| JDate (ms : Z)
| JArr (items : list jsval)
| JObj (fields : list (string * jsval)).

(** ToBoolean. *)
Definition truthy (v : jsval) : bool :=
  match v with
  | JUndefined | JNull => false
  | JBool b => b
  | JNum x => to_boolean x
  | JStr s => negb (String.eqb s EmptyString)
  | JDate _ | JArr _ | JObj _ => true
  end.

Definition falsy (v : jsval) : bool := negb (truthy v).

(** The same value: the same shape, the same content. *)
Fixpoint jsval_eqb (a b : jsval) {struct a} : bool :=
  match a, b with
  | JUndefined, JUndefined => true
  | JNull, JNull => true
  | JBool x, JBool y => Bool.eqb x y
  | JNum x, JNum y => number_eqb x y
  | JStr s, JStr t => String.eqb s t
  | JDate x, JDate y => x =? y
  | JArr l, JArr l' =>
      (fix items (l l' : list jsval) {struct l} : bool :=
         match l, l' with
         | [], [] => true
         | x :: l, y :: l' => jsval_eqb x y && items l l'
         | _, _ => false
         end) l l'
  | JObj fs, JObj fs' =>
      (fix fields (fs fs' : list (string * jsval)) {struct fs} : bool :=
         match fs, fs' with
         | [], [] => true
         | (k, x) :: fs, (k', y) :: fs' =>
             String.eqb k k' && jsval_eqb x y && fields fs fs'
         | _, _ => false
         end) fs fs'
  | _, _ => false
  end.

(** [a || b]. *)
Definition js_or (a b : jsval) : jsval := if truthy a then a else b.

(** Decimal spelling of an integer, as [String(n)] and a template
    literal produce it for an integral number below 10^21. *)
Definition decimal (z : Z) : string := NilZero.string_of_int (Z.to_int z).

Fixpoint assoc (k : string) (fs : list (string * jsval)) : jsval :=
  match fs with
  | [] => JUndefined
  | (k', v) :: fs' => if String.eqb k k' then v else assoc k fs'
  end.

(** Whether an object has an own property [k]. *)
Definition has_own (k : string) (fs : list (string * jsval)) : bool :=
  existsb (fun kv => String.eqb k kv.1) fs.

(** The element of [l] whose index spells [k], counting from [i]. *)
Fixpoint at_index {A} (k : string) (i : Z) (l : list A) : option A :=
  match l with
  | [] => None
  | x :: l' => if String.eqb k (decimal i) then Some x else at_index k (i + 1) l'
  end.

(** [v[k]] on a value that is neither [undefined] nor [null]: own
    properties of objects, elements and [length] of arrays and strings.
    Inherited members are not modelled. *)
Definition get_prop (v : jsval) (k : string) : jsval :=
  match v with
  | JObj fs => assoc k fs
  | JArr l =>
      if String.eqb k "length" then JNum (of_Z (Z.of_nat (length l)))
      else default JUndefined (at_index k 0 l)
  | JStr s =>
      if String.eqb k "length" then JNum (of_Z (Z.of_nat (String.length s)))
      else default JUndefined
             ((fun c => JStr (String c EmptyString)) <$> at_index k 0 (list_ascii_of_string s))
  | _ => JUndefined
  end.

(** [v?.[k]]. *)
Definition opt_get (v : jsval) (k : string) : jsval :=
  match v with
  | JUndefined | JNull => JUndefined
  | _ => get_prop v k
  end.

(** Exceptions carry an optional [code] (the driver's error codes) and
    a message. *)
Record js_error := { code : option string; message : string }.

Definition TypeError (msg : string) : js_error :=
  {| code := None; message := msg |}.

(** [err.code === c]. *)
Definition code_is (err : js_error) (c : string) : bool :=
  match code err with
  | Some c' => String.eqb c' c
  | None => false
  end.

Inductive outcome (A : Type) :=
| Return (a : A)
| Throw (e : js_error).
Arguments Return {A} a.
Arguments Throw {A} e.

#[global] Instance outcome_ret : MRet outcome := fun A a => Return a.
#[global] Instance outcome_bind : MBind outcome := fun A B f m =>
  match m with
  | Return a => f a
  | Throw e => Throw e
  end.

(** [try { body } catch (err) { handler }]. *)
Definition try_catch {A} (body : outcome A) (handler : js_error -> A) : A :=
  match body with
  | Return a => a
  | Throw e => handler e
  end.

(** [const { k } = v]: throws on [undefined] and [null]. *)
Definition destructure (v : jsval) (k : string) : outcome jsval :=
  match v with
  | JUndefined | JNull =>
      Throw (TypeError "Cannot destructure property of undefined or null")
  | _ => Return (get_prop v k)
  end.

End Js.

Export Js.

(* ===================================================================== *)
(** ** The runtime *)
(* ===================================================================== *)

(** What the handlers call and do not define: built-ins of the language
    that depend on Unicode tables or on number parsing and printing (among
    them the conversion of a date or an array to a number; that of an
    array goes through the printing of its items and may throw), the
    hashing and the comparison of bcryptjs on strings, axios, the clocks,
    the directory of the script, whether the MySQL driver raises an error
    for the statement of the request being handled (connection lost,
    statement rejected), and, for a statement with [ORDER BY], the order in
    which the server hands back rows whose sort keys are equal:
    [tie_rank sql id] ranks the row [id] for the statement [sql], lower
    ranks first. *)
Record runtime := {
  toUpperCase : string -> string;
  StringToNumber : string -> number;
  ObjectToNumber : jsval -> outcome number;
  encodeURIComponent : jsval -> outcome string;
  bcrypt_hash_string : string -> Z -> string;
  bcrypt_compare_strings : string -> string -> bool;
  axios_get : string -> outcome jsval;
  Date_now : Z;
  dirname : string;
  pool_fault : option js_error;
  CURRENT_TIMESTAMP : Z;
  tie_rank : string -> Z -> Z
}.

(** [Number(v)], and what [*] does to an operand.  An object is first
    made a primitive: [valueOf] is tried, then [toString], and the first
    that is callable and returns a primitive decides; a TypeError is thrown
    when neither does.  In an object read from JSON or from a form no own
    property is callable, and the inherited [valueOf] returns the object
    itself, so [toString] decides: an own property of that name hides the
    inherited method and the conversion throws; otherwise the inherited
    method answers ["[object Object]"], which reads as [NaN]. *)
Definition ToNumber (rt : runtime) (v : jsval) : outcome number :=
  match v with
  | JUndefined => Return NaN
  | JNull => Return zero
  | JBool b => Return (if b then one else zero)
  | JNum x => Return x
  | JStr s => Return (StringToNumber rt s)
  | JObj fs =>
      if has_own "toString" fs
      then Throw (TypeError "Cannot convert object to primitive value")
      else Return NaN
  | JDate _ | JArr _ => ObjectToNumber rt v
  end.

(** [a * b]: the left operand is converted first. *)
Definition js_mul (rt : runtime) (a b : jsval) : outcome number :=
  x ← ToNumber rt a;
  y ← ToNumber rt b;
  Return (mul x y).

(** [v.toUpperCase()]: only strings have the method. *)
Definition call_toUpperCase (rt : runtime) (v : jsval) : outcome string :=
  match v with
  | JStr s => Return (toUpperCase rt s)
  | _ => Throw (TypeError "toUpperCase is not a function")
  end.

(** [bcrypt.hash(s, rounds)]: bcryptjs hashes strings, and rejects with
    "Illegal arguments" when [s] is anything else. *)
Definition bcrypt_hash (rt : runtime) (s : jsval) (rounds : Z) : outcome string :=
  match s with
  | JStr s => Return (bcrypt_hash_string rt s rounds)
  | _ => Throw {| code := None; message := "Illegal arguments" |}
  end.

(** [bcrypt.compare(s, hash)]: rejects with "Illegal arguments" unless
    both are strings. *)
Definition bcrypt_compare (rt : runtime) (s hash : jsval) : outcome bool :=
  match s, hash with
  | JStr s, JStr hash => Return (bcrypt_compare_strings rt s hash)
  | _, _ => Throw {| code := None; message := "Illegal arguments" |}
  end.

(** [a === b] against a string literal. *)
Definition strict_eq_str (v : jsval) (lit : string) : bool :=
  match v with
  | JStr s => String.eqb s lit
  | _ => false
  end.

(* ===================================================================== *)
(** ** The store *)
(* ===================================================================== *)

(** The rows of the six tables, one record per table, with the columns
    the statements of server.js name.  A column holds the value that was
    bound to it. *)

Module Users.
Record row := {
  name : jsval; email : jsval; password : jsval; account_type : jsval;
  verified : jsval; subscription_expires_at : jsval
}.
End Users.

Module Plans.
Record row := {
  admin_id : jsval; name : jsval; description : jsval; price_usd : jsval;
  duration_days : jsval; active : jsval; created_at : Z
}.
End Plans.

Module Services.
Record row := { service : jsval; level : jsval; admin_id : jsval; created_at : Z }.
End Services.

Module Announcements.
Record row := { title : jsval; content : jsval; admin_id : jsval; created_at : Z }.
End Announcements.

Module Work.
Record row := {
  title : jsval; description : jsval; file_path : jsval; admin_id : jsval;
  created_at : Z
}.
End Work.

Module Subscriptions.
Record row := { user_id : jsval; service_id : jsval; plan_id : jsval }.
End Subscriptions.

(** Modelled from the spec: the relational store, whose schema is not in
    the repository.  The tables and columns are those of the data model of
    the specification and of the statements in server.js.  A table maps
    the auto-increment [id] of a row to its columns; [email] is unique in
    [users]; the references ([admin_id], [user_id], [service_id],
    [plan_id]) are not checked; text is compared code unit by code unit. *)
Record store := {
  users : gmap Z Users.row;
  plans : gmap Z Plans.row;
  services : gmap Z Services.row;
  announcements : gmap Z Announcements.row;
  work : gmap Z Work.row;
  subscriptions : gmap Z Subscriptions.row
}.

Definition empty_store : store :=
  {| users := ∅; plans := ∅; services := ∅; announcements := ∅; work := ∅;
     subscriptions := ∅ |}.

(** The next [id] of a table: one more than the largest in use. *)
Definition auto_increment {A} (t : gmap Z A) : Z :=
  1 + map_fold (fun k _ acc => Z.max k acc) 0 t.

Definition insert_row {A} (r : A) (t : gmap Z A) : gmap Z A :=
  <[auto_increment t := r]> t.

(** The integer the store reads in a bound value. *)
Definition digit_value (c : ascii) : option Z :=
  let n := Z.of_N (N_of_ascii c) in
  if (48 <=? n) && (n <=? 57) then Some (n - 48) else None.

Fixpoint digits_value (acc : Z) (s : string) : option Z :=
  match s with
  | EmptyString => Some acc
  | String c s' =>
      match digit_value c with
      | Some d => digits_value (10 * acc + d) s'
      | None => None
      end
  end.

Definition key_of (v : jsval) : option Z :=
  match v with
  | JNum x => to_Z x
  | JStr EmptyString => None
  | JStr s => digits_value 0 s
  | _ => None
  end.

(** The store's [=] on the values bound to a column: text against text,
    code unit by code unit; values that read as integers, as integers; any
    other value equals itself and nothing else, since what is bound twice
    is stored twice alike; [NULL] equals nothing. *)
Definition sql_eq (a b : jsval) : bool :=
  match a, b with
  | JStr s, JStr t => String.eqb s t
  | _, _ =>
      match key_of a, key_of b with
      | Some x, Some y => x =? y
      | None, None =>
          match a with
          | JUndefined | JNull => false
          | _ => jsval_eqb a b
          end
      | _, _ => false
      end
  end.

(** [ORDER BY key DESC]. *)
Fixpoint insert_desc {A} (key : A -> Z) (x : A) (l : list A) : list A :=
  match l with
  | [] => [x]
  | y :: l' => if key y <=? key x then x :: l else y :: insert_desc key x l'
  end.

Definition order_by_desc {A} (key : A -> Z) (l : list A) : list A :=
  foldr (insert_desc key) [] l.

(** [ORDER BY created_at DESC] in the statement [sql].  Nothing in the
    statement orders two rows with the same [created_at]: they come as the
    server ranks them for this statement, and two that it ranks alike in
    the order of their [id]. *)
Definition newest_rows {A} (rt : runtime) (sql : string) (created_at : A -> Z)
    (rows : list (Z * A)) : list (Z * A) :=
  order_by_desc (fun kr => created_at kr.2)
    (order_by_desc (fun kr => - tie_rank rt sql kr.1)
       (order_by_desc (fun kr => - kr.1) rows)).

(** [LEFT JOIN users u ON <admin_id> = u.id], then [u.name]: [id] is the
    key of [users], so a row joins with at most one user. *)
Definition admin_name (db : store) (admin_id : jsval) : jsval :=
  match key_of admin_id with
  | Some k =>
      match users db !! k with
      | Some u => Users.name u
      | None => JNull
      end
  | None => JNull
  end.

(** [pool.query(sql, params)]: the driver raises its error, if it has one
    for this request; otherwise the statement runs. *)
Definition pool_query {A} (rt : runtime) (run : outcome A) : outcome A :=
  match pool_fault rt with
  | Some e => Throw e
  | None => run
  end.

Definition ER_DUP_ENTRY : js_error :=
  {| code := Some "ER_DUP_ENTRY"; message := "Duplicate entry" |}.

Definition email_taken (db : store) (email : jsval) : bool :=
  existsb (fun kr => sql_eq (Users.email (snd kr)) email) (map_to_list (users db)).

Definition with_users (db : store) (t : gmap Z Users.row) : store :=
  {| users := t; plans := plans db; services := services db;
     announcements := announcements db; work := work db;
     subscriptions := subscriptions db |}.

Definition with_plans (db : store) (t : gmap Z Plans.row) : store :=
  {| users := users db; plans := t; services := services db;
     announcements := announcements db; work := work db;
     subscriptions := subscriptions db |}.

Definition with_services (db : store) (t : gmap Z Services.row) : store :=
  {| users := users db; plans := plans db; services := t;
     announcements := announcements db; work := work db;
     subscriptions := subscriptions db |}.

Definition with_announcements (db : store) (t : gmap Z Announcements.row) : store :=
  {| users := users db; plans := plans db; services := services db;
     announcements := t; work := work db;
     subscriptions := subscriptions db |}.

Definition with_work (db : store) (t : gmap Z Work.row) : store :=
  {| users := users db; plans := plans db; services := services db;
     announcements := announcements db; work := t;
     subscriptions := subscriptions db |}.

Definition with_subscriptions (db : store) (t : gmap Z Subscriptions.row) : store :=
  {| users := users db; plans := plans db; services := services db;
     announcements := announcements db; work := work db;
     subscriptions := t |}.

(** *** Statements *)

(** The text of the statements that order their rows, white space
    between the words aside. *)
Definition sql_active_plans : string :=
  "SELECT p.*, u.name AS admin_name FROM plans p LEFT JOIN users u ON p.admin_id = u.id WHERE p.active = 1 ORDER BY p.created_at DESC".

Definition sql_services_rich : string :=
  "SELECT s.id, s.service, s.level, s.admin_id, u.name as admin_name, s.created_at FROM services s LEFT JOIN users u ON s.admin_id = u.id ORDER BY s.created_at DESC".

Definition sql_services : string :=
  "SELECT id, service, level, admin_id FROM services ORDER BY created_at DESC".

Definition sql_announcements_rich : string :=
  "SELECT a.id, a.title, a.content, a.created_at, u.name AS admin_name FROM announcements a LEFT JOIN users u ON a.admin_id = u.id ORDER BY a.created_at DESC".

Definition sql_announcements : string :=
  "SELECT id, title, content, created_at FROM announcements ORDER BY created_at DESC".

Definition sql_work : string :=
  "SELECT w.id, w.title, w.description, w.file_path, w.created_at, u.name AS admin_name FROM work w LEFT JOIN users u ON w.admin_id = u.id ORDER BY w.created_at DESC".

(** [INSERT INTO users (name, email, password, account_type)]; the other
    columns take their defaults. *)
Definition insert_user (rt : runtime) (db : store)
    (name email password account_type : jsval) : outcome store :=
  pool_query rt
    (if email_taken db email then Throw ER_DUP_ENTRY
     else Return (with_users db (insert_row
            {| Users.name := name; Users.email := email;
               Users.password := password; Users.account_type := account_type;
               Users.verified := JNum zero;
               Users.subscription_expires_at := JNull |} (users db)))).

(** The driver's row object for a user, [SELECT *]. *)
Definition user_object (kr : Z * Users.row) : jsval :=
  JObj [("id", JNum (of_Z kr.1)); ("name", Users.name kr.2);
        ("email", Users.email kr.2); ("password", Users.password kr.2);
        ("account_type", Users.account_type kr.2);
        ("verified", Users.verified kr.2);
        ("subscription_expires_at", Users.subscription_expires_at kr.2)].

(** [SELECT * FROM users WHERE email = ?]. *)
Definition select_users_by_email (rt : runtime) (db : store) (email : jsval)
    : outcome (list (Z * Users.row)) :=
  pool_query rt
    (Return (List.filter (fun kr => sql_eq (Users.email kr.2) email)
               (map_to_list (users db)))).

(** [INSERT INTO plans (...) VALUES (?, ?, ?, ?, ?, 1)]; yields
    [result.insertId]. *)
Definition insert_plan (rt : runtime) (db : store)
    (admin_id name description price duration : jsval) : outcome (Z * store) :=
  pool_query rt
    (Return (auto_increment (plans db),
             with_plans db (insert_row
               {| Plans.admin_id := admin_id; Plans.name := name;
                  Plans.description := description; Plans.price_usd := price;
                  Plans.duration_days := duration; Plans.active := JNum one;
                  Plans.created_at := CURRENT_TIMESTAMP rt |} (plans db)))).

Definition plan_object (db : store) (kr : Z * Plans.row) : jsval :=
  JObj [("id", JNum (of_Z kr.1)); ("admin_id", Plans.admin_id kr.2);
        ("name", Plans.name kr.2); ("description", Plans.description kr.2);
        ("price_usd", Plans.price_usd kr.2);
        ("duration_days", Plans.duration_days kr.2);
        ("active", Plans.active kr.2);
        ("created_at", JDate (Plans.created_at kr.2));
        ("admin_name", admin_name db (Plans.admin_id kr.2))].

Definition is_active (kr : Z * Plans.row) : bool :=
  bool_decide (key_of (Plans.active kr.2) = Some 1).

(** The plans the listing selects: [WHERE p.active = 1]. *)
Definition active_plans (db : store) : list (Z * Plans.row) :=
  List.filter is_active (map_to_list (plans db)).

(** The plans the listing reads, in the order it reads them. *)
Definition listed_plans (rt : runtime) (db : store) : list (Z * Plans.row) :=
  newest_rows rt sql_active_plans Plans.created_at (active_plans db).

(** [SELECT p.*, u.name AS admin_name FROM plans p LEFT JOIN users u ...
    WHERE p.active = 1 ORDER BY p.created_at DESC]. *)
Definition select_active_plans (rt : runtime) (db : store) : outcome (list jsval) :=
  pool_query rt (Return (map (plan_object db) (listed_plans rt db))).

Definition insert_subscription (rt : runtime) (db : store)
    (user_id service_id plan_id : jsval) : outcome store :=
  pool_query rt
    (Return (with_subscriptions db (insert_row
       {| Subscriptions.user_id := user_id;
          Subscriptions.service_id := service_id;
          Subscriptions.plan_id := plan_id |} (subscriptions db)))).

Definition insert_service (rt : runtime) (db : store)
    (service level admin_id : jsval) : outcome store :=
  pool_query rt
    (Return (with_services db (insert_row
       {| Services.service := service; Services.level := level;
          Services.admin_id := admin_id;
          Services.created_at := CURRENT_TIMESTAMP rt |} (services db)))).

(** A row of [SELECT s.id, s.service, s.level, s.admin_id,
    u.name as admin_name, s.created_at FROM services s LEFT JOIN users u]. *)
Definition service_object_rich (db : store) (kr : Z * Services.row) : jsval :=
  JObj [("id", JNum (of_Z kr.1)); ("service", Services.service kr.2);
        ("level", Services.level kr.2); ("admin_id", Services.admin_id kr.2);
        ("admin_name", admin_name db (Services.admin_id kr.2));
        ("created_at", JDate (Services.created_at kr.2))].

(** A row of [SELECT id, service, level, admin_id FROM services]. *)
Definition service_object (kr : Z * Services.row) : jsval :=
  JObj [("id", JNum (of_Z kr.1)); ("service", Services.service kr.2);
        ("level", Services.level kr.2); ("admin_id", Services.admin_id kr.2)].

(** The rows of [services] as the statement [sql] orders them. *)
Definition services_rows (rt : runtime) (sql : string) (db : store)
    : list (Z * Services.row) :=
  newest_rows rt sql Services.created_at (map_to_list (services db)).

Definition select_services_rich (rt : runtime) (db : store) : outcome (list jsval) :=
  pool_query rt
    (Return (map (service_object_rich db) (services_rows rt sql_services_rich db))).

Definition select_services (rt : runtime) (db : store) : outcome (list jsval) :=
  pool_query rt (Return (map service_object (services_rows rt sql_services db))).

Definition insert_announcement (rt : runtime) (db : store)
    (title content admin_id : jsval) : outcome store :=
  pool_query rt
    (Return (with_announcements db (insert_row
       {| Announcements.title := title; Announcements.content := content;
          Announcements.admin_id := admin_id;
          Announcements.created_at := CURRENT_TIMESTAMP rt |} (announcements db)))).

(** A row of [SELECT a.id, a.title, a.content, a.created_at,
    u.name AS admin_name FROM announcements a LEFT JOIN users u]. *)
Definition announcement_object_rich (db : store) (kr : Z * Announcements.row) : jsval :=
  JObj [("id", JNum (of_Z kr.1)); ("title", Announcements.title kr.2);
        ("content", Announcements.content kr.2);
        ("created_at", JDate (Announcements.created_at kr.2));
        ("admin_name", admin_name db (Announcements.admin_id kr.2))].

(** A row of [SELECT id, title, content, created_at FROM announcements]. *)
Definition announcement_object (kr : Z * Announcements.row) : jsval :=
  JObj [("id", JNum (of_Z kr.1)); ("title", Announcements.title kr.2);
        ("content", Announcements.content kr.2);
        ("created_at", JDate (Announcements.created_at kr.2))].

(** The rows of [announcements] as the statement [sql] orders them. *)
Definition announcements_rows (rt : runtime) (sql : string) (db : store)
    : list (Z * Announcements.row) :=
  newest_rows rt sql Announcements.created_at (map_to_list (announcements db)).

Definition select_announcements_rich (rt : runtime) (db : store) : outcome (list jsval) :=
  pool_query rt
    (Return (map (announcement_object_rich db)
               (announcements_rows rt sql_announcements_rich db))).

Definition select_announcements (rt : runtime) (db : store) : outcome (list jsval) :=
  pool_query rt
    (Return (map announcement_object (announcements_rows rt sql_announcements db))).

Definition insert_work (rt : runtime) (db : store)
    (title description file_path admin_id : jsval) : outcome store :=
  pool_query rt
    (Return (with_work db (insert_row
       {| Work.title := title; Work.description := description;
          Work.file_path := file_path; Work.admin_id := admin_id;
          Work.created_at := CURRENT_TIMESTAMP rt |} (work db)))).

(** A row of [SELECT w.id, w.title, w.description, w.file_path,
    w.created_at, u.name AS admin_name FROM work w LEFT JOIN users u]. *)
Definition work_object (db : store) (kr : Z * Work.row) : jsval :=
  JObj [("id", JNum (of_Z kr.1)); ("title", Work.title kr.2);
        ("description", Work.description kr.2);
        ("file_path", Work.file_path kr.2);
        ("created_at", JDate (Work.created_at kr.2));
        ("admin_name", admin_name db (Work.admin_id kr.2))].

Definition select_work (rt : runtime) (db : store) : outcome (list jsval) :=
  pool_query rt
    (Return (map (work_object db)
       (newest_rows rt sql_work Work.created_at (map_to_list (work db))))).

(* ===================================================================== *)
(** ** The handlers *)
(* ===================================================================== *)

(** What a handler sends: [res.status(n).json(body)] ([res.json(body)]
    has status 200) or [res.sendFile(path)]. *)
Inductive response :=
| Json (status : Z) (body : jsval)
| SendFile (path : string).

Definition message_body (m : string) : jsval := JObj [("message", JStr m)].

Definition success_body (m : string) : jsval :=
  JObj [("success", JBool true); ("message", JStr m)].

Definition invalid_credentials : response :=
  Json 401 (JObj [("success", JBool false); ("message", JStr "Invalid credentials")]).

(** *** Helpers *)

Definition BASE_CURRENCY : string := "USD".

(** The [url] of [getRate]. *)
Definition latest_url (toCurrency : string) : string :=
  "https://api.exchangerate.host/latest?base=" ++ BASE_CURRENCY
    ++ "&symbols=" ++ toCurrency.

(** [getRate(toCurrency)]: what it returns, or the exception that leaves
    it. *)
Definition getRate (rt : runtime) (toCurrency : jsval) : outcome jsval :=
  if falsy toCurrency then Return (JNum one)
  else
    match toCurrency with
    | JStr s =>
        if String.eqb (toUpperCase rt s) BASE_CURRENCY then Return (JNum one)
        else
          Return (try_catch
            (data ← axios_get rt (latest_url s);
             Return (js_or (opt_get (opt_get data "rates") (toUpperCase rt s))
                       (JNum one)))
            (fun _ => JNum one))
    | _ => Throw (TypeError "toCurrency.toUpperCase is not a function")
    end.

(** *** Authentication *)

(** [POST /register]; [body] is [req.body] as the body parsers leave it:
    for a JSON body, any JSON value may stand under a field. *)
Definition post_register (rt : runtime) (db : store) (body : jsval)
    : response * store :=
  try_catch
    (name ← destructure body "name";
     email ← destructure body "email";
     password ← destructure body "password";
     accountType ← destructure body "accountType";
     if falsy name || falsy email || falsy password || falsy accountType
     then Return (Json 400 (message_body "All fields are required"), db)
     else
       hashed ← bcrypt_hash rt password 10;
       db' ← insert_user rt db name email (JStr hashed) accountType;
       Return (Json 201 (success_body "Registration successful"), db'))
    (fun err =>
       if code_is err "ER_DUP_ENTRY"
       then (Json 400 (message_body "Email already registered"), db)
       else (Json 500 (message_body "Error registering user"), db)).

(** [POST /login]. *)
Definition post_login (rt : runtime) (db : store) (body : jsval) : response :=
  try_catch
    (email ← destructure body "email";
     password ← destructure body "password";
     if falsy email || falsy password
     then Return (Json 400 (message_body "Email and password required"))
     else
       rows ← select_users_by_email rt db email;
       match rows with
       | [] => Return invalid_credentials
       | row :: _ =>
           let user := user_object row in
           ok ← bcrypt_compare rt password (get_prop user "password");
           if negb ok then Return invalid_credentials
           else
             let redirectUrl :=
               if strict_eq_str (get_prop user "account_type") "admin"
               then "/admin-dashboard" else "/user-dashboard" in
             encoded ← encodeURIComponent rt (get_prop user "name");
             Return (Json 200 (JObj
               [("success", JBool true);
                ("message", JStr "Login successful");
                ("redirectUrl",
                   JStr (redirectUrl ++ "?name=" ++ encoded ++ "&id=" ++ decimal row.1));
                ("user", JObj
                   [("id", get_prop user "id");
                    ("name", get_prop user "name");
                    ("email", get_prop user "email");
                    ("accountType", get_prop user "account_type");
                    ("verified", js_or (get_prop user "verified") (JNum zero));
                    ("subscription_expires_at",
                       js_or (get_prop user "subscription_expires_at") JNull)])]))
       end)
    (fun _ => Json 500 (message_body "Error logging in")).

(** *** Plans *)

(** [POST /api/plans]. *)
Definition post_api_plans (rt : runtime) (db : store) (body : jsval)
    : response * store :=
  try_catch
    (adminId ← destructure body "adminId";
     name ← destructure body "name";
     description ← destructure body "description";
     price ← destructure body "price";
     duration ← destructure body "duration";
     if falsy adminId || falsy name || falsy price || falsy duration
     then Return (Json 400 (message_body "adminId, name, price and duration are required"), db)
     else
       result ← insert_plan rt db adminId name (js_or description (JStr EmptyString)) price duration;
       Return (Json 200 (JObj [("success", JBool true);
                               ("message", JStr "Plan created");
                               ("planId", JNum (of_Z result.1))]), result.2))
    (fun _ => (Json 500 (message_body "Error creating plan"), db)).

(** The object the listing builds for the row object [p]:
    [Number(p.price_usd)] is evaluated for [price_usd] and again for
    [price_local], where it is multiplied by the rate. *)
Definition plan_view (rt : runtime) (currency : string) (rate p : jsval)
    : outcome jsval :=
  price_usd ← ToNumber rt (get_prop p "price_usd");
  again ← ToNumber rt (get_prop p "price_usd");
  product ← js_mul rt (JNum again) rate;
  Return (JObj [("id", get_prop p "id");
                ("admin_id", get_prop p "admin_id");
                ("admin_name", get_prop p "admin_name");
                ("name", get_prop p "name");
                ("description", get_prop p "description");
                ("price_usd", JNum price_usd);
                ("duration_days", get_prop p "duration_days");
                ("currency", JStr currency);
                ("price_local", JNum (round2 product));
                ("created_at", get_prop p "created_at")]).

(** [GET /api/plans]; [query] is [req.query], in which [currency] is
    absent, a string, or, when the parameter is repeated or bracketed, an
    array or an object. *)
Definition get_api_plans (rt : runtime) (db : store) (query : jsval) : response :=
  try_catch
    (currency ← call_toUpperCase rt
                  (js_or (get_prop query "currency") (JStr BASE_CURRENCY));
     plans ← select_active_plans rt db;
     rate ← getRate rt (JStr currency);
     mapped ← mapM (plan_view rt currency rate) plans;
     Return (Json 200 (JObj
       [("plans", JArr mapped);
        ("base", JStr BASE_CURRENCY);
        ("currency", JStr currency);
        ("rate", rate)])))
    (fun _ => Json 500 (message_body "Error fetching plans")).

(** *** Subscribe *)

(** [POST /subscribe]. *)
Definition post_subscribe (rt : runtime) (db : store) (body : jsval)
    : response * store :=
  try_catch
    (userId ← destructure body "userId";
     serviceId ← destructure body "serviceId";
     planId ← destructure body "planId";
     if falsy userId || (falsy serviceId && falsy planId)
     then Return (Json 400 (message_body "userId and serviceId or planId required"), db)
     else if truthy serviceId then
       db' ← insert_subscription rt db userId serviceId JNull;
       Return (Json 200 (success_body "Subscribed to service"), db')
     else if truthy planId then
       db' ← insert_subscription rt db userId JNull planId;
       Return (Json 200 (success_body "Subscribed to plan"), db')
     else Return (Json 400 (message_body "Invalid subscription request"), db))
    (fun _ => (Json 500 (message_body "Error subscribing"), db)).

(** *** Services *)

(** [POST /api/services]. *)
Definition post_api_services (rt : runtime) (db : store) (body : jsval)
    : response * store :=
  try_catch
    (service ← destructure body "service";
     level ← destructure body "level";
     adminId ← destructure body "adminId";
     if falsy service || falsy level || falsy adminId
     then Return (Json 400 (message_body "All fields required"), db)
     else
       db' ← insert_service rt db service level adminId;
       Return (Json 200 (success_body "Service created"), db'))
    (fun _ => (Json 500 (message_body "Error creating service"), db)).

(** [GET /api/services]. *)
Definition get_api_services (rt : runtime) (db : store) : response :=
  try_catch
    (rows ← select_services_rich rt db;
     Return (Json 200 (JObj [("services", JArr rows)])))
    (fun _ => Json 500 (message_body "Error fetching services")).

(** [GET /services], kept for older clients. *)
Definition get_services (rt : runtime) (db : store) : response :=
  try_catch
    (rows ← select_services rt db;
     Return (Json 200 (JArr rows)))
    (fun _ => Json 500 (message_body "Error")).

(** *** Announcements *)

(** [POST /api/announcements]; a missing title becomes the empty
    string. *)
Definition post_api_announcements (rt : runtime) (db : store) (body : jsval)
    : response * store :=
  try_catch
    (title ← destructure body "title";
     content ← destructure body "content";
     adminId ← destructure body "adminId";
     if falsy content || falsy adminId
     then Return (Json 400 (message_body "content and adminId required"), db)
     else
       db' ← insert_announcement rt db (js_or title (JStr EmptyString)) content adminId;
       Return (Json 200 (success_body "Announcement created"), db'))
    (fun _ => (Json 500 (message_body "Error creating announcement"), db)).

(** [GET /api/announcements]. *)
Definition get_api_announcements (rt : runtime) (db : store) : response :=
  try_catch
    (rows ← select_announcements_rich rt db;
     Return (Json 200 (JObj [("announcements", JArr rows)])))
    (fun _ => Json 500 (message_body "Error fetching announcements")).

(** [GET /announcements], kept for older clients. *)
Definition get_announcements (rt : runtime) (db : store) : response :=
  try_catch
    (rows ← select_announcements rt db;
     Return (Json 200 (JArr rows)))
    (fun _ => Json 500 (message_body "Error")).

(** *** Work uploads *)

(** [\s] on 8-bit code units: tab, line feed, vertical tab, form feed,
    carriage return, space, no-break space. *)
Definition is_space (c : ascii) : bool :=
  let n := Z.of_N (N_of_ascii c) in
  ((9 <=? n) && (n <=? 13)) || (n =? 32) || (n =? 160).

(** [s.replace(/\s+/g, '_')]; [in_run] tells that the code unit before
    was white space, already replaced. *)
Fixpoint replace_runs (in_run : bool) (s : string) : string :=
  match s with
  | EmptyString => EmptyString
  | String c s' =>
      if is_space c then
        if in_run then replace_runs true s'
        else String "_" (replace_runs true s')
      else String c (replace_runs false s')
  end.

Definition replace_whitespace (s : string) : string := replace_runs false s.

(** [req.file], as multer fills it in. *)
Record file := { originalname : string; filename : string; path : string }.

Definition UPLOADS_DIR (rt : runtime) : string := dirname rt ++ "/uploads".

(** The [filename] callback of the disk storage. *)
Definition safeName (rt : runtime) (originalname : string) : string :=
  decimal (Date_now rt) ++ "-" ++ replace_whitespace originalname.

(** [upload.single('file')]: [attached] is the original name of the file
    part, if the form has one. *)
Definition upload_single (rt : runtime) (attached : option string) : option file :=
  (fun o => {| originalname := o; filename := safeName rt o;
               path := UPLOADS_DIR rt ++ "/" ++ safeName rt o |}) <$> attached.

(** [POST /api/work], behind [upload.single('file')]. *)
Definition post_api_work (rt : runtime) (db : store) (body : jsval)
    (attached : option string) : response * store :=
  let req_file := upload_single rt attached in
  try_catch
    (title ← destructure body "title";
     description ← destructure body "description";
     adminId ← destructure body "adminId";
     if falsy title || falsy description || falsy adminId
     then Return (Json 400 (message_body "title, description and adminId required"), db)
     else
       let filePath :=
         match req_file with
         | Some f => JStr (filename f)
         | None => JNull
         end in
       db' ← insert_work rt db title description filePath adminId;
       Return (Json 200 (success_body "Work uploaded"), db'))
    (fun _ => (Json 500 (message_body "Error uploading work"), db)).

(** [GET /api/work]. *)
Definition get_api_work (rt : runtime) (db : store) : response :=
  try_catch
    (rows ← select_work rt db;
     Return (Json 200 (JObj [("work", JArr rows)])))
    (fun _ => Json 500 (message_body "Error fetching work")).

(** *** The routes *)

Inductive request :=
| GET_root
| GET_admin_dashboard
| GET_user_dashboard
| POST_register (body : jsval)
| POST_login (body : jsval)
| POST_api_plans (body : jsval)
| GET_api_plans (query : jsval)
| POST_subscribe (body : jsval)
| POST_api_services (body : jsval)
| GET_api_services
| GET_services
| POST_api_announcements (body : jsval)
| GET_api_announcements
| GET_announcements
| POST_api_work (body : jsval) (attached : option string)
| GET_api_work.

(** The application: the response to a request and the store after it. *)
Definition app (rt : runtime) (db : store) (req : request) : response * store :=
  match req with
  | GET_root => (SendFile (dirname rt ++ "/public/index.html"), db)
  | GET_admin_dashboard => (SendFile (dirname rt ++ "/public/admin-dashboard.html"), db)
  | GET_user_dashboard => (SendFile (dirname rt ++ "/public/user-dashboard.html"), db)
  | POST_register body => post_register rt db body
  | POST_login body => (post_login rt db body, db)
  | POST_api_plans body => post_api_plans rt db body
  | GET_api_plans query => (get_api_plans rt db query, db)
  | POST_subscribe body => post_subscribe rt db body
  | POST_api_services body => post_api_services rt db body
  | GET_api_services => (get_api_services rt db, db)
  | GET_services => (get_services rt db, db)
  | POST_api_announcements body => post_api_announcements rt db body
  | GET_api_announcements => (get_api_announcements rt db, db)
  | GET_announcements => (get_announcements rt db, db)
  | POST_api_work body attached => post_api_work rt db body attached
  | GET_api_work => (get_api_work rt db, db)
  end.

(* ===================================================================== *)
(** ** Vocabulary of the statements *)
(* ===================================================================== *)

(** A table keeps its rows when others are added. *)
Definition keeps {A} (t t' : gmap Z A) : Prop :=
  forall k r, t !! k = Some r -> t' !! k = Some r.

(** Every row a request finds in the store is still there, with the same
    columns, after it. *)
Definition preserves (db db' : store) : Prop :=
  keeps (users db) (users db') /\
  keeps (plans db) (plans db') /\
  keeps (services db) (services db') /\
  keeps (announcements db) (announcements db') /\
  keeps (work db) (work db') /\
  keeps (subscriptions db) (subscriptions db').

(** A value that has properties to read: anything but [undefined] and
    [null].  The body parsers hand the handlers such a value. *)
Definition object_coercible (v : jsval) : bool :=
  match v with
  | JUndefined | JNull => false
  | _ => true
  end.


(** A parameter that is a string, or is falsy (absent, empty). *)
Definition text_or_absent (v : jsval) : bool :=
  match v with
  | JStr _ => true
  | _ => negb (truthy v)
  end.

(** The currency a listing is made in, for such a parameter. *)
Definition listing_currency (rt : runtime) (v : jsval) : string :=
  match v with
  | JStr EmptyString => toUpperCase rt BASE_CURRENCY
  | JStr s => toUpperCase rt s
  | _ => toUpperCase rt BASE_CURRENCY
  end.

(** The parameter asks for the base currency, or for none. *)
Definition requests_base (rt : runtime) (v : jsval) : Prop :=
  truthy v = false \/ exists s, v = JStr s /\ toUpperCase rt s = BASE_CURRENCY.

(** The rate service cannot be reached. *)
Definition unreachable (rt : runtime) : Prop :=
  forall url, exists e, axios_get rt url = Throw e.

Definition succeeds (r : response) : Prop := exists body, r = Json 200 body.

(** An entry of the plan listing, for the row [kr] of [plans], with
    [price_usd] and [price_local] as given. *)
Definition listed_plan (db : store) (currency : string)
    (price_usd price_local : number) (kr : Z * Plans.row) : jsval :=
  JObj [("id", JNum (of_Z kr.1));
        ("admin_id", Plans.admin_id kr.2);
        ("admin_name", admin_name db (Plans.admin_id kr.2));
        ("name", Plans.name kr.2);
        ("description", Plans.description kr.2);
        ("price_usd", JNum price_usd);
        ("duration_days", Plans.duration_days kr.2);
        ("currency", JStr currency);
        ("price_local", JNum price_local);
        ("created_at", JDate (Plans.created_at kr.2))].

(** The body of a plan listing in [currency] at [rate], each entry
    priced by [price_usd] and [price_local]. *)
Definition plans_body (rt : runtime) (db : store) (currency : string)
    (rate : jsval) (price_usd price_local : Plans.row -> number) : jsval :=
  JObj [("plans",
           JArr (map (fun kr => listed_plan db currency (price_usd kr.2)
                                  (price_local kr.2) kr)
                   (listed_plans rt db)));
        ("base", JStr BASE_CURRENCY);
        ("currency", JStr currency);
        ("rate", rate)].

(** The stored price of every plan read by the listing converts to a
    number, [price_usd] of the row. *)
Definition prices_convert (rt : runtime) (db : store)
    (price_usd : Plans.row -> number) : Prop :=
  Forall (fun kr => ToNumber rt (Plans.price_usd kr.2) = Return (price_usd kr.2))
    (active_plans db).

(** *** Rounding to two decimals

    What the specification asks of [price_local], said without the
    functions that compute it.  The magnitude of the finite number with
    mantissa [m] and exponent [e] is [m * 2^e], the fraction
    [mag_num m e / mag_den e]. *)
Definition mag_num (m : positive) (e : Z) : Z := Zpos m * 2 ^ Z.max 0 e.
Definition mag_den (e : Z) : Z := 2 ^ Z.max 0 (- e).

(** [n] hundredths are nearest to [m * 2^e]: [n - 1/2 <= 100 * m * 2^e <
    n + 1/2], so that of two nearest counts [n] is the larger. *)
Definition nearest_hundredths (m : positive) (e : Z) (n : Z) : Prop :=
  (2 * n - 1) * mag_den e <= 200 * mag_num m e < (2 * n + 1) * mag_den e.

(** The binary64 magnitude [my * 2^ey] is within half a unit in its last
    place of [n / 100]: [|my * 2^ey - n / 100| <= 2^ey / 2]. *)
Definition within_half_ulp (n : Z) (my : positive) (ey : Z) : Prop :=
  Z.abs (200 * mag_num my ey - 2 * n * mag_den ey) <= 100 * 2 ^ Z.max 0 ey.

(** [y] is the decimal of [n] hundredths with the sign [s], as a
    number: a zero of that sign when [n] is 0, otherwise a binary64 value
    of that sign within half a unit in its last place of [n / 100]. *)
Definition hundredths_as_number (s : bool) (n : Z) (y : number) : Prop :=
  match y with
  | S754_zero s' => n = 0 /\ s' = s
  | S754_finite s' my ey => s' = s /\ valid y = true /\ within_half_ulp n my ey
  | _ => False
  end.

(** [y] is [x] rounded to two decimals: the sign of [x] and a nearest
    count of hundredths of its magnitude, as a number.  [NaN] and the
    infinities stay, both zeros give [+0], and a magnitude from [10^21] on
    stays as it is. *)
Definition rounded_to_two_decimals (x y : number) : Prop :=
  match x with
  | S754_nan => y = S754_nan
  | S754_infinity s => y = S754_infinity s
  | S754_zero _ => y = S754_zero false
  | S754_finite s m e =>
      (10 ^ 21 * mag_den e <= mag_num m e -> y = x) /\
      (mag_num m e < 10 ^ 21 * mag_den e ->
       exists n, nearest_hundredths m e n /\ hundredths_as_number s n y)
  end.

(** A shift record with the denominator [den] stands for the fraction
    [N / den]: its mantissa is the integer part, and its two bits place
    the rest against one half (the round bit: at least one half; the
    sticky bit: neither nothing nor exactly one half). *)
Definition stands_for (N : Z) (mrs : shr_record) (den : Z) : Prop :=
  0 <= shr_m mrs /\
  exists num,
    0 <= num < den /\
    (shr_r mrs = true <-> den <= 2 * num) /\
    (shr_s mrs = true <-> (num <> 0 /\ 2 * num <> den)) /\
    shr_m mrs * den + num = N.

(** The numeric value 0, of either sign. *)
Definition is_zero (v : jsval) : Prop := exists s, v = JNum (S754_zero s).

(** The leading white space of [s], and what follows it. *)
Fixpoint take_space (s : string) : string :=
  match s with
  | EmptyString => EmptyString
  | String c s' => if is_space c then String c (take_space s') else EmptyString
  end.

Fixpoint skip_space (s : string) : string :=
  match s with
  | EmptyString => EmptyString
  | String c s' => if is_space c then skip_space s' else s
  end.

Fixpoint all_space (s : string) : bool :=
  match s with
  | EmptyString => true
  | String c s' => is_space c && all_space s'
  end.

Definition starts_with_text (s : string) : Prop :=
  match s with
  | EmptyString => True
  | String c _ => is_space c = false
  end.

(** [underscored s t]: [t] is [s] with every maximal run of white space
    replaced by one underscore, and nothing else changed. *)
Inductive underscored : string -> string -> Prop :=
| underscored_end : underscored EmptyString EmptyString
| underscored_text c s t :
    is_space c = false -> underscored s t ->
    underscored (String c s) (String c t)
| underscored_run run rest t :
    run <> EmptyString -> all_space run = true -> starts_with_text rest ->
    underscored rest t ->
    underscored (run ++ rest) (String "_" t).

(** [pick keys row]: the object [row] restricted to the properties named
    in [keys]. *)
Definition pick (keys : list string) (row : jsval) : jsval :=
  match row with
  | JObj fs => JObj (List.filter (fun kv => existsb (String.eqb kv.1) keys) fs)
  | _ => row
  end.

(** Time stamps from the newest to the oldest. *)
Fixpoint newest_first (l : list Z) : Prop :=
  match l with
  | [] => True
  | t :: l' => Forall (fun t' => t' <= t) l' /\ newest_first l'
  end.

(* ===================================================================== *)
(** ** A concrete runtime and concrete requests *)
(* ===================================================================== *)

(** Used to run the handlers on examples. *)
Module Scenario.

Definition upper_ascii (c : ascii) : ascii :=
  let n := N_of_ascii c in
  if ((97 <=? n) && (n <=? 122))%N then ascii_of_N (n - 32) else c.

(** Upper-casing of the letters a-z; enough for currency codes. *)
Fixpoint upper (s : string) : string :=
  match s with
  | EmptyString => EmptyString
  | String c s' => String (upper_ascii c) (upper s')
  end.

Fixpoint reverse (acc s : string) : string :=
  match s with
  | EmptyString => acc
  | String c s' => reverse (String c acc) s'
  end.

(** A stand-in for bcryptjs on strings. *)
Definition toy_hash (s : string) : string := "$2a$10$" ++ reverse EmptyString s.

Definition ECONNREFUSED : js_error :=
  {| code := Some "ECONNREFUSED"; message := "connect ECONNREFUSED" |}.

(** The rate service cannot be reached; the store answers. *)
Definition offline : runtime := {|
  toUpperCase := upper;
  StringToNumber := fun _ => NaN;
  ObjectToNumber := fun _ => Return NaN;
  encodeURIComponent := fun v =>
    match v with
    | JStr s => Return s
    | _ => Return "x"
    end;
  bcrypt_hash_string := fun s _ => toy_hash s;
  bcrypt_compare_strings := fun s h => String.eqb (toy_hash s) h;
  axios_get := fun _ => Throw ECONNREFUSED;
  Date_now := 1730000000000;
  dirname := "/srv/legit-city";
  pool_fault := None;
  CURRENT_TIMESTAMP := 1730000000;
  tie_rank := fun _ id => id
|}.

(** The rate service answers every request with [data]. *)
Definition online (data : jsval) : runtime := {|
  toUpperCase := toUpperCase offline;
  StringToNumber := StringToNumber offline;
  ObjectToNumber := ObjectToNumber offline;
  encodeURIComponent := encodeURIComponent offline;
  bcrypt_hash_string := bcrypt_hash_string offline;
  bcrypt_compare_strings := bcrypt_compare_strings offline;
  axios_get := fun _ => Return data;
  Date_now := Date_now offline;
  dirname := dirname offline;
  pool_fault := None;
  CURRENT_TIMESTAMP := CURRENT_TIMESTAMP offline;
  tie_rank := tie_rank offline
|}.

(** The runtime [rt] when the clock of the store shows [now]. *)
Definition at_time (rt : runtime) (now : Z) : runtime := {|
  toUpperCase := toUpperCase rt;
  StringToNumber := StringToNumber rt;
  ObjectToNumber := ObjectToNumber rt;
  encodeURIComponent := encodeURIComponent rt;
  bcrypt_hash_string := bcrypt_hash_string rt;
  bcrypt_compare_strings := bcrypt_compare_strings rt;
  axios_get := axios_get rt;
  Date_now := Date_now rt;
  dirname := dirname rt;
  pool_fault := pool_fault rt;
  CURRENT_TIMESTAMP := now;
  tie_rank := tie_rank rt
|}.

(** A server that hands back rows with equal time stamps in the order of
    their [id] for the legacy listings, and in the opposite order for
    every other statement. *)
Definition ties_apart : runtime := {|
  toUpperCase := toUpperCase offline;
  StringToNumber := StringToNumber offline;
  ObjectToNumber := ObjectToNumber offline;
  encodeURIComponent := encodeURIComponent offline;
  bcrypt_hash_string := bcrypt_hash_string offline;
  bcrypt_compare_strings := bcrypt_compare_strings offline;
  axios_get := axios_get offline;
  Date_now := Date_now offline;
  dirname := dirname offline;
  pool_fault := None;
  CURRENT_TIMESTAMP := CURRENT_TIMESTAMP offline;
  tie_rank := fun sql id =>
    if String.eqb sql sql_services || String.eqb sql sql_announcements
    then id else - id
|}.

Definition num (z : Z) : jsval := JNum (of_Z z).

(** [{userId: 5, serviceId: 2, planId: 9}]. *)
Definition subscribe_both : jsval :=
  JObj [("userId", num 5); ("serviceId", num 2); ("planId", num 9)].

Definition register_body (name email password accountType : string) : jsval :=
  JObj [("name", JStr name); ("email", JStr email);
        ("password", JStr password); ("accountType", JStr accountType)].

Definition login_body (email password : string) : jsval :=
  JObj [("email", JStr email); ("password", JStr password)].

(** The same requests with the JSON number 12345 as password. *)
Definition register_numeric (name email accountType : string) : jsval :=
  JObj [("name", JStr name); ("email", JStr email);
        ("password", num 12345); ("accountType", JStr accountType)].

Definition login_numeric (email : string) : jsval :=
  JObj [("email", JStr email); ("password", num 12345)].

(** The query of [GET /api/plans?currency=EUR&currency=GBP]. *)
Definition repeated_currency : jsval :=
  JObj [("currency", JArr [JStr "EUR"; JStr "GBP"])].

(** [{adminId: 1, name: "Gold", price: 100, duration: 30}]. *)
Definition gold_plan : jsval :=
  JObj [("adminId", num 1); ("name", JStr "Gold"); ("price", num 100);
        ("duration", num 30)].

(** The same plan, free of charge. *)
Definition free_plan : jsval :=
  JObj [("adminId", num 1); ("name", JStr "Free"); ("price", num 0);
        ("duration", num 30)].

Definition work_body : jsval :=
  JObj [("title", JStr "Bridge"); ("description", JStr "Survey");
        ("adminId", num 1)].

Definition service_body : jsval :=
  JObj [("service", JStr "Plumbing"); ("level", JStr "basic"); ("adminId", num 1)].

Definition wiring_body : jsval :=
  JObj [("service", JStr "Wiring"); ("level", JStr "pro"); ("adminId", num 1)].

Definition announcement_body : jsval :=
  JObj [("title", JStr "Hello"); ("content", JStr "Opening soon");
        ("adminId", num 1)].

Definition closing_body : jsval :=
  JObj [("title", JStr "Bye"); ("content", JStr "Closing soon");
        ("adminId", num 1)].

(** The row the Gold plan gets. *)
Definition gold_row : Plans.row :=
  {| Plans.admin_id := num 1; Plans.name := JStr "Gold";
     Plans.description := JStr EmptyString; Plans.price_usd := num 100;
     Plans.duration_days := num 30; Plans.active := JNum one;
     Plans.created_at := 1730000000 |}.

(** A store with one admin, one plan, one service and one announcement. *)
Definition seeded : store :=
  let db1 := (post_register offline empty_store
                (register_body "Ann" "ann@legit.city" "s3cret!" "admin")).2 in
  let db2 := (post_api_plans offline db1 gold_plan).2 in
  let db3 := (post_api_services offline db2 service_body).2 in
  (post_api_announcements offline db3 announcement_body).2.

(** The seeded store after a second service and a second announcement
    were created within the same second as the first. *)
Definition same_second : store :=
  let db := (post_api_services offline seeded wiring_body).2 in
  (post_api_announcements offline db closing_body).2.

(** The same, created a minute after the first. *)
Definition a_minute_later : store :=
  let db := (post_api_services (at_time offline 1730000060) seeded wiring_body).2 in
  (post_api_announcements (at_time offline 1730000060) db closing_body).2.

End Scenario.

(* ===================================================================== *)
(** ** Vocabulary of the further properties *)
(* ===================================================================== *)

(** The number of rows in the store. *)
Definition total_rows (db : store) : nat :=
  (size (users db) + size (plans db) + size (services db)
   + size (announcements db) + size (work db) + size (subscriptions db))%nat.

(** The three routes that send a page of the front end. *)
Definition is_page (req : request) : bool :=
  match req with
  | GET_root | GET_admin_dashboard | GET_user_dashboard => true
  | _ => false
  end.

(** A subscription row with exactly one target: a service and no plan,
    or a plan and no service. *)
Definition one_target (r : Subscriptions.row) : Prop :=
  (Subscriptions.plan_id r = JNull /\ truthy (Subscriptions.service_id r) = true) \/
  (Subscriptions.service_id r = JNull /\ truthy (Subscriptions.plan_id r) = true).

Fixpoint no_space (s : string) : bool :=
  match s with
  | EmptyString => true
  | String c s' => negb (is_space c) && no_space s'
  end.

Definition is_digit (c : ascii) : bool :=
  let n := Z.of_N (N_of_ascii c) in (48 <=? n) && (n <=? 57).

Fixpoint all_digits (s : string) : bool :=
  match s with
  | EmptyString => true
  | String c s' => is_digit c && all_digits s'
  end.

(** The store cannot be reached: every statement is refused. *)
Definition store_down : runtime := {|
  toUpperCase := toUpperCase Scenario.offline;
  StringToNumber := StringToNumber Scenario.offline;
  ObjectToNumber := ObjectToNumber Scenario.offline;
  encodeURIComponent := encodeURIComponent Scenario.offline;
  bcrypt_hash_string := bcrypt_hash_string Scenario.offline;
  bcrypt_compare_strings := bcrypt_compare_strings Scenario.offline;
  axios_get := axios_get Scenario.offline;
  Date_now := Date_now Scenario.offline;
  dirname := dirname Scenario.offline;
  pool_fault := Some Scenario.ECONNREFUSED;
  CURRENT_TIMESTAMP := CURRENT_TIMESTAMP Scenario.offline;
  tie_rank := tie_rank Scenario.offline
|}.

(* ===================================================================== *)
(** ** The front-end validators (validate.js) *)
(* ===================================================================== *)

Module Validate.

(** *** Regular expressions

    The two patterns of validate.js use character classes, sequence,
    [*], [+], [{8,}] and look-ahead, between [^] and [$].  [test] decides
    whether the whole subject matches, by derivatives. *)

Inductive regex :=
| Never
| Empty
| Class (p : ascii -> bool)
| Seq (r1 r2 : regex)
| Either (r1 r2 : regex)
| Both (r1 r2 : regex)
| Many (r : regex).

Fixpoint nullable (r : regex) : bool :=
  match r with
  | Never => false
  | Empty => true
  | Class _ => false
  | Seq r1 r2 => nullable r1 && nullable r2
  | Either r1 r2 => nullable r1 || nullable r2
  | Both r1 r2 => nullable r1 && nullable r2
  | Many _ => true
  end.

Fixpoint deriv (c : ascii) (r : regex) : regex :=
  match r with
  | Never => Never
  | Empty => Never
  | Class p => if p c then Empty else Never
  | Seq r1 r2 =>
      if nullable r1 then Either (Seq (deriv c r1) r2) (deriv c r2)
      else Seq (deriv c r1) r2
  | Either r1 r2 => Either (deriv c r1) (deriv c r2)
  | Both r1 r2 => Both (deriv c r1) (deriv c r2)
  | Many r1 => Seq (deriv c r1) (Many r1)
  end.

Fixpoint test_chars (r : regex) (s : list ascii) : bool :=
  match s with
  | [] => nullable r
  | c :: s' => test_chars (deriv c r) s'
  end.

(** [/^r$/.test(s)]. *)
Definition test (r : regex) (s : string) : bool :=
  test_chars r (list_ascii_of_string s).

(** What [test] decides: the subjects a pattern matches. *)
Inductive matches : regex -> list ascii -> Prop :=
| matches_empty : matches Empty []
| matches_class p c : p c = true -> matches (Class p) [c]
| matches_seq r1 r2 s t :
    matches r1 s -> matches r2 t -> matches (Seq r1 r2) (s ++ t)
| matches_left r1 r2 s : matches r1 s -> matches (Either r1 r2) s
| matches_right r1 r2 s : matches r2 s -> matches (Either r1 r2) s
| matches_both r1 r2 s : matches r1 s -> matches r2 s -> matches (Both r1 r2) s
| matches_many_end r : matches (Many r) []
| matches_many_more r s t :
    matches r s -> matches (Many r) t -> matches (Many r) (s ++ t).

(** All, or some, of the code units of a string are in a class. *)
Definition all_in (p : ascii -> bool) (s : string) : bool :=
  forallb p (list_ascii_of_string s).

Definition any_in (p : ascii -> bool) (s : string) : bool :=
  existsb p (list_ascii_of_string s).

(** [r+]. *)
Definition plus (r : regex) : regex := Seq r (Many r).

(** [r{n,}]. *)
Fixpoint at_least (n : nat) (r : regex) : regex :=
  match n with
  | O => Many r
  | S n' => Seq r (at_least n' r)
  end.

(** [.]: any code unit but a line terminator. *)
Definition not_line_terminator (c : ascii) : bool :=
  negb (Ascii.eqb c "010" || Ascii.eqb c "013").

Definition dot : regex := Class not_line_terminator.

Definition anything : regex := Many (Class (fun _ => true)).

(** [(?=a)k] at the start of the subject: a prefix of the subject
    matches [a], and the subject matches [k]. *)
Definition ahead (a k : regex) : regex := Both (Seq a anything) k.

(** *** The patterns *)

(** [[^\s@]]. *)
Definition not_space_nor_at (c : ascii) : bool :=
  negb (is_space c || Ascii.eqb c "@").

(** [/^[^\s@]+@[^\s@]+\.[^\s@]+$/]. *)
Definition email_pattern : regex :=
  Seq (plus (Class not_space_nor_at))
    (Seq (Class (Ascii.eqb "@"))
       (Seq (plus (Class not_space_nor_at))
          (Seq (Class (Ascii.eqb "."))
             (plus (Class not_space_nor_at))))).

(** [[0-9]]. *)
Definition digit_class (c : ascii) : bool := is_digit c.

(** [[@$!%*?&]]. *)
Definition special_class (c : ascii) : bool :=
  existsb (Ascii.eqb c) ["@"; "$"; "!"; "%"; "*"; "?"; "&"]%char.

(** [[A-Za-z0-9@$!%*?&]]. *)
Definition password_class (c : ascii) : bool :=
  let n := Z.of_N (N_of_ascii c) in
  ((65 <=? n) && (n <=? 90)) || ((97 <=? n) && (n <=? 122))
  || digit_class c || special_class c.

(** [/^(?=.*[0-9])(?=.*[@$!%*?&])[A-Za-z0-9@$!%*?&]{8,}$/]. *)
Definition password_pattern : regex :=
  ahead (Seq (Many dot) (Class digit_class))
    (ahead (Seq (Many dot) (Class special_class))
       (at_least 8 (Class password_class))).

(** *** The browser *)

(** What validate.js calls and does not define: [toLowerCase], and JSON
    as [localStorage] needs it. *)
Record browser := {
  toLowerCase : string -> string;
  JSON_parse : string -> outcome jsval;
  JSON_stringify : jsval -> string
}.

(** [s.trim()]. *)
Fixpoint trim_end (s : string) : string :=
  match s with
  | EmptyString => EmptyString
  | String c s' =>
      match trim_end s' with
      | EmptyString => if is_space c then EmptyString else String c EmptyString
      | t => String c t
      end
  end.

Definition trim (s : string) : string := trim_end (skip_space s).

Definition isValidEmail (br : browser) (v : string) : bool :=
  test email_pattern (toLowerCase br v).

Definition isStrongPassword (pw : string) : bool := test password_pattern pw.

Definition normalizeEmail (br : browser) (v : string) : string :=
  toLowerCase br (trim v).

(** *** localStorage *)

(** The item ["legitcity_users"]: absent, or a text. *)
Definition storage := option string.

(** [getUsers()]: [getItem] gives [null] for an absent item, which
    [JSON.parse] reads as the text ["null"]. *)
Definition getUsers (br : browser) (st : storage) : jsval :=
  try_catch
    (parsed ← JSON_parse br (default "null" st);
     Return (js_or parsed (JArr [])))
    (fun _ => JArr []).

(** [saveUsers(arr)]. *)
Definition saveUsers (br : browser) (arr : jsval) : storage :=
  Some (JSON_stringify br arr).

(** [u.email === email], for [u] an element of the array. *)
Definition has_email (email : string) (u : jsval) : outcome bool :=
  e ← destructure u "email"; Return (strict_eq_str e email).

(** [users.find(u => u.email === email)], on the elements of an array. *)
Fixpoint find_by_email (email : string) (l : list jsval) : outcome jsval :=
  match l with
  | [] => Return JUndefined
  | u :: l' =>
      found ← has_email email u;
      if found : bool then Return u else find_by_email email l'
  end.

(** [users.some(u => u.email === email)]. *)
Fixpoint some_has_email (email : string) (l : list jsval) : outcome bool :=
  match l with
  | [] => Return false
  | u :: l' =>
      found ← has_email email u;
      if found : bool then Return true else some_has_email email l'
  end.

(** The elements of [users], when it is an array; calling [some], [find]
    or [push] on anything else throws. *)
Definition elements (users : jsval) : outcome (list jsval) :=
  match users with
  | JArr l => Return l
  | _ => Throw (TypeError "not a function")
  end.

(** *** The forms *)

(** The values of the inputs of the registration form. *)
Record register_form := {
  regName : string; regEmail : string; regPassword : string;
  confirmPassword : string; accountType : string
}.

Record login_form := { loginEmail : string; loginPassword : string }.

Inductive alert := Registration_successful | Login_successful.

(** What a validator leaves: the value it returns, the inputs it marked
    with an error (by [id], each with the message last set), the item in
    [localStorage], and the alert it raised. *)
Record validation := {
  returned : bool;
  errors : gmap string string;
  stored : storage;
  alerted : option alert
}.

(** [setError(input, message)], on the errors marked so far. *)
Definition setError (id message : string) (errs : gmap string string)
    : gmap string string :=
  <[id := message]> errs.

Definition weak_password_message : string :=
  "Password must be 8+ chars and include a number and a special character.".

(** The variable [valid] and the errors set so far. *)
Record checks := { valid : bool; marked : gmap string string }.

(** [clearErrors([...]); let valid = true]. *)
Definition cleared : checks := {| valid := true; marked := ∅ |}.

(** [setError(input, message); valid = false]. *)
Definition reject (id message : string) (c : checks) : checks :=
  {| valid := false; marked := setError id message (marked c) |}.

(** The checks of [validateRegister] before the look-up. *)
Definition register_checks (br : browser) (f : register_form) : checks :=
  let c1 := if (String.length (trim (regName f)) <? 3)%nat
            then reject "regName" "Name must be at least 3 characters long." cleared
            else cleared in
  let c2 := if negb (isValidEmail br (regEmail f))
            then reject "regEmail" "Please enter a valid email address." c1
            else c1 in
  let c3 := if negb (isStrongPassword (regPassword f))
            then reject "regPassword" weak_password_message c2
            else c2 in
  let c4 := if negb (String.eqb (regPassword f) (confirmPassword f))
            then reject "confirmPassword" "Passwords do not match." c3
            else c3 in
  if String.eqb (accountType f) EmptyString
  then reject "accountType" "Please select an account type." c4
  else c4.

(** The record [validateRegister] pushes. *)
Definition new_user (br : browser) (f : register_form) : jsval :=
  JObj [("name", JStr (trim (regName f)));
        ("email", JStr (normalizeEmail br (regEmail f)));
        ("password", JStr (regPassword f));
        ("type", JStr (accountType f))].

(** [validateRegister(event)].  The look-up of the email is made whether
    or not the checks before it passed. *)
Definition validateRegister (br : browser) (st : storage) (f : register_form)
    : outcome validation :=
  let c5 := register_checks br f in
  let users := getUsers br st in
  l ← elements users;
  exists_ ← some_has_email (normalizeEmail br (regEmail f)) l;
  let c6 := if exists_ : bool
            then reject "regEmail"
                   "This email is already registered. Try logging in." c5
            else c5 in
  if negb (valid c6) then
    Return {| returned := false; errors := marked c6; stored := st;
              alerted := None |}
  else
    Return {| returned := true; errors := marked c6;
              stored := saveUsers br (JArr (l ++ [new_user br f]));
              alerted := Some Registration_successful |}.

Definition login_checks (br : browser) (f : login_form) : checks :=
  let c1 := if negb (isValidEmail br (loginEmail f))
            then reject "loginEmail" "Please enter a valid email address." cleared
            else cleared in
  if negb (isStrongPassword (loginPassword f))
  then reject "loginPassword" weak_password_message c1
  else c1.

(** [validateLogin(event)]. *)
Definition validateLogin (br : browser) (st : storage) (f : login_form)
    : outcome validation :=
  let c2 := login_checks br f in
  if negb (valid c2) then
    Return {| returned := false; errors := marked c2; stored := st;
              alerted := None |}
  else
    l ← elements (getUsers br st);
    user ← find_by_email (normalizeEmail br (loginEmail f)) l;
    if falsy user
       || negb (strict_eq_str (get_prop user "password") (loginPassword f))
    then
      Return {| returned := false;
                errors := setError "loginPassword" "Email or password is incorrect."
                            (setError "loginEmail" "Email or password is incorrect."
                               (marked c2));
                stored := st; alerted := None |}
    else
      Return {| returned := true; errors := marked c2; stored := st;
                alerted := Some Login_successful |}.

(** [valid] is [true] exactly when no error has been set. *)
Definition consistent (c : checks) : Prop :=
  (valid c = true /\ marked c = ∅) \/ (valid c = false /\ marked c <> ∅).

(** *** A concrete browser *)

Module Demo.

Definition lower_ascii (c : ascii) : ascii :=
  let n := N_of_ascii c in
  if ((65 <=? n) && (n <=? 90))%N then ascii_of_N (n + 32) else c.

(** Lower-casing of the letters A-Z. *)
Fixpoint lower (s : string) : string :=
  match s with
  | EmptyString => EmptyString
  | String c s' => String (lower_ascii c) (lower s')
  end.

(** A stand-in for JSON on arrays of user records: the four fields of a
    record end with the code unit 31, a record ends with the code unit
    30. *)
Definition field_end : ascii := "031".
Definition record_end : ascii := "030".

Definition write_field (v : jsval) : string :=
  match v with
  | JStr s => s ++ String field_end EmptyString
  | _ => String field_end EmptyString
  end.

Definition write_user (u : jsval) : string :=
  write_field (get_prop u "name") ++ write_field (get_prop u "email")
  ++ write_field (get_prop u "password") ++ write_field (get_prop u "type")
  ++ String record_end EmptyString.

Definition stringify (v : jsval) : string :=
  match v with
  | JArr l => String "[" (String.concat EmptyString (map write_user l))
  | _ => "null"
  end.

(** The fields read so far, last first, the field being read, and the
    records read so far, last first. *)
Fixpoint read_users (fields : list string) (field : string)
    (users : list jsval) (s : string) : outcome jsval :=
  match s with
  | EmptyString =>
      match fields, field with
      | [], EmptyString => Return (JArr (rev users))
      | _, _ => Throw (TypeError "Unexpected end of JSON input")
      end
  | String c s' =>
      if Ascii.eqb c field_end then
        read_users (field :: fields) EmptyString users s'
      else if Ascii.eqb c record_end then
        match fields with
        | [t; p; e; n] =>
            read_users [] EmptyString
              (JObj [("name", JStr n); ("email", JStr e);
                     ("password", JStr p); ("type", JStr t)] :: users) s'
        | _ => Throw (TypeError "Unexpected token")
        end
      else read_users fields (field ++ String c EmptyString) users s'
  end.

Definition parse (s : string) : outcome jsval :=
  match s with
  | String "[" s' => read_users [] EmptyString [] s'
  | _ => if String.eqb s "null" then Return JNull
         else Throw (TypeError "Unexpected token")
  end.

Definition chrome : browser :=
  {| toLowerCase := lower; JSON_parse := parse; JSON_stringify := stringify |}.

Definition ann : register_form :=
  {| regName := "Ann Lee"; regEmail := "Ann@Legit.City";
     regPassword := "s3cret!pw"; confirmPassword := "s3cret!pw";
     accountType := "admin" |}.

Definition bob : register_form :=
  {| regName := "Bob Ray"; regEmail := "bob@legit.city";
     regPassword := "pa55word!"; confirmPassword := "pa55word!";
     accountType := "user" |}.

(** The item after Ann's registration on an empty [localStorage]. *)
Definition with_ann : storage := saveUsers chrome (JArr [new_user chrome ann]).

End Demo.

End Validate.
(* ===================================================================== *)
(** ** Properties of the building blocks *)
(* ===================================================================== *)

(** *** Numbers *)

Lemma shr_exact_52 (m : positive) (e : Z) :
  shr (shr_record_of_loc (Zpos (4503599627370496 * m)) loc_Exact) e 52
  = ({| shr_m := Zpos m; shr_r := false; shr_s := false |}, e + 52).
Proof. reflexivity. Qed.

Lemma digits2_scaled (m : positive) :
  Zdigits2 (Zpos (4503599627370496 * m)) = Zpos (digits2_pos m) + 52.
Proof.
  unfold Zdigits2. lazy [Pos.mul digits2_pos]. fold (digits2_pos m).
  generalize (digits2_pos m). intros d. lia.
Qed.

Lemma mul_one_finite (s : bool) (m : positive) (e : Z) :
  bounded prec emax m e = true ->
  mul (S754_finite s m e) one = S754_finite s m e.
Proof.
  unfold bounded, canonical_mantissa. intros [Hc He]%andb_prop.
  apply Z.eqb_eq in Hc.
  unfold mul, one, SFmul, binary_round_aux.
  rewrite Pos.mul_comm.
  unfold shr_fexp at 1.
  rewrite digits2_scaled.
  replace (Z.pos (digits2_pos m) + 52 + (e + -52))
    with (Z.pos (digits2_pos m) + e) by lia.
  rewrite Hc. replace (e - (e + -52)) with 52 by lia.
  rewrite shr_exact_52.
  cbn [shr_m loc_of_shr_record round_nearest_even].
  replace (e + -52 + 52) with e by lia.
  unfold shr_fexp. cbn [Zdigits2]. rewrite Hc, Z.sub_diag.
  cbn [shr shr_record_of_loc shr_m].
  rewrite He. now destruct s.
Qed.

(** Multiplying a binary64 value by 1 changes nothing: no rounding
    happens. *)
Lemma mul_one_r (x : number) : valid x = true -> mul x one = x.
Proof.
  destruct x as [s|s| |s m e]; cbn; intros H; try reflexivity.
  - now destruct s.
  - now destruct s.
  - now apply mul_one_finite.
Qed.

(** The count of hundredths [toFixed(2)] prints is a nearest one: it is
    within half a hundredth of [m * 2^e], and on a tie it is the larger. *)
Lemma nearest_hundredth_exact (m : positive) (e : Z) :
  0 <= e -> nearest_hundredth m e = 100 * (Zpos m * 2 ^ e).
Proof.
  intros He. unfold nearest_hundredth.
  destruct (Z.leb_spec 0 e); [ring | lia].
Qed.

Lemma nearest_hundredth_close (m : positive) (e : Z) :
  e < 0 ->
  let d := 2 ^ (- e) in
  let n := nearest_hundredth m e in
  2 * d * n - d <= 200 * Zpos m < 2 * d * n + d.
Proof.
  intros He d n. subst n. unfold nearest_hundredth.
  destruct (Z.leb_spec 0 e); [lia|]. fold d.
  assert (Hd : 0 < d) by (apply Z.pow_pos_nonneg; lia).
  pose proof (Z.div_mod (200 * Z.pos m + d) (2 * d) ltac:(lia)) as Hdm.
  pose proof (Z.mod_pos_bound (200 * Z.pos m + d) (2 * d) ltac:(lia)) as Hb.
  nia.
Qed.

(** [toFixed(2)] of a finite non-zero [x] below 10^21 in magnitude keeps
    the sign of [x] and prints a nearest count of hundredths of [|x|]. *)
Lemma toFixed2_nearest (s : bool) (m : positive) (e : Z) :
  ge_1e21 m e = false ->
  exists n,
    toFixed2 (S754_finite s m e) = NumFixed s n /\
    (0 <= e -> n = 100 * (Zpos m * 2 ^ e)) /\
    (e < 0 -> 2 * 2 ^ (- e) * n - 2 ^ (- e) <= 200 * Zpos m
                < 2 * 2 ^ (- e) * n + 2 ^ (- e)).
Proof.
  intros H. exists (nearest_hundredth m e). simpl. rewrite H.
  split; [done|]. split.
  - apply nearest_hundredth_exact.
  - apply nearest_hundredth_close.
Qed.

(** *** Rounding

    The number of binary digits of a mantissa. *)
Lemma digits2_bounds (p : positive) :
  2 ^ (Zpos (digits2_pos p) - 1) <= Zpos p < 2 ^ Zpos (digits2_pos p).
Proof.
  induction p as [p IH|p IH|]; simpl digits2_pos.
  - rewrite Pos2Z.inj_succ. replace (Z.succ (Z.pos (digits2_pos p)) - 1) with (Z.succ (Z.pos (digits2_pos p) - 1)) by lia.
    rewrite !Z.pow_succ_r by lia. lia.
  - rewrite Pos2Z.inj_succ. replace (Z.succ (Z.pos (digits2_pos p)) - 1) with (Z.succ (Z.pos (digits2_pos p) - 1)) by lia.
    rewrite !Z.pow_succ_r by lia. lia.
  - simpl. lia.
Qed.

Lemma digits2_unique (p : positive) (d : Z) :
  2 ^ (d - 1) <= Zpos p < 2 ^ d -> Zpos (digits2_pos p) = d.
Proof.
  intros [H1 H2]. pose proof (digits2_bounds p) as [B1 B2].
  assert (Hd : 0 < d).
  { destruct (Z.ltb_spec 0 d); [done|].
    destruct (Z.eq_dec d 0) as [->|]; [simpl in H2; lia|].
    rewrite (Z.pow_neg_r 2 d) in H2 by lia. lia. }
  destruct (Z.lt_trichotomy (Zpos (digits2_pos p)) d) as [Hlt|[Heq|Hgt]]; [|done|].
  - assert (2 ^ Zpos (digits2_pos p) <= 2 ^ (d - 1)) by (apply Z.pow_le_mono_r; lia). lia.
  - assert (2 ^ d <= 2 ^ (Zpos (digits2_pos p) - 1)) by (apply Z.pow_le_mono_r; lia). lia.
Qed.

Lemma shr_1_stands_for (N : Z) (mrs : shr_record) (den : Z) :
  stands_for N mrs den ->
  stands_for N (shr_1 mrs) (2 * den) /\ shr_m (shr_1 mrs) = shr_m mrs / 2.
Proof.
  destruct mrs as [m r s]. intros (Hm & num & Hn & Hr & Hs & HN). simpl in *.
  assert (Hrs : orb r s = true <-> num <> 0).
  { rewrite orb_true_iff, Hr, Hs. lia. }
  unfold stands_for.
  destruct m as [|[p|p|]|p]; simpl; try lia.
  - split; [|done]. split; [lia|]. exists num. rewrite Hrs.
    repeat split; try lia; try done.
  - split; [|rewrite Pos2Z.inj_xI; apply Z.div_unique with 1; lia].
    split; [lia|]. exists (den + num). rewrite Hrs. repeat split; try lia.
  - split; [|rewrite Pos2Z.inj_xO; apply Z.div_unique with 0; lia].
    split; [lia|]. exists num. rewrite Hrs. repeat split; try lia; try done.
  - split; [|done]. split; [lia|]. exists (den + num). rewrite Hrs.
    repeat split; try lia.
Qed.

Lemma iter_shr_1_stands_for (p : positive) (N : Z) (mrs : shr_record) (den : Z) :
  stands_for N mrs den ->
  stands_for N (SpecFloat.iter_pos shr_1 p mrs) (2 ^ Zpos p * den) /\
  shr_m (SpecFloat.iter_pos shr_1 p mrs) = shr_m mrs / 2 ^ Zpos p.
Proof.
  revert mrs den. induction p as [p IH|p IH|]; intros mrs den H; simpl SpecFloat.iter_pos.
  - destruct (shr_1_stands_for _ _ _ H) as [H1 E1].
    destruct (IH _ _ H1) as [H2 E2]. destruct (IH _ _ H2) as [H3 E3].
    rewrite (Pos2Z.inj_xI p), Z.pow_add_r, Z.pow_mul_r, Z.pow_1_r by lia.
    replace (2 ^ 2) with 4 by done.
    assert (Hp : 0 < 2 ^ Z.pos p) by (apply Z.pow_pos_nonneg; lia).
    split.
    + replace ((4 ^ Z.pos p) * 2 * den) with (2 ^ Z.pos p * (2 ^ Z.pos p * (2 * den))); [done|].
      replace 4 with (2 * 2) by done. rewrite Z.pow_mul_l. ring.
    + rewrite E3, E2, E1, !Z.div_div by lia. f_equal.
      replace 4 with (2 * 2) by done. rewrite Z.pow_mul_l. ring.
  - destruct (IH _ _ H) as [H2 E2]. destruct (IH _ _ H2) as [H3 E3].
    rewrite (Pos2Z.inj_xO p), Z.pow_mul_r by lia.
    replace (2 ^ 2) with 4 by done.
    assert (Hp : 0 < 2 ^ Z.pos p) by (apply Z.pow_pos_nonneg; lia).
    split.
    + replace ((4 ^ Z.pos p) * den) with (2 ^ Z.pos p * (2 ^ Z.pos p * den)); [done|].
      replace 4 with (2 * 2) by done. rewrite Z.pow_mul_l. ring.
    + rewrite E3, E2, !Z.div_div by lia. f_equal.
      replace 4 with (2 * 2) by done. rewrite Z.pow_mul_l. ring.
  - destruct (shr_1_stands_for _ _ _ H) as [H1 E1]. by rewrite Z.pow_1_r.
Qed.

(** [shr] by [k >= 0] places. *)
Lemma shr_stands_for (N : Z) (mrs : shr_record) (den e k : Z) :
  0 <= k ->
  stands_for N mrs den ->
  stands_for N (shr mrs e k).1 (2 ^ k * den) /\
  shr_m (shr mrs e k).1 = shr_m mrs / 2 ^ k /\
  (shr mrs e k).2 = e + k.
Proof.
  intros Hk H. destruct k as [|p|p]; [| |lia]; unfold shr; cbn [fst snd].
  - by rewrite Z.pow_0_r, Z.mul_1_l, Z.div_1_r, Z.add_0_r.
  - by destruct (iter_shr_1_stands_for p N mrs den H) as [H1 H2].
Qed.

Lemma record_of_loc_stands_for (m num den : Z) (l : location) :
  0 <= m -> 0 <= num < den ->
  l = (if num =? 0 then loc_Exact else loc_Inexact (2 * num ?= den)) ->
  stands_for (m * den + num) (shr_record_of_loc m l) den.
Proof.
  intros Hm Hn ->. split.
  - by destruct (num =? 0), (2 * num ?= den).
  - exists num. split; [done|].
    destruct (Z.eqb_spec num 0) as [->|Hz]; simpl.
    + repeat split; try lia; try done.
    + destruct (Z.compare_spec (2 * num) den); simpl;
        repeat split; try lia; try done.
Qed.

(** Rounding to nearest leaves at most one half. *)
Lemma round_nearest_even_close (N : Z) (mrs : shr_record) (den : Z) :
  stands_for N mrs den ->
  let m := round_nearest_even (shr_m mrs) (loc_of_shr_record mrs) in
  shr_m mrs <= m <= shr_m mrs + 1 /\
  Z.abs (2 * m * den - 2 * N) <= den.
Proof.
  destruct mrs as [m r s]. intros (Hm & num & Hn & Hr & Hs & HN). simpl in *.
  destruct r, s; simpl.
  - destruct Hr as [Hr _], Hs as [Hs _]. specialize (Hr eq_refl).
    specialize (Hs eq_refl). split; [lia|]. nia.
  - destruct Hr as [Hr _]. specialize (Hr eq_refl).
    assert (2 * num = den).
    { destruct (Z.eq_dec (2 * num) den); [done|].
      destruct Hs as [_ Hs]. discriminate Hs. split; lia. }
    destruct (Z.even m); (split; [lia|nia]).
  - assert (~ den <= 2 * num) by (intros H; apply Hr in H; discriminate).
    split; [lia|]. nia.
  - assert (num = 0).
    { destruct (Z.eq_dec num 0); [done|].
      assert (~ den <= 2 * num) by (intros H; apply Hr in H; discriminate).
      destruct Hs as [_ Hs]. discriminate Hs. split; lia. }
    split; [lia|]. nia.
Qed.

Lemma fexp_normal (d e : Z) :
  -1074 <= e -> 53 <= d -> fexp prec emax (d + e) = d + e - 53.
Proof. unfold fexp, emin, prec, emax. lia. Qed.

(** [binary_round_aux] on a quotient [q + num/den], in units of [2^e],
    that needs all 53 bits: the result is finite, in canonical form, and
    within half a unit in its last place of the quotient. *)
Lemma binary_round_aux_normal (sx : bool) (q : positive) (e : Z) (l : location)
    (num den : Z) :
  0 <= num < den ->
  l = (if num =? 0 then loc_Exact else loc_Inexact (2 * num ?= den)) ->
  2 ^ 52 <= Zpos q ->
  -1074 <= e ->
  e + (Zpos (digits2_pos q) - 53) + 1 <= 971 ->
  exists my ey,
    binary_round_aux prec emax sx (Zpos q) e l = S754_finite sx my ey /\
    bounded prec emax my ey = true /\
    e <= ey /\
    Z.abs (2 * Zpos my * 2 ^ (ey - e) * den - 2 * (Zpos q * den + num))
      <= 2 ^ (ey - e) * den.
Proof.
  intros Hn Hl Hq He Hmax.
  pose proof (digits2_bounds q) as [Hd1 Hd2].
  assert (Hd : 53 <= Zpos (digits2_pos q)).
  { destruct (Z.le_gt_cases 53 (Zpos (digits2_pos q))) as [|Hlt]; [done|].
    assert (2 ^ Zpos (digits2_pos q) <= 2 ^ 52) by (apply Z.pow_le_mono_r; lia).
    lia. }
  set (k := Zpos (digits2_pos q) - 53) in *.
  assert (Hk : 0 <= k) by lia.
  assert (Hpk : 0 < 2 ^ k) by (apply Z.pow_pos_nonneg; lia).
  assert (Hqk : 2 ^ 52 * 2 ^ k <= Zpos q < 2 ^ 53 * 2 ^ k).
  { rewrite <- !Z.pow_add_r by lia.
    replace (52 + k) with (Zpos (digits2_pos q) - 1) by lia.
    replace (53 + k) with (Zpos (digits2_pos q)) by lia. done. }
  pose proof (record_of_loc_stands_for (Zpos q) num den l ltac:(lia) Hn Hl) as H0.
  destruct (shr_stands_for _ _ _ e k Hk H0) as (H1 & Em & Ee).
  unfold binary_round_aux.
  assert (Es : shr_fexp prec emax (Zpos q) e l
               = shr (shr_record_of_loc (Zpos q) l) e k).
  { unfold shr_fexp. cbn [Zdigits2]. rewrite fexp_normal by lia.
    f_equal. lia. }
  rewrite Es.
  destruct (shr (shr_record_of_loc (Z.pos q) l) e k) as [mrs1 e1].
  cbn [fst snd] in H1, Em, Ee. subst e1.
  assert (Em0 : shr_m (shr_record_of_loc (Z.pos q) l) = Zpos q)
    by (by destruct l as [|[]]).
  rewrite Em0 in Em.
  assert (Hm1 : 2 ^ 52 <= shr_m mrs1 < 2 ^ 53).
  { rewrite Em. split.
    - apply Z.div_le_lower_bound; lia.
    - apply Z.div_lt_upper_bound; lia. }
  destruct (round_nearest_even_close _ _ _ H1) as [Hr Hclose].
  set (mr := round_nearest_even (shr_m mrs1) (loc_of_shr_record mrs1)) in *.
  destruct (Z.eq_dec mr (2 ^ 53)) as [E53|N53].
  - rewrite E53 in *. exists (2 ^ 52)%positive, (e + k + 1).
    assert (Ef : fexp prec emax (Zdigits2 (2 ^ 53) + (e + k)) - (e + k) = 1).
    { change (Zdigits2 (2 ^ 53)) with 54. unfold fexp, emin, prec, emax. lia. }
    unfold shr_fexp. rewrite Ef.
    change (shr (shr_record_of_loc (2 ^ 53) loc_Exact) (e + k) 1)
      with ({| shr_m := 2 ^ 52; shr_r := false; shr_s := false |}, e + k + 1).
    cbn [shr_m]. change (2 ^ 52) with (Zpos (2 ^ 52)) at 1.
    cbv iota beta. unfold prec, emax.
    destruct (Z.leb_spec (e + k + 1) (1024 - 53)); [|lia].
    split; [done|]. split.
    + unfold bounded, canonical_mantissa.
      change (Z.pos (digits2_pos (2 ^ 52))) with 53.
      apply andb_true_intro. split; [|lia].
      apply Z.eqb_eq. unfold fexp, emin. lia.
    + split; [lia|].
      replace (e + k + 1 - e) with (k + 1) by lia.
      rewrite Z.pow_add_r, Z.pow_1_r by lia.
      rewrite Z.mul_assoc in Hclose.
      change (Z.pos (2 ^ 52)) with (2 ^ 52).
      change (2 ^ 53) with (2 ^ 52 * 2) in Hclose. nia.
  - assert (Hpos : 0 < mr) by lia.
    destruct mr as [|pm|pm] eqn:Emr; [lia| |lia].
    assert (Hdm : Zpos (digits2_pos pm) = 53).
    { apply digits2_unique. change (53 - 1) with 52. lia. }
    exists pm, (e + k).
    assert (Ef : fexp prec emax (Zdigits2 (Zpos pm) + (e + k)) - (e + k) = 0).
    { cbn [Zdigits2]. rewrite Hdm. unfold fexp, emin, prec, emax. lia. }
    unfold shr_fexp. rewrite Ef. cbn [shr shr_record_of_loc shr_m fst snd].
    unfold prec, emax.
    destruct (Z.leb_spec (e + k) (1024 - 53)); [|lia].
    split; [done|]. split.
    + unfold bounded, canonical_mantissa. rewrite Hdm.
      apply andb_true_intro. split; [|lia].
      apply Z.eqb_eq. unfold fexp, emin. lia.
    + split; [lia|].
      replace (e + k - e) with k by lia.
      rewrite Z.mul_assoc in Hclose. nia.
Qed.

(** The quotient of [n] by 100, for [n] up to [10^23]: finite, in
    canonical form, within half a unit in its last place of [n / 100]. *)
Lemma SFdiv_hundred (neg : bool) (n : positive) :
  Zpos n <= 10 ^ 23 ->
  exists my ey,
    SFdiv prec emax (S754_finite neg n 0) (S754_finite false 100 0)
      = S754_finite neg my ey /\
    bounded prec emax my ey = true /\
    within_half_ulp (Zpos n) my ey.
Proof.
  intros Hn.
  pose proof (digits2_bounds n) as [Hd1 Hd2].
  set (d := Zpos (digits2_pos n)) in *.
  assert (Hd : 1 <= d <= 77).
  { split; [unfold d; lia|].
    destruct (Z.le_gt_cases d 77) as [|Hgt]; [done|].
    assert (2 ^ 77 <= 2 ^ (d - 1)) by (apply Z.pow_le_mono_r; lia).
    assert (10 ^ 23 < 2 ^ 77) by done. lia. }
  set (s := Z.max 0 (60 - d)).
  assert (Hs : 0 <= s) by lia.
  assert (Hps : 0 < 2 ^ s) by (apply Z.pow_pos_nonneg; lia).
  assert (Hm' : 2 ^ 59 <= Zpos n * 2 ^ s < 2 ^ 77).
  { destruct (Z.le_gt_cases d 60).
    - replace s with (60 - d) by lia.
      assert (E1 : 2 ^ (d - 1) * 2 ^ (60 - d) = 2 ^ 59)
        by (rewrite <- Z.pow_add_r by lia; f_equal; lia).
      assert (E2 : 2 ^ d * 2 ^ (60 - d) = 2 ^ 60)
        by (rewrite <- Z.pow_add_r by lia; f_equal; lia).
      assert (2 ^ 60 < 2 ^ 77) by done.
      assert (0 < 2 ^ (60 - d)) by (apply Z.pow_pos_nonneg; lia).
      nia.
    - replace s with 0 by lia. rewrite Z.pow_0_r, Z.mul_1_r.
      assert (2 ^ 60 <= 2 ^ (d - 1)) by (apply Z.pow_le_mono_r; lia).
      assert (2 ^ 59 < 2 ^ 60) by done. assert (10 ^ 23 < 2 ^ 77) by done. lia. }
  unfold SFdiv, SFdiv_core_binary. cbn [Zdigits2]. fold d.
  change (Z.pos (digits2_pos 100)) with 7.
  assert (Ee : Z.min (fexp prec emax (d + 0 - (7 + 0))) (0 - 0) = - s).
  { unfold fexp, emin, prec, emax. lia. }
  rewrite Ee. replace (0 - 0 - - s) with s by lia.
  assert (Em : match s with
               | 0 => Z.pos n
               | Z.pos _ => Z.shiftl (Z.pos n) s
               | Z.neg _ => 0
               end = Zpos n * 2 ^ s).
  { destruct s as [|p|p] eqn:Es; [| |lia].
    - by rewrite Z.pow_0_r, Z.mul_1_r.
    - apply Z.shiftl_mul_pow2. lia. }
  rewrite Em.
  pose proof (Z_div_mod_eq_full (Zpos n * 2 ^ s) 100) as Hdm.
  pose proof (Z.mod_pos_bound (Zpos n * 2 ^ s) 100 ltac:(lia)) as Hr.
  unfold Z.div, Z.modulo in Hdm, Hr.
  destruct (Z.div_eucl (Zpos n * 2 ^ s) 100) as [q r].
  assert (Hq : 2 ^ 52 <= q < 2 ^ 77).
  { assert (2 ^ 52 * 100 + 100 <= 2 ^ 59) by done. lia. }
  destruct q as [|q|q]; [lia| |lia].
  assert (Hdq : Zpos (digits2_pos q) <= 77).
  { pose proof (digits2_bounds q) as [B1 B2].
    destruct (Z.le_gt_cases (Zpos (digits2_pos q)) 77) as [|Hgt]; [done|].
    assert (2 ^ 77 <= 2 ^ (Zpos (digits2_pos q) - 1))
      by (apply Z.pow_le_mono_r; lia).
    lia. }
  destruct (binary_round_aux_normal (xorb neg false) q (- s)
              (new_location 100 r) r 100) as (my & ey & E & Hb & Hey & Hclose).
  - done.
  - unfold new_location. change (Z.even 100) with true. cbv iota.
    unfold new_location_even. reflexivity.
  - lia.
  - lia.
  - lia.
  - exists my, ey. cbv beta iota. rewrite xorb_false_r in E |- *.
    split; [done|]. split; [done|].
    replace (Z.pos q * 100 + r) with (Z.pos n * 2 ^ s) in Hclose by lia. unfold within_half_ulp, mag_num, mag_den.
    replace (ey - - s) with (ey + s) in Hclose by lia.
    destruct (Z.le_gt_cases 0 ey).
    + replace (Z.max 0 ey) with ey by lia. replace (Z.max 0 (- ey)) with 0 by lia.
      rewrite Z.pow_0_r. rewrite Z.pow_add_r in Hclose by lia.
      assert (0 < 2 ^ ey) by (apply Z.pow_pos_nonneg; lia).
      replace (2 * Z.pos my * (2 ^ ey * 2 ^ s) * 100 - 2 * (Z.pos n * 2 ^ s))
        with ((200 * (Z.pos my * 2 ^ ey) - 2 * Z.pos n * 1) * 2 ^ s) in Hclose by ring.
      replace (2 ^ ey * 2 ^ s * 100) with (100 * 2 ^ ey * 2 ^ s) in Hclose by ring.
      rewrite Z.abs_mul, (Z.abs_eq (2 ^ s)) in Hclose by lia.
      apply Z.mul_le_mono_pos_r in Hclose; lia.
    + replace (Z.max 0 ey) with 0 by lia. replace (Z.max 0 (- ey)) with (- ey) by lia.
      rewrite Z.pow_0_r.
      assert (Es : 2 ^ s = 2 ^ (ey + s) * 2 ^ (- ey))
        by (rewrite <- Z.pow_add_r by lia; f_equal; lia).
      assert (0 < 2 ^ (ey + s)) by (apply Z.pow_pos_nonneg; lia).
      rewrite Es in Hclose.
      replace (2 * Z.pos my * 2 ^ (ey + s) * 100 - 2 * (Z.pos n * (2 ^ (ey + s) * 2 ^ (- ey))))
        with ((200 * (Z.pos my * 1) - 2 * Z.pos n * 2 ^ (- ey)) * 2 ^ (ey + s)) in Hclose by ring.
      replace (2 ^ (ey + s) * 100) with (100 * 1 * 2 ^ (ey + s)) in Hclose by ring.
      rewrite Z.abs_mul, (Z.abs_eq (2 ^ (ey + s))) in Hclose by lia.
      apply Z.mul_le_mono_pos_r in Hclose; lia.
Qed.

Lemma ge_1e21_spec (m : positive) (e : Z) :
  ge_1e21 m e = true <-> 10 ^ 21 * mag_den e <= mag_num m e.
Proof.
  unfold ge_1e21, mag_den, mag_num. destruct (Z.leb_spec 0 e).
  - replace (Z.max 0 e) with e by lia. replace (Z.max 0 (- e)) with 0 by lia.
    rewrite Z.pow_0_r, Z.leb_le. lia.
  - replace (Z.max 0 e) with 0 by lia. replace (Z.max 0 (- e)) with (- e) by lia.
    rewrite Z.pow_0_r, Z.leb_le. lia.
Qed.

(** The count of hundredths [toFixed(2)] prints is a nearest one, and of
    two nearest the larger. *)
Lemma nearest_hundredth_spec (m : positive) (e : Z) :
  nearest_hundredths m e (nearest_hundredth m e).
Proof.
  unfold nearest_hundredths, mag_den, mag_num.
  destruct (Z.le_gt_cases 0 e) as [He|He].
  - rewrite (nearest_hundredth_exact m e He).
    replace (Z.max 0 e) with e by lia. replace (Z.max 0 (- e)) with 0 by lia.
    rewrite Z.pow_0_r. lia.
  - pose proof (nearest_hundredth_close m e He) as H. cbv zeta in H.
    replace (Z.max 0 e) with 0 by lia. replace (Z.max 0 (- e)) with (- e) by lia.
    rewrite Z.pow_0_r. lia.
Qed.

(** [Number(x.toFixed(2))] is [x] rounded to two decimals. *)
Lemma round2_spec (x : number) : rounded_to_two_decimals x (round2 x).
Proof.
  destruct x as [s|s| |s m e]; try reflexivity.
  unfold rounded_to_two_decimals, round2, toFixed2.
  destruct (ge_1e21 m e) eqn:Hbig.
  - split; [done|]. intros H. apply ge_1e21_spec in Hbig. lia.
  - split.
    { intros H. apply ge_1e21_spec in H. congruence. }
    intros Hsmall. exists (nearest_hundredth m e).
    pose proof (nearest_hundredth_spec m e) as Hn.
    split; [exact Hn|].
    destruct Hn as [Hlo Hhi].
    assert (Hden : 0 < mag_den e) by (apply Z.pow_pos_nonneg; lia).
    assert (Hnum : 0 < mag_num m e).
    { unfold mag_num.
      assert (0 < 2 ^ Z.max 0 e) by (apply Z.pow_pos_nonneg; lia). lia. }
    assert (Hrange : 0 <= nearest_hundredth m e <= 10 ^ 23) by nia.
    destruct (nearest_hundredth m e) as [|n|n] eqn:En; [done| |lia].
    cbn [Number_of_numeral].
    destruct (SFdiv_hundred s n) as (my & ey & E & Hb & Hw); [lia|].
    rewrite E. done.
Qed.

(** *** Tables *)

Lemma max_key_bound {A} (t : gmap Z A) (k : Z) :
  is_Some (t !! k) -> k <= map_fold (fun k _ acc => Z.max k acc) 0 t.
Proof.
  revert k.
  apply (map_fold_weak_ind (fun r (m : gmap Z A) => forall k, is_Some (m !! k) -> k <= r)).
  - intros k [x Hx]. by rewrite lookup_empty in Hx.
  - intros i x m r _ IH k. rewrite lookup_insert_is_Some.
    intros [->|[_ Hk]]; [lia|]. specialize (IH k Hk). lia.
Qed.

(** The [id] given to a new row is not in use. *)
Lemma auto_increment_fresh {A} (t : gmap Z A) : t !! auto_increment t = None.
Proof.
  destruct (t !! auto_increment t) eqn:E; [|done].
  pose proof (max_key_bound t (auto_increment t) (mk_is_Some _ _ E)) as H.
  unfold auto_increment in H. lia.
Qed.


Lemma keeps_refl {A} (t : gmap Z A) : keeps t t.
Proof. by intros k r. Qed.

Lemma keeps_insert_row {A} (r : A) (t : gmap Z A) : keeps t (insert_row r t).
Proof.
  intros k r' Hk. unfold insert_row.
  rewrite lookup_insert_ne; [done|].
  intros <-. by rewrite auto_increment_fresh in Hk.
Qed.

Lemma insert_row_size {A} (r : A) (t : gmap Z A) :
  size (insert_row r t) = S (size t).
Proof. apply map_size_insert_None, auto_increment_fresh. Qed.


Lemma preserves_refl (db : store) : preserves db db.
Proof. repeat split; apply keeps_refl. Qed.

Lemma preserves_users db r : preserves db (with_users db (insert_row r (users db))).
Proof. repeat split; try apply keeps_refl. apply keeps_insert_row. Qed.

Lemma preserves_plans db r : preserves db (with_plans db (insert_row r (plans db))).
Proof. repeat split; try apply keeps_refl. apply keeps_insert_row. Qed.

Lemma preserves_services db r :
  preserves db (with_services db (insert_row r (services db))).
Proof. repeat split; try apply keeps_refl. apply keeps_insert_row. Qed.

Lemma preserves_announcements db r :
  preserves db (with_announcements db (insert_row r (announcements db))).
Proof. repeat split; try apply keeps_refl. apply keeps_insert_row. Qed.

Lemma preserves_work db r : preserves db (with_work db (insert_row r (work db))).
Proof. repeat split; try apply keeps_refl. apply keeps_insert_row. Qed.

Lemma preserves_subscriptions db r :
  preserves db (with_subscriptions db (insert_row r (subscriptions db))).
Proof. repeat split; try apply keeps_refl. apply keeps_insert_row. Qed.

Create HintDb store_db.
#[global] Hint Resolve preserves_refl preserves_users preserves_plans
  preserves_services preserves_announcements preserves_work
  preserves_subscriptions : store_db.

(** *** Values *)

(** Induction on a value, through the items of an array and the fields
    of an object. *)
Lemma jsval_nested_ind (P : jsval -> Prop) :
  P JUndefined -> P JNull -> (forall b, P (JBool b)) -> (forall x, P (JNum x)) ->
  (forall s, P (JStr s)) -> (forall ms, P (JDate ms)) ->
  (forall l, Forall P l -> P (JArr l)) ->
  (forall fs, Forall (fun kv => P kv.2) fs -> P (JObj fs)) ->
  forall v, P v.
Proof.
  intros H1 H2 H3 H4 H5 H6 H7 H8. fix IH 1.
  intros [| |b|x|s|ms|l|fs];
    [exact H1|exact H2|apply H3|apply H4|apply H5|apply H6| |].
  - apply H7. revert l. fix IHl 1. intros [|a l]; constructor; [apply IH|apply IHl].
  - apply H8. revert fs. fix IHfs 1.
    intros [|[k a] fs]; constructor; [apply IH|apply IHfs].
Qed.

Lemma number_eqb_refl (x : number) : number_eqb x x = true.
Proof.
  destruct x as [s|s| |s m e]; unfold number_eqb;
    rewrite ?Bool.eqb_reflx, ?Pos.eqb_refl, ?Z.eqb_refl; done.
Qed.

Lemma number_eqb_sym (x y : number) : number_eqb x y = number_eqb y x.
Proof.
  destruct x as [s|s| |s m e], y as [t|t| |t n f]; unfold number_eqb;
    try done; try by destruct s, t.
  rewrite (Pos.eqb_sym m n), (Z.eqb_sym e f). by destruct s, t.
Qed.

Lemma jsval_eqb_refl (a : jsval) : jsval_eqb a a = true.
Proof.
  induction a as [| |b|x|s|ms|l IH|fs IH] using jsval_nested_ind; simpl; try done.
  - by destruct b.
  - apply number_eqb_refl.
  - apply String.eqb_refl.
  - apply Z.eqb_refl.
  - induction IH as [|a l Ha _ IHl]; [done|]. by rewrite Ha, IHl.
  - induction IH as [|[k a] fs Ha _ IHfs]; [done|]. simpl in Ha.
    by rewrite String.eqb_refl, Ha, IHfs.
Qed.

Lemma jsval_eqb_sym (a b : jsval) : jsval_eqb a b = jsval_eqb b a.
Proof.
  revert b.
  induction a as [| |x|x|s|ms|l IH|fs IH] using jsval_nested_ind;
    intros [| |y|y|t|ms'|l'|fs']; simpl; try done.
  - by destruct x, y.
  - apply number_eqb_sym.
  - apply String.eqb_sym.
  - apply Z.eqb_sym.
  - revert l'. induction IH as [|a l Ha _ IHl]; intros [|b l']; try done.
    by rewrite Ha, IHl.
  - revert fs'. induction IH as [|[k a] fs Ha _ IHfs]; intros [|[k' b] fs'];
      try done.
    simpl in Ha. by rewrite (String.eqb_sym k k'), Ha, IHfs.
Qed.

(** What is bound twice compares equal, unless it is [NULL]. *)
Lemma sql_eq_refl (a : jsval) : object_coercible a = true -> sql_eq a a = true.
Proof.
  intros Ha. unfold sql_eq. destruct a as [| |b|x|s|ms|l|fs]; try done.
  - by destruct b.
  - destruct (key_of (JNum x)); [apply Z.eqb_refl|apply number_eqb_refl].
  - apply String.eqb_refl.
  - apply Z.eqb_refl.
  - apply (jsval_eqb_refl (JArr l)).
  - apply (jsval_eqb_refl (JObj fs)).
Qed.

Lemma sql_eq_sym (a b : jsval) : sql_eq a b = sql_eq b a.
Proof.
  unfold sql_eq.
  destruct a as [| |x|x|s|ms|l|fs], b as [| |y|y|t|ms'|l'|fs'];
    cbn [key_of]; try done; try apply String.eqb_sym;
    repeat case_match; simplify_eq; try done; try apply Z.eqb_sym.
  all: try match goal with
           | |- jsval_eqb ?u ?v = _ => apply (jsval_eqb_sym u v)
           end.
Qed.

(** The decimal spelling of an index does not start with a letter. *)
Lemma decimal_head (z : Z) :
  exists c rest, decimal z = String c rest /\ c <> "r"%char.
Proof.
  unfold decimal. destruct (Z.to_int z) as [d|d]; simpl.
  - unfold NilZero.string_of_uint.
    destruct d; simpl; do 2 eexists; (split; [reflexivity|discriminate]).
  - do 2 eexists. split; [reflexivity|discriminate].
Qed.

Lemma at_index_rates {A} (l : list A) (i : Z) : at_index "rates" i l = None.
Proof.
  revert i. induction l as [|a l IH]; intros i; [done|]. cbn [at_index].
  destruct (decimal_head i) as (c & rest & -> & Hc).
  change (String.eqb "rates" (String c rest))
    with (if Ascii.eqb "r" c then String.eqb "ates" rest else false).
  destruct (Ascii.eqb_spec "r" c) as [<-|_]; [done|]. apply IH.
Qed.

(** A text has no [rates]. *)
Lemma text_has_no_rates (body k : string) :
  opt_get (opt_get (JStr body) "rates") k = JUndefined.
Proof.
  unfold opt_get at 2. cbn [get_prop].
  change (String.eqb "rates" "length") with false. cbv iota.
  by rewrite at_index_rates.
Qed.

(** *** Requests *)


Lemma destructure_eq (v : jsval) (k : string) :
  destructure v k =
    if object_coercible v then Return (get_prop v k)
    else Throw (TypeError "Cannot destructure property of undefined or null").
Proof. by destruct v. Qed.

(** Unfolds the plumbing of a handler: [try]/[catch], sequencing, the
    driver. *)
Ltac js_unfold :=
  unfold try_catch, mbind, outcome_bind, mret, outcome_ret, pool_query in *.

(** Splits a handler into its paths. *)
Ltac js_paths :=
  js_unfold; rewrite ?destructure_eq; repeat case_match; simplify_eq; simpl.

(** *** Listings *)

Lemma insert_desc_perm {A} (key : A -> Z) (x : A) (l : list A) :
  insert_desc key x l ≡ₚ x :: l.
Proof.
  induction l as [|y l IH]; [done|]. simpl.
  destruct (key y <=? key x); [done|].
  rewrite IH. apply Permutation_swap.
Qed.

(** [ORDER BY] reorders the rows, it neither drops nor repeats any. *)
Lemma order_by_desc_perm {A} (key : A -> Z) (l : list A) :
  order_by_desc key l ≡ₚ l.
Proof.
  induction l as [|x l IH]; [done|]. simpl.
  by rewrite insert_desc_perm, IH.
Qed.

Lemma insert_desc_newest_first {A} (key : A -> Z) (x : A) (l : list A) :
  newest_first (map key l) -> newest_first (map key (insert_desc key x l)).
Proof.
  induction l as [|y l IH]; [by repeat constructor|]. simpl.
  intros [Hy Hl]. destruct (Z.leb_spec (key y) (key x)).
  - simpl. split; [|done]. constructor; [done|].
    eapply Forall_impl; [exact Hy|]. simpl. lia.
  - simpl. split; [|by apply IH].
    rewrite (insert_desc_perm key x l). simpl. constructor; [lia|done].
Qed.

Lemma order_by_desc_newest_first {A} (key : A -> Z) (l : list A) :
  newest_first (map key (order_by_desc key l)).
Proof.
  induction l as [|x l IH]; [done|]. simpl.
  by apply insert_desc_newest_first.
Qed.

Lemma filter_cons_of_existsb {A} (f : A -> bool) (l : list A) :
  existsb f l = true -> exists a rest, List.filter f l = a :: rest.
Proof.
  induction l as [|a l IH]; [done|]. simpl.
  destruct (f a); [by eauto|]. simpl. exact IH.
Qed.

Lemma order_by_desc_ext {A} (key key' : A -> Z) (l : list A) :
  (forall x, key x = key' x) -> order_by_desc key l = order_by_desc key' l.
Proof.
  intros H. induction l as [|x l IH]; [done|]. simpl. rewrite IH.
  generalize (order_by_desc key' l). intros l'.
  induction l' as [|y l' IHl']; [done|]. simpl. by rewrite !H, IHl'.
Qed.

Lemma newest_rows_perm {A} (rt : runtime) (sql : string) (created_at : A -> Z)
    (rows : list (Z * A)) :
  newest_rows rt sql created_at rows ≡ₚ rows.
Proof. unfold newest_rows. by rewrite !order_by_desc_perm. Qed.

Lemma newest_rows_newest_first {A} (rt : runtime) (sql : string)
    (created_at : A -> Z) (rows : list (Z * A)) :
  newest_first (map (fun kr => created_at kr.2)
                  (newest_rows rt sql created_at rows)).
Proof. apply (order_by_desc_newest_first (fun kr => created_at kr.2)). Qed.

(** Two statements for which the server ranks the rows alike order them
    alike. *)
Lemma newest_rows_same_ranks {A} (rt : runtime) (sql sql' : string)
    (created_at : A -> Z) (rows : list (Z * A)) :
  (forall id, tie_rank rt sql id = tie_rank rt sql' id) ->
  newest_rows rt sql created_at rows = newest_rows rt sql' created_at rows.
Proof.
  intros H. unfold newest_rows. f_equal.
  apply order_by_desc_ext. intros kr. by rewrite H.
Qed.

(** Rows with pairwise different time stamps can be ordered from the
    newest to the oldest in one way only. *)
Lemma newest_first_unique {A} (key : A -> Z) (l1 l2 : list A) :
  l1 ≡ₚ l2 ->
  NoDup (map key l1) ->
  newest_first (map key l1) -> newest_first (map key l2) ->
  l1 = l2.
Proof.
  revert l2. induction l1 as [|a l1 IH]; intros l2 Hp Hnd H1 H2.
  - by apply Permutation_nil_l in Hp.
  - destruct l2 as [|b l2]; [by apply Permutation_nil_r in Hp|].
    simpl in *. destruct H1 as [Ha H1], H2 as [Hb H2].
    apply NoDup_cons in Hnd as [Hna Hnd].
    assert (Eab : a = b).
    { assert (Hin_b : b ∈ a :: l1) by (rewrite Hp; left).
      assert (Hin_a : a ∈ b :: l2) by (rewrite <- Hp; left).
      apply elem_of_cons in Hin_b as [->|Hin_b]; [done|].
      apply elem_of_cons in Hin_a as [->|Hin_a]; [done|].
      assert (Hmap : forall x (l : list A), x ∈ l -> key x ∈ map key l).
      { intros x l Hx. by apply list_elem_of_In, in_map, list_elem_of_In. }
      assert (key b <= key a).
      { rewrite Forall_forall in Ha. by apply Ha, Hmap. }
      assert (key a <= key b).
      { rewrite Forall_forall in Hb. by apply Hb, Hmap. }
      exfalso. apply Hna. replace (key a) with (key b) by lia.
      by apply Hmap. }
    subst b. f_equal. apply IH; try done.
    by apply Permutation_cons_inv in Hp.
Qed.

(** *** The plan listing *)

Lemma getRate_falsy (rt : runtime) (v : jsval) :
  truthy v = false -> getRate rt v = Return (JNum one).
Proof. intros H. unfold getRate, falsy. by rewrite H. Qed.

Lemma getRate_base (rt : runtime) (s : string) :
  toUpperCase rt s = BASE_CURRENCY -> getRate rt (JStr s) = Return (JNum one).
Proof.
  intros H. unfold getRate. destruct (falsy (JStr s)); [done|].
  by rewrite H.
Qed.

Lemma getRate_service_failure (rt : runtime) (s : string) (e : js_error) :
  axios_get rt (latest_url s) = Throw e -> getRate rt (JStr s) = Return (JNum one).
Proof.
  intros H. unfold getRate. destruct (falsy (JStr s)); [done|].
  destruct (String.eqb _ _); [done|]. js_unfold. by rewrite H.
Qed.

(** On a string, [getRate] returns: no path throws. *)
Lemma getRate_text_returns (rt : runtime) (s : string) :
  exists rate, getRate rt (JStr s) = Return rate.
Proof.
  unfold getRate. destruct (falsy (JStr s)); [by eexists|].
  destruct (String.eqb _ _); by eexists.
Qed.

Lemma listing_currency_eq (rt : runtime) (v : jsval) :
  text_or_absent v = true ->
  call_toUpperCase rt (js_or v (JStr BASE_CURRENCY)) = Return (listing_currency rt v).
Proof.
  unfold js_or. destruct v as [| |b|x|s|ms|l|fs]; simpl; try done.
  - by destruct b.
  - intros H. apply negb_true_iff in H. by rewrite H.
  - by destruct s.
Qed.

Lemma getRate_unparsed (rt : runtime) (s body : string) :
  axios_get rt (latest_url s) = Return (JStr body) ->
  getRate rt (JStr s) = Return (JNum one).
Proof.
  intros H. unfold getRate. destruct (falsy (JStr s)); [done|].
  destruct (String.eqb _ _); [done|]. js_unfold. rewrite H.
  by rewrite text_has_no_rates.
Qed.

Lemma plan_view_object (rt : runtime) (db : store) (currency : string)
    (rate : jsval) (usd x : number) (kr : Z * Plans.row) :
  ToNumber rt (Plans.price_usd kr.2) = Return usd ->
  ToNumber rt rate = Return x ->
  plan_view rt currency rate (plan_object db kr) =
    Return (listed_plan db currency usd (round2 (mul usd x)) kr).
Proof.
  intros Hu Hx. unfold plan_view, js_mul.
  change (get_prop (plan_object db kr) "price_usd") with (Plans.price_usd kr.2).
  js_unfold. rewrite Hu. simpl. by rewrite Hx.
Qed.

Lemma plan_view_throws (rt : runtime) (db : store) (currency : string)
    (rate : jsval) (usd : number) (e : js_error) (kr : Z * Plans.row) :
  ToNumber rt (Plans.price_usd kr.2) = Return usd ->
  ToNumber rt rate = Throw e ->
  plan_view rt currency rate (plan_object db kr) = Throw e.
Proof.
  intros Hu Hx. unfold plan_view, js_mul.
  change (get_prop (plan_object db kr) "price_usd") with (Plans.price_usd kr.2).
  js_unfold. rewrite Hu. simpl. by rewrite Hx.
Qed.

(** [map] with a callback that returns on every element. *)
Lemma mapM_Return {A B} (f : A -> outcome B) (g : A -> B) (l : list A) :
  Forall (fun a => f a = Return (g a)) l -> mapM f l = Return (map g l).
Proof.
  induction 1 as [|a l Ha _ IH]; [done|]. simpl. js_unfold. by rewrite Ha, IH.
Qed.

Lemma elem_of_listed_plans (rt : runtime) (db : store) (kr : Z * Plans.row) :
  kr ∈ listed_plans rt db <-> kr ∈ active_plans db.
Proof. unfold listed_plans. by rewrite newest_rows_perm. Qed.

Lemma prices_convert_listed (rt : runtime) (db : store)
    (price_usd : Plans.row -> number) :
  prices_convert rt db price_usd ->
  Forall (fun kr => ToNumber rt (Plans.price_usd kr.2) = Return (price_usd kr.2))
    (listed_plans rt db).
Proof.
  unfold prices_convert. rewrite !Forall_forall.
  intros H kr Hkr. apply H. by apply (elem_of_listed_plans rt db kr).
Qed.

Lemma mapM_map_Return {A B C} (h : A -> B) (f : B -> outcome C) (g : A -> C)
    (l : list A) :
  Forall (fun a => f (h a) = Return (g a)) l ->
  mapM f (map h l) = Return (map g l).
Proof.
  induction 1 as [|a l Ha _ IH]; [done|]. simpl. js_unfold. by rewrite Ha, IH.
Qed.

(** The listing, once its currency is known to be text and the store
    answers: it is decided by what [getRate] returns, when that and the
    stored prices convert to numbers. *)
Lemma get_api_plans_eq (rt : runtime) (db : store) (query rate : jsval)
    (x : number) (price_usd : Plans.row -> number) :
  pool_fault rt = None ->
  text_or_absent (get_prop query "currency") = true ->
  getRate rt (JStr (listing_currency rt (get_prop query "currency"))) = Return rate ->
  ToNumber rt rate = Return x ->
  prices_convert rt db price_usd ->
  get_api_plans rt db query =
    Json 200 (plans_body rt db (listing_currency rt (get_prop query "currency")) rate
                price_usd (fun r => round2 (mul (price_usd r) x))).
Proof.
  intros Hf Ht Hr Hx Hp. unfold get_api_plans, select_active_plans.
  rewrite (listing_currency_eq _ _ Ht). js_unfold. rewrite Hf, Hr.
  rewrite (mapM_map_Return (plan_object db) _
    (fun kr => listed_plan db (listing_currency rt (get_prop query "currency"))
                 (price_usd kr.2) (round2 (mul (price_usd kr.2) x)) kr)); [done|].
  eapply Forall_impl; [apply (prices_convert_listed _ _ _ Hp)|].
  intros kr Hkr. by apply plan_view_object.
Qed.

(** A rate that does not convert to a number fails the listing as soon
    as there is a plan to price. *)
Lemma get_api_plans_rate_throws (rt : runtime) (db : store) (query rate : jsval)
    (e : js_error) (price_usd : Plans.row -> number) :
  pool_fault rt = None ->
  text_or_absent (get_prop query "currency") = true ->
  getRate rt (JStr (listing_currency rt (get_prop query "currency"))) = Return rate ->
  ToNumber rt rate = Throw e ->
  prices_convert rt db price_usd ->
  active_plans db <> [] ->
  get_api_plans rt db query = Json 500 (message_body "Error fetching plans").
Proof.
  intros Hf Ht Hr Hx Hp Hne. unfold get_api_plans, select_active_plans.
  rewrite (listing_currency_eq _ _ Ht). js_unfold. rewrite Hf, Hr.
  pose proof (prices_convert_listed _ _ _ Hp) as Hl.
  destruct (listed_plans rt db) as [|kr l] eqn:El.
  - exfalso. apply Hne. apply Permutation_nil_r.
    rewrite <- El. unfold listed_plans. by rewrite newest_rows_perm.
  - apply Forall_cons in Hl as [Hkr _]. simpl. js_unfold.
    by rewrite (plan_view_throws _ _ _ _ _ _ _ Hkr Hx).
Qed.

(** A truthy [currency] that is not a string makes the listing fail,
    whatever the runtime and the store: only strings have
    [toUpperCase]. *)
Lemma get_api_plans_non_text (rt : runtime) (db : store) (query : jsval) :
  text_or_absent (get_prop query "currency") = false ->
  get_api_plans rt db query = Json 500 (message_body "Error fetching plans").
Proof.
  intros H. unfold get_api_plans, js_or.
  destruct (get_prop query "currency") as [| |b|x|s|ms|l|fs]; simpl in *;
    try done.
  - apply negb_false_iff in H. by rewrite H.
  - apply negb_false_iff in H. by rewrite H.
Qed.

Lemma base_listing_currency (rt : runtime) (v : jsval) :
  toUpperCase rt BASE_CURRENCY = BASE_CURRENCY ->
  requests_base rt v ->
  text_or_absent v = true /\ listing_currency rt v = BASE_CURRENCY.
Proof.
  intros Hup [Hv|(s & -> & Hs)].
  - destruct v as [| |b|x|s|ms|l|fs]; simpl in *; try done.
    + by rewrite Hv.
    + by rewrite Hv.
    + destruct s; [done|discriminate].
  - by destruct s.
Qed.

(** *** Users *)

Lemma filter_nil_of_existsb {A} (f : A -> bool) (l : list A) :
  existsb f l = false -> List.filter f l = [].
Proof.
  induction l as [|a l IH]; [done|]. simpl.
  intros [Ha Hl]%orb_false_elim. rewrite Ha. auto.
Qed.

Lemma filter_head {A} (f : A -> bool) (l : list A) (a : A) (rest : list A) :
  List.filter f l = a :: rest -> In a l /\ f a = true.
Proof.
  intros H. apply filter_In. rewrite H. by left.
Qed.

(** *** File names *)

Lemma take_skip_space (s : string) : s = take_space s ++ skip_space s.
Proof.
  induction s as [|c s IH]; [done|]. simpl.
  destruct (is_space c); [|done].
  change (String c s = String c (take_space s ++ skip_space s)). by f_equal.
Qed.

Lemma take_space_all_space (s : string) : all_space (take_space s) = true.
Proof.
  induction s as [|c s IH]; [done|]. simpl.
  destruct (is_space c) eqn:E; [|done]. simpl. by rewrite E.
Qed.

Lemma skip_space_starts_with_text (s : string) : starts_with_text (skip_space s).
Proof.
  induction s as [|c s IH]; [done|]. simpl.
  by destruct (is_space c) eqn:E.
Qed.

Lemma skip_space_length (s : string) :
  (String.length (skip_space s) <= String.length s)%nat.
Proof.
  induction s as [|c s IH]; [done|]. simpl.
  destruct (is_space c); simpl; lia.
Qed.

(** Inside a run, the rest of the run is dropped. *)
Lemma replace_runs_in_run (s : string) :
  replace_runs true s = replace_runs false (skip_space s).
Proof.
  induction s as [|c s IH]; [done|]. simpl.
  destruct (is_space c) eqn:E; [done|]. simpl. by rewrite E.
Qed.

Lemma replace_runs_underscored (n : nat) (s : string) :
  (String.length s <= n)%nat -> underscored s (replace_runs false s).
Proof.
  revert s. induction n as [|n IH]; intros s Hn.
  - destruct s; [constructor|simpl in Hn; lia].
  - destruct s as [|c s]; [constructor|]. simpl in Hn. simpl.
    destruct (is_space c) eqn:E.
    + rewrite replace_runs_in_run.
      rewrite (take_skip_space s) at 1.
      change (String c (take_space s ++ skip_space s))
        with (String c (take_space s) ++ skip_space s).
      apply underscored_run.
      * discriminate.
      * simpl. by rewrite E, take_space_all_space.
      * apply skip_space_starts_with_text.
      * apply IH. pose proof (skip_space_length s). lia.
    + apply underscored_text; [done|]. apply IH. lia.
Qed.

(** [replace(/\s+/g, '_')] replaces every run of white space by one
    underscore. *)
Lemma replace_whitespace_underscored (s : string) :
  underscored s (replace_whitespace s).
Proof. by apply (replace_runs_underscored (String.length s)). Qed.

Lemma string_length_app (s t : string) :
  String.length (s ++ t) = (String.length s + String.length t)%nat.
Proof. induction s as [|c s IH]; [done|]. simpl. by rewrite IH. Qed.

(** A name is not the path of a file of that name in a directory. *)
Lemma name_is_not_path (dir name : string) : name <> dir ++ "/" ++ name.
Proof.
  intros H. apply (f_equal String.length) in H.
  rewrite !string_length_app in H. simpl in H. lia.
Qed.


(* ===================================================================== *)
(** ** The properties the specification states *)
(* ===================================================================== *)

(** *** C8 *)

(** C8.  No request changes or removes a row: whatever the route, the
    runtime and the store, every row of [users], [plans], [services],
    [announcements], [work] and [subscriptions] that is in the store before
    the request is in the store after it, under the same [id] and with the
    same columns. *)
Theorem no_request_changes_or_removes_a_row
    (rt : runtime) (db : store) (req : request) :
  preserves db (app rt db req).2.
Proof.
  destruct req; simpl; auto with store_db.
  - unfold post_register, insert_user. js_paths; auto with store_db.
  - unfold post_api_plans, insert_plan. js_paths; auto with store_db.
  - unfold post_subscribe, insert_subscription. js_paths; auto with store_db.
  - unfold post_api_services, insert_service. js_paths; auto with store_db.
  - unfold post_api_announcements, insert_announcement. js_paths; auto with store_db.
  - unfold post_api_work, insert_work. js_paths; auto with store_db.
Qed.

(** *** C1 *)

Lemma subscribe_validation (rt : runtime) (db : store) (body : jsval) :
  object_coercible body = true ->
  truthy (get_prop body "userId") = false \/
  (truthy (get_prop body "serviceId") = false /\
   truthy (get_prop body "planId") = false) ->
  post_subscribe rt db body =
    (Json 400 (message_body "userId and serviceId or planId required"), db).
Proof.
  intros Hb H. unfold post_subscribe. rewrite !destructure_eq, Hb. js_unfold.
  unfold falsy.
  destruct H as [->|[-> ->]]; [done|].
  by rewrite orb_true_r.
Qed.

(** C1.  For a subscribe request whose [userId], [serviceId] and [planId]
    are all truthy, handled while the store answers, exactly one row is
    added to [subscriptions]; it holds [userId] and [serviceId], and its
    [plan_id] is NULL.  And the response is the 400 validation response
    exactly when [userId] is falsy or both [serviceId] and [planId] are. *)
Theorem subscribe_service_takes_precedence
    (rt : runtime) (db : store) (body : jsval) :
  object_coercible body = true ->
  let userId := get_prop body "userId" in
  let serviceId := get_prop body "serviceId" in
  let planId := get_prop body "planId" in
  (pool_fault rt = None /\ truthy userId = true /\
   truthy serviceId = true /\ truthy planId = true ->
   let k := auto_increment (subscriptions db) in
   let r := {| Subscriptions.user_id := userId;
               Subscriptions.service_id := serviceId;
               Subscriptions.plan_id := JNull |} in
   subscriptions db !! k = None /\
   post_subscribe rt db body =
     (Json 200 (success_body "Subscribed to service"),
      with_subscriptions db (<[k := r]> (subscriptions db))) /\
   size (subscriptions (post_subscribe rt db body).2)
     = S (size (subscriptions db)))
  /\
  ((post_subscribe rt db body).1
     = Json 400 (message_body "userId and serviceId or planId required")
   <-> truthy userId = false \/
       (truthy serviceId = false /\ truthy planId = false)).
Proof.
  intros Hb userId serviceId planId. split.
  - intros (Hf & Hu & Hs & Hp) k r.
    assert (E : post_subscribe rt db body =
      (Json 200 (success_body "Subscribed to service"),
       with_subscriptions db (<[k := r]> (subscriptions db)))).
    { unfold post_subscribe, insert_subscription.
      rewrite !destructure_eq, Hb. js_unfold. unfold falsy.
      fold userId serviceId planId. by rewrite Hf, Hu, Hs. }
    split; [apply auto_increment_fresh|]. split; [exact E|].
    rewrite E. simpl. apply map_size_insert_None, auto_increment_fresh.
  - split.
    + intros H.
      destruct (truthy userId) eqn:Hu; [|by left].
      destruct (truthy serviceId) eqn:Hs.
      * exfalso. revert H. unfold post_subscribe, insert_subscription.
        rewrite !destructure_eq, Hb. js_unfold. unfold falsy.
        fold userId serviceId planId. rewrite Hu, Hs. simpl.
        by destruct (pool_fault rt).
      * destruct (truthy planId) eqn:Hp; [|by right].
        exfalso. revert H. unfold post_subscribe, insert_subscription.
        rewrite !destructure_eq, Hb. js_unfold. unfold falsy.
        fold userId serviceId planId. rewrite Hu, Hs, Hp. simpl.
        by destruct (pool_fault rt).
    + intros H. by rewrite subscribe_validation.
Qed.

(** The scenario of the specification: [{userId: 5, serviceId: 2,
    planId: 9}] on an empty [subscriptions] table. *)
Lemma subscribe_service_takes_precedence_witness :
  post_subscribe Scenario.offline Scenario.seeded Scenario.subscribe_both =
    (Json 200 (success_body "Subscribed to service"),
     with_subscriptions Scenario.seeded
       {[ 1 := {| Subscriptions.user_id := Scenario.num 5;
                  Subscriptions.service_id := Scenario.num 2;
                  Subscriptions.plan_id := JNull |} ]}).
Proof.
  pose proof (subscribe_service_takes_precedence
                Scenario.offline Scenario.seeded Scenario.subscribe_both
                eq_refl) as [H _].
  destruct H as (_ & E & _).
  - repeat split; reflexivity.
  - exact E.
Defined.

(** *** C9 *)

(** C9.  A create-plan request whose [price] or [duration] is the number
    0 gets the 400 validation response, whatever its other fields, and no
    row is added to [plans]: the store is left as it was. *)
Theorem create_plan_treats_zero_as_missing
    (rt : runtime) (db : store) (body : jsval) :
  object_coercible body = true ->
  is_zero (get_prop body "price") \/ is_zero (get_prop body "duration") ->
  post_api_plans rt db body =
    (Json 400 (message_body "adminId, name, price and duration are required"), db).
Proof.
  intros Hb H. unfold post_api_plans. rewrite !destructure_eq, Hb. js_unfold.
  unfold falsy.
  destruct H as [[s ->]|[s ->]]; simpl; by rewrite ?orb_true_r.
Qed.

Lemma create_plan_treats_zero_as_missing_witness :
  post_api_plans Scenario.offline Scenario.seeded Scenario.free_plan =
    (Json 400 (message_body "adminId, name, price and duration are required"),
     Scenario.seeded).
Proof.
  apply (create_plan_treats_zero_as_missing
           Scenario.offline Scenario.seeded Scenario.free_plan).
  - reflexivity.
  - left. exists false. reflexivity.
Defined.

(** *** C10 *)

(** C10.  For a target currency other than the base currency, when the
    rate service answers and its answer has no entry for the upper-cased
    currency under [rates], or has the number 0 there, [getRate] returns
    1. *)
Theorem getRate_defaults_missing_or_zero_rate
    (rt : runtime) (s : string) (data : jsval) :
  s <> EmptyString ->
  toUpperCase rt s <> BASE_CURRENCY ->
  axios_get rt (latest_url s) = Return data ->
  opt_get (opt_get data "rates") (toUpperCase rt s) = JUndefined \/
  is_zero (opt_get (opt_get data "rates") (toUpperCase rt s)) ->
  getRate rt (JStr s) = Return (JNum one).
Proof.
  intros Hs Hu Hget Hentry. unfold getRate, falsy. simpl.
  apply String.eqb_neq in Hs, Hu. rewrite Hs, Hu. simpl.
  js_unfold. rewrite Hget.
  by destruct Hentry as [->|[sg ->]].
Qed.

(** The service answers [{rates: {EUR: 0}}], then [{success: false}]. *)
Lemma getRate_defaults_missing_or_zero_rate_witness :
  getRate (Scenario.online (JObj [("rates", JObj [("EUR", Scenario.num 0)])]))
    (JStr "eur") = Return (JNum one) /\
  getRate (Scenario.online (JObj [("success", JBool false)]))
    (JStr "eur") = Return (JNum one).
Proof.
  split.
  - apply (getRate_defaults_missing_or_zero_rate
             (Scenario.online (JObj [("rates", JObj [("EUR", Scenario.num 0)])]))
             "eur" (JObj [("rates", JObj [("EUR", Scenario.num 0)])])).
    + discriminate.
    + discriminate.
    + reflexivity.
    + right. exists false. reflexivity.
  - apply (getRate_defaults_missing_or_zero_rate
             (Scenario.online (JObj [("success", JBool false)]))
             "eur" (JObj [("success", JBool false)])).
    + discriminate.
    + discriminate.
    + reflexivity.
    + left. reflexivity.
Defined.

(** *** C2 *)

(** C2.  [getRate] returns 1 when its argument is falsy or upper-cases to
    the base currency.  It returns 1 when the request to the rate service
    throws (the network fails, the service answers with an error status)
    and when the answer comes back as the text that could not be parsed;
    on a string it returns in every case, so that nothing is thrown at its
    caller.  So a plan listing handled while the rate service cannot be
    reached succeeds with rate 1: for a [currency] parameter that is absent
    or a string, while the store answers and holds prices that convert to
    numbers. *)
Theorem getRate_fails_open (rt : runtime) :
  (forall v, truthy v = false -> getRate rt v = Return (JNum one)) /\
  (forall s, toUpperCase rt s = BASE_CURRENCY ->
     getRate rt (JStr s) = Return (JNum one)) /\
  (forall s e, axios_get rt (latest_url s) = Throw e ->
     getRate rt (JStr s) = Return (JNum one)) /\
  (forall s body, axios_get rt (latest_url s) = Return (JStr body) ->
     getRate rt (JStr s) = Return (JNum one)) /\
  (forall s, exists rate, getRate rt (JStr s) = Return rate) /\
  (forall db query price_usd,
     pool_fault rt = None ->
     unreachable rt ->
     text_or_absent (get_prop query "currency") = true ->
     prices_convert rt db price_usd ->
     get_api_plans rt db query =
       Json 200 (plans_body rt db
                   (listing_currency rt (get_prop query "currency")) (JNum one)
                   price_usd (fun r => round2 (mul (price_usd r) one)))).
Proof.
  split; [apply getRate_falsy|]. split; [apply getRate_base|].
  split; [apply getRate_service_failure|].
  split; [apply getRate_unparsed|].
  split; [apply getRate_text_returns|].
  intros db query price_usd Hf Hdown Ht Hp.
  apply (get_api_plans_eq rt db query (JNum one) one price_usd Hf Ht); [|done|done].
  destruct (Hdown (latest_url (listing_currency rt (get_prop query "currency"))))
    as [e He].
  by apply getRate_service_failure with e.
Qed.

(** A listing in euros while the rate service is down. *)
Lemma getRate_fails_open_witness :
  get_api_plans Scenario.offline Scenario.seeded (JObj [("currency", JStr "eur")])
  = Json 200 (plans_body Scenario.offline Scenario.seeded "EUR" (JNum one)
                (fun _ => of_Z 100) (fun _ => round2 (mul (of_Z 100) one))).
Proof.
  destruct (getRate_fails_open Scenario.offline) as (_ & _ & _ & _ & _ & H).
  apply (H Scenario.seeded (JObj [("currency", JStr "eur")]) (fun _ => of_Z 100)).
  - reflexivity.
  - intros url. by eexists.
  - reflexivity.
  - vm_compute. repeat constructor.
Defined.

(** *** C3 *)

(** C3.  A plan listing whose [currency] parameter is absent or a string,
    handled while the store answers, with stored prices and a rate that
    convert to numbers, succeeds; it reports the rate [getRate] returned,
    and the [price_local] of each plan is the product of its [price_usd]
    and that rate, rounded to two decimals: a nearest count of hundredths
    of the product, as a number.  When the parameter asks for the base
    currency or for none, the rate is 1 and [price_local] is [price_usd]
    rounded to two decimals. *)
Theorem plan_listing_prices (rt : runtime) (db : store) (query rate : jsval)
    (x : number) (price_usd : Plans.row -> number) :
  pool_fault rt = None ->
  text_or_absent (get_prop query "currency") = true ->
  getRate rt (JStr (listing_currency rt (get_prop query "currency"))) = Return rate ->
  ToNumber rt rate = Return x ->
  prices_convert rt db price_usd ->
  exists price_local,
    get_api_plans rt db query =
      Json 200 (plans_body rt db (listing_currency rt (get_prop query "currency"))
                  rate price_usd price_local) /\
    (forall r, rounded_to_two_decimals (mul (price_usd r) x) (price_local r)) /\
    (toUpperCase rt BASE_CURRENCY = BASE_CURRENCY ->
     requests_base rt (get_prop query "currency") ->
     listing_currency rt (get_prop query "currency") = BASE_CURRENCY /\
     rate = JNum one /\
     forall r, valid (price_usd r) = true ->
               rounded_to_two_decimals (price_usd r) (price_local r)).
Proof.
  intros Hf Ht Hr Hx Hp.
  exists (fun r => round2 (mul (price_usd r) x)).
  split; [by apply get_api_plans_eq|].
  split; [intros r; apply round2_spec|].
  intros Hup Hbase.
  destruct (base_listing_currency rt _ Hup Hbase) as [_ Hc].
  split; [done|].
  rewrite Hc, (getRate_base rt BASE_CURRENCY Hup) in Hr.
  injection Hr as <-. split; [done|]. injection Hx as <-.
  intros r Hv. rewrite <- (mul_one_r _ Hv) at 1. apply round2_spec.
Qed.

(** The Gold plan, price 100, listed with no [currency] parameter:
    rate 1 and a local price of 100. *)
Lemma plan_listing_prices_witness :
  exists price_local,
    get_api_plans Scenario.offline Scenario.seeded (JObj []) =
      Json 200 (plans_body Scenario.offline Scenario.seeded "USD" (JNum one)
                  (fun _ => of_Z 100) price_local) /\
    rounded_to_two_decimals (of_Z 100) (price_local Scenario.gold_row).
Proof.
  destruct (plan_listing_prices Scenario.offline Scenario.seeded (JObj [])
              (JNum one) one (fun _ => of_Z 100) eq_refl eq_refl eq_refl eq_refl)
    as (price_local & H1 & _ & H3).
  - vm_compute. repeat constructor.
  - exists price_local. split; [exact H1|].
    destruct (H3 eq_refl) as (_ & _ & H4); [by left|].
    by apply H4.
Defined.

(** What [toFixed(2)] makes of some products: 1.005 is stored as a little
    less and gives 1, 8.345 as a little more and gives 8.35, and 92 times
    0.07 gives 6.44. *)
Example prices_rounded :
  round2 (SFdiv prec emax (of_Z 1005) (of_Z 1000)) = of_Z 1 /\
  round2 (SFdiv prec emax (of_Z 8345) (of_Z 1000))
    = SFdiv prec emax (of_Z 835) (of_Z 100) /\
  round2 (mul (of_Z 92) (SFdiv prec emax (of_Z 7) (of_Z 100)))
    = SFdiv prec emax (of_Z 644) (of_Z 100).
Proof. by vm_compute. Qed.

(** *** C4 *)

(** C4, counterexample.  All four fields are present, the password is
    the JSON number 12345, the store answers.  With an email that is not
    in [users] no row is added and the response is 500, not 201; with an
    email that is in [users] the response is 500, not the duplicate-email
    response. *)
Lemma register_fails_on_numeric_password :
  truthy (get_prop (Scenario.register_numeric "Bob" "bob@legit.city" "user")
            "password") = true /\
  email_taken Scenario.seeded (JStr "bob@legit.city") = false /\
  email_taken Scenario.seeded (JStr "ann@legit.city") = true /\
  post_register Scenario.offline Scenario.seeded
    (Scenario.register_numeric "Bob" "bob@legit.city" "user")
    = (Json 500 (message_body "Error registering user"), Scenario.seeded) /\
  post_register Scenario.offline Scenario.seeded
    (Scenario.register_numeric "Eve" "ann@legit.city" "user")
    = (Json 500 (message_body "Error registering user"), Scenario.seeded).
Proof. repeat split; reflexivity. Qed.

(** So it is for every request whose fields are all present and whose
    password is not a string. *)
Lemma register_non_string_password (rt : runtime) (db : store) (body : jsval) :
  object_coercible body = true ->
  truthy (get_prop body "name") = true ->
  truthy (get_prop body "email") = true ->
  truthy (get_prop body "password") = true ->
  truthy (get_prop body "accountType") = true ->
  (forall pw, get_prop body "password" <> JStr pw) ->
  post_register rt db body = (Json 500 (message_body "Error registering user"), db).
Proof.
  intros Hb Hn He Hp Ha Hpw. unfold post_register.
  rewrite !destructure_eq, Hb. js_unfold. unfold falsy.
  rewrite Hn, He, Hp, Ha. simpl.
  destruct (get_prop body "password"); try done. by destruct (Hpw s).
Qed.

(** C4, amended.  A registration request lacking a truthy [name],
    [email], [password] or [accountType] gets the 400 validation response
    and the store is left as it was.  When all four are present and the
    password is a string, and the store answers: if the email is already
    in [users], the response is the 400 duplicate-email response, whatever
    the other fields, and the store is left as it was; if not, exactly one
    row is added to [users], holding the bcrypt hash in place of the
    password, and the response is 201 with the success body and nothing
    else. *)
Theorem register_outcomes (rt : runtime) (db : store) (body : jsval) :
  object_coercible body = true ->
  let name := get_prop body "name" in
  let email := get_prop body "email" in
  let password := get_prop body "password" in
  let accountType := get_prop body "accountType" in
  (truthy name = false \/ truthy email = false \/
   truthy password = false \/ truthy accountType = false ->
   post_register rt db body =
     (Json 400 (message_body "All fields are required"), db))
  /\
  (truthy name = true /\ truthy email = true /\
   truthy password = true /\ truthy accountType = true ->
   forall pw,
     password = JStr pw ->
     pool_fault rt = None ->
     (email_taken db email = true ->
      post_register rt db body =
        (Json 400 (message_body "Email already registered"), db))
     /\
     (email_taken db email = false ->
      let k := auto_increment (users db) in
      let r := {| Users.name := name; Users.email := email;
                  Users.password := JStr (bcrypt_hash_string rt pw 10);
                  Users.account_type := accountType;
                  Users.verified := JNum zero;
                  Users.subscription_expires_at := JNull |} in
      users db !! k = None /\
      post_register rt db body =
        (Json 201 (success_body "Registration successful"),
         with_users db (<[k := r]> (users db))) /\
      size (users (post_register rt db body).2) = S (size (users db)))).
Proof.
  intros Hb name email password accountType. split.
  - intros H. unfold post_register. rewrite !destructure_eq, Hb. js_unfold.
    unfold falsy. fold name email password accountType.
    destruct H as [-> | [-> | [-> | ->]]]; simpl; by rewrite ?orb_true_r.
  - intros (Hn & He & Hp & Ha) pw Hpw Hf.
    assert (E : post_register rt db body =
      try_catch
        (db' ← insert_user rt db name email
                 (JStr (bcrypt_hash_string rt pw 10)) accountType;
         Return (Json 201 (success_body "Registration successful"), db'))
        (fun err =>
           if code_is err "ER_DUP_ENTRY"
           then (Json 400 (message_body "Email already registered"), db)
           else (Json 500 (message_body "Error registering user"), db))).
    { unfold post_register. rewrite !destructure_eq, Hb. js_unfold.
      unfold falsy. fold name email password accountType.
      rewrite Hn, He, Hp, Ha. simpl. by rewrite Hpw. }
    rewrite E. unfold insert_user. js_unfold. rewrite Hf. split.
    + by intros ->.
    + intros ->. split; [apply auto_increment_fresh|]. split; [done|].
      simpl. apply insert_row_size.
Qed.

(** Ann is registered; Bob registers with a new email, then Eve with
    Ann's. *)
Lemma register_outcomes_witness :
  (post_register Scenario.offline Scenario.seeded
     (Scenario.register_body "Bob" "bob@legit.city" "pa55word!" "user")).1
  = Json 201 (success_body "Registration successful") /\
  post_register Scenario.offline Scenario.seeded
    (Scenario.register_body "Eve" "ann@legit.city" "letmein" "admin")
  = (Json 400 (message_body "Email already registered"), Scenario.seeded).
Proof.
  split.
  - destruct (register_outcomes Scenario.offline Scenario.seeded
      (Scenario.register_body "Bob" "bob@legit.city" "pa55word!" "user") eq_refl)
      as [_ H].
    destruct (H ltac:(repeat split; reflexivity) _ eq_refl eq_refl) as [_ H'].
    destruct (H' eq_refl) as (_ & E & _). by rewrite E.
  - destruct (register_outcomes Scenario.offline Scenario.seeded
      (Scenario.register_body "Eve" "ann@legit.city" "letmein" "admin") eq_refl)
      as [_ H].
    destruct (H ltac:(repeat split; reflexivity) _ eq_refl eq_refl) as [H' _].
    exact (H' eq_refl).
Defined.

(** *** C5 *)

(** C5, counterexample.  Two login attempts with both fields present and
    the JSON number 12345 as password: the one whose email is not in
    [users] gets 401, the one whose email is Ann's gets 500.  The two
    responses tell whether the email is registered. *)
Lemma login_numeric_password_tells_emails_apart :
  email_taken Scenario.seeded (JStr "nobody@legit.city") = false /\
  email_taken Scenario.seeded (JStr "ann@legit.city") = true /\
  post_login Scenario.offline Scenario.seeded
    (Scenario.login_numeric "nobody@legit.city") = invalid_credentials /\
  post_login Scenario.offline Scenario.seeded
    (Scenario.login_numeric "ann@legit.city")
    = Json 500 (message_body "Error logging in") /\
  post_login Scenario.offline Scenario.seeded
    (Scenario.login_numeric "nobody@legit.city")
  <> post_login Scenario.offline Scenario.seeded
       (Scenario.login_numeric "ann@legit.city").
Proof. repeat split; try reflexivity. discriminate. Qed.

(** So it is for every attempt on a registered email with a password
    that is not a string, while the store answers. *)
Lemma login_non_string_password (rt : runtime) (db : store) (body : jsval) :
  object_coercible body = true ->
  pool_fault rt = None ->
  truthy (get_prop body "email") = true ->
  truthy (get_prop body "password") = true ->
  (forall pw, get_prop body "password" <> JStr pw) ->
  email_taken db (get_prop body "email") = true ->
  post_login rt db body = Json 500 (message_body "Error logging in").
Proof.
  intros Hb Hf He Hp Hpw Hyes. unfold post_login, select_users_by_email.
  rewrite !destructure_eq, Hb. js_unfold. unfold falsy.
  rewrite He, Hp, Hf. simpl.
  destruct (filter_cons_of_existsb _ _ Hyes) as (row & rest & ->).
  simpl. destruct (get_prop body "password"); try done. by destruct (Hpw s).
Qed.

(** C5, amended.  Two login attempts with both fields present, handled
    while the store answers: the first with an email that is not in
    [users]; the second with an email that is, and a string password that
    bcrypt finds not to match the hash stored with that email.  Both get
    the same response, 401 with the generic message. *)
Theorem login_failures_are_indistinguishable
    (rt : runtime) (db : store) (body1 body2 : jsval) (pw : string) :
  object_coercible body1 = true ->
  object_coercible body2 = true ->
  pool_fault rt = None ->
  truthy (get_prop body1 "email") = true ->
  truthy (get_prop body1 "password") = true ->
  truthy (get_prop body2 "email") = true ->
  get_prop body2 "password" = JStr pw ->
  pw <> EmptyString ->
  email_taken db (get_prop body1 "email") = false ->
  email_taken db (get_prop body2 "email") = true ->
  (forall k u, users db !! k = Some u ->
     sql_eq (Users.email u) (get_prop body2 "email") = true ->
     exists hash, Users.password u = JStr hash /\
                  bcrypt_compare_strings rt pw hash = false) ->
  post_login rt db body1
    = Json 401 (JObj [("success", JBool false);
                      ("message", JStr "Invalid credentials")]) /\
  post_login rt db body2 = post_login rt db body1.
Proof.
  intros Hb1 Hb2 Hf He1 Hp1 He2 Hp2 Hpw Hno Hyes Hcmp.
  assert (E1 : post_login rt db body1 = invalid_credentials).
  { unfold post_login, select_users_by_email.
    rewrite !destructure_eq, Hb1. js_unfold. unfold falsy.
    rewrite He1, Hp1, Hf. simpl.
    unfold email_taken in Hno. by rewrite (filter_nil_of_existsb _ _ Hno). }
  split; [exact E1|]. rewrite E1.
  unfold post_login, select_users_by_email.
  rewrite !destructure_eq, Hb2. js_unfold. unfold falsy.
  rewrite He2, Hp2, Hf. simpl.
  apply String.eqb_neq in Hpw. rewrite Hpw. simpl.
  destruct (List.filter _ _) as [|[k u] rest] eqn:Hrows; [done|].
  apply filter_head in Hrows as [Hin Hmatch].
  apply list_elem_of_In, elem_of_map_to_list in Hin.
  destruct (Hcmp k u Hin Hmatch) as (hash & Hhash & Hfalse).
  simpl in *. by rewrite Hhash, Hfalse.
Qed.

(** Nobody is not registered; Ann is, and her password is not
    ["guess"]. *)
Lemma login_failures_are_indistinguishable_witness :
  post_login Scenario.offline Scenario.seeded
    (Scenario.login_body "nobody@legit.city" "guess") = invalid_credentials /\
  post_login Scenario.offline Scenario.seeded
    (Scenario.login_body "ann@legit.city" "guess")
  = post_login Scenario.offline Scenario.seeded
      (Scenario.login_body "nobody@legit.city" "guess").
Proof.
  apply (login_failures_are_indistinguishable
           Scenario.offline Scenario.seeded
           (Scenario.login_body "nobody@legit.city" "guess")
           (Scenario.login_body "ann@legit.city" "guess") "guess");
    try reflexivity.
  - discriminate.
  - intros k u Hu Hm.
    assert (Hk : (k, u) ∈ map_to_list (users Scenario.seeded))
      by by apply elem_of_map_to_list.
    vm_compute in Hk. apply list_elem_of_In in Hk.
    destruct Hk as [Hk|[]]. inversion Hk; subst.
    eexists. split; reflexivity.
Defined.

(** *** C6 *)

(** C6.  A work upload lacking a truthy [title], [description] or
    [adminId] gets the 400 validation response.  Otherwise, while the
    store answers, one row is added to [work]; its [file_path] is NULL
    when no file is attached, and when a file is attached it is the name
    multer generated: the time stamp, a hyphen, and the original name with
    every run of white space replaced by one underscore.  That name is not
    the path of the file. *)
Theorem work_upload_file_path
    (rt : runtime) (db : store) (body : jsval) (attached : option string) :
  object_coercible body = true ->
  let title := get_prop body "title" in
  let description := get_prop body "description" in
  let adminId := get_prop body "adminId" in
  (truthy title = false \/ truthy description = false \/ truthy adminId = false ->
   post_api_work rt db body attached =
     (Json 400 (message_body "title, description and adminId required"), db))
  /\
  (truthy title = true /\ truthy description = true /\ truthy adminId = true ->
   pool_fault rt = None ->
   let stored :=
     match attached with
     | Some o => JStr (decimal (Date_now rt) ++ "-" ++ replace_whitespace o)
     | None => JNull
     end in
   let k := auto_increment (work db) in
   let r := {| Work.title := title; Work.description := description;
               Work.file_path := stored; Work.admin_id := adminId;
               Work.created_at := CURRENT_TIMESTAMP rt |} in
   work db !! k = None /\
   post_api_work rt db body attached =
     (Json 200 (success_body "Work uploaded"), with_work db (<[k := r]> (work db))) /\
   forall o, attached = Some o ->
     underscored o (replace_whitespace o) /\
     exists f, upload_single rt attached = Some f /\
               stored = JStr (filename f) /\ stored <> JStr (path f)).
Proof.
  intros Hb title description adminId. split.
  - intros H. unfold post_api_work. rewrite !destructure_eq, Hb. js_unfold.
    unfold falsy. fold title description adminId.
    destruct H as [-> | [-> | ->]]; simpl; by rewrite ?orb_true_r.
  - intros (Ht & Hd & Ha) Hf. simpl.
    split; [apply auto_increment_fresh|]. split.
    + unfold post_api_work, insert_work. rewrite !destructure_eq, Hb. js_unfold.
      unfold falsy. fold title description adminId.
      rewrite Ht, Hd, Ha, Hf. simpl. by destruct attached.
    + intros o ->. split; [apply replace_whitespace_underscored|].
      eexists. split; [reflexivity|]. split; [reflexivity|].
      simpl. intros H. injection H as H.
      by apply name_is_not_path in H.
Qed.

(** A photo whose name has two spaces and a tab in a row. *)
Lemma work_upload_file_path_witness :
  (post_api_work Scenario.offline Scenario.seeded Scenario.work_body
     (Some "site  	plan v2.pdf")).2
  = with_work Scenario.seeded
      {[ 1 := {| Work.title := JStr "Bridge"; Work.description := JStr "Survey";
                 Work.file_path := JStr "1730000000000-site_plan_v2.pdf";
                 Work.admin_id := Scenario.num 1;
                 Work.created_at := 1730000000 |} ]}.
Proof.
  destruct (work_upload_file_path Scenario.offline Scenario.seeded
              Scenario.work_body (Some "site  	plan v2.pdf") eq_refl) as [_ H].
  destruct (H ltac:(repeat split; reflexivity) eq_refl) as (_ & E & _).
  by rewrite E.
Defined.

(** *** C7 *)

Lemma pick_service (db : store) (kr : Z * Services.row) :
  pick ["id"; "service"; "level"; "admin_id"] (service_object_rich db kr)
  = service_object kr.
Proof. reflexivity. Qed.

Lemma pick_announcement (db : store) (kr : Z * Announcements.row) :
  pick ["id"; "title"; "content"; "created_at"] (announcement_object_rich db kr)
  = announcement_object kr.
Proof. reflexivity. Qed.

(** C7, counterexample.  Two services were created within the same
    second, and the server hands back rows with equal time stamps in one
    order for the statement of [GET /services] and in the other for that of
    [GET /api/services]: neither statement says which comes first.  The
    legacy listing has the service 1 before the service 2, the rich one has
    them the other way round. *)
Lemma legacy_listing_orders_ties_differently :
  pool_fault Scenario.ties_apart = None /\
  exists rich legacy,
    get_api_services Scenario.ties_apart Scenario.same_second
      = Json 200 (JObj [("services", JArr rich)]) /\
    get_services Scenario.ties_apart Scenario.same_second
      = Json 200 (JArr legacy) /\
    map (fun row => get_prop row "id") rich = [Scenario.num 2; Scenario.num 1] /\
    map (fun row => get_prop row "id") legacy = [Scenario.num 1; Scenario.num 2] /\
    legacy <> map (pick ["id"; "service"; "level"; "admin_id"]) rich.
Proof.
  split; [done|]. do 2 eexists.
  split; [reflexivity|]. split; [reflexivity|].
  split; [reflexivity|]. split; [reflexivity|].
  intros H. vm_compute in H. discriminate H.
Qed.

(** C7, amended.  While the store answers, the rows of [GET /services]
    are rows of [GET /api/services] restricted to [id], [service], [level]
    and [admin_id]: the same rows of the table, in both listings from the
    newest to the oldest.  They come in the same order when no two rows of
    the table have the same time stamp, and when the server orders rows
    with equal time stamps alike for the two statements.  The same holds of
    [GET /announcements] and [GET /api/announcements], with the columns of
    the legacy statement: [id], [title], [content] and [created_at]. *)
Theorem legacy_listings_project_the_rich_ones (rt : runtime) (db : store) :
  pool_fault rt = None ->
  (exists rich legacy : list (Z * Services.row),
     get_api_services rt db =
       Json 200 (JObj [("services", JArr (map (service_object_rich db) rich))]) /\
     get_services rt db =
       Json 200 (JArr (map (pick ["id"; "service"; "level"; "admin_id"])
                         (map (service_object_rich db) legacy))) /\
     rich ≡ₚ map_to_list (services db) /\
     legacy ≡ₚ rich /\
     newest_first (map (fun kr => Services.created_at kr.2) rich) /\
     newest_first (map (fun kr => Services.created_at kr.2) legacy) /\
     (NoDup (map (fun kr => Services.created_at kr.2) (map_to_list (services db))) ->
      legacy = rich) /\
     ((forall id, tie_rank rt sql_services id = tie_rank rt sql_services_rich id) ->
      legacy = rich))
  /\
  (exists rich legacy : list (Z * Announcements.row),
     get_api_announcements rt db =
       Json 200 (JObj [("announcements",
                        JArr (map (announcement_object_rich db) rich))]) /\
     get_announcements rt db =
       Json 200 (JArr (map (pick ["id"; "title"; "content"; "created_at"])
                         (map (announcement_object_rich db) legacy))) /\
     rich ≡ₚ map_to_list (announcements db) /\
     legacy ≡ₚ rich /\
     newest_first (map (fun kr => Announcements.created_at kr.2) rich) /\
     newest_first (map (fun kr => Announcements.created_at kr.2) legacy) /\
     (NoDup (map (fun kr => Announcements.created_at kr.2)
               (map_to_list (announcements db))) ->
      legacy = rich) /\
     ((forall id, tie_rank rt sql_announcements id
                  = tie_rank rt sql_announcements_rich id) ->
      legacy = rich)).
Proof.
  intros Hf. split.
  - exists (services_rows rt sql_services_rich db), (services_rows rt sql_services db).
    unfold get_api_services, get_services, select_services_rich, select_services.
    js_unfold. rewrite Hf. split; [done|]. split.
    { rewrite map_map. do 2 f_equal. }
    unfold services_rows.
    split; [apply newest_rows_perm|].
    split; [by rewrite !newest_rows_perm|].
    split; [apply newest_rows_newest_first|].
    split; [apply newest_rows_newest_first|].
    split.
    + intros Hnd.
      apply (newest_first_unique (fun kr => Services.created_at kr.2)).
      * by rewrite !newest_rows_perm.
      * by rewrite newest_rows_perm.
      * apply newest_rows_newest_first.
      * apply newest_rows_newest_first.
    + apply newest_rows_same_ranks.
  - exists (announcements_rows rt sql_announcements_rich db),
      (announcements_rows rt sql_announcements db).
    unfold get_api_announcements, get_announcements,
      select_announcements_rich, select_announcements.
    js_unfold. rewrite Hf. split; [done|]. split.
    { rewrite map_map. do 2 f_equal. }
    unfold announcements_rows.
    split; [apply newest_rows_perm|].
    split; [by rewrite !newest_rows_perm|].
    split; [apply newest_rows_newest_first|].
    split; [apply newest_rows_newest_first|].
    split.
    + intros Hnd.
      apply (newest_first_unique (fun kr => Announcements.created_at kr.2)).
      * by rewrite !newest_rows_perm.
      * by rewrite newest_rows_perm.
      * apply newest_rows_newest_first.
      * apply newest_rows_newest_first.
    + apply newest_rows_same_ranks.
Qed.

Lemma services_body_inj (l l' : list jsval) :
  Json 200 (JObj [("services", JArr l)]) = Json 200 (JObj [("services", JArr l')]) ->
  l = l'.
Proof. by intros [= ->]. Qed.

(** Two services created a minute apart, on the server of the
    counterexample: the legacy listing is the rich one restricted to the
    four columns, the newer service first. *)
Lemma legacy_listings_project_the_rich_ones_witness :
  exists rich,
    get_api_services Scenario.ties_apart Scenario.a_minute_later
      = Json 200 (JObj [("services", JArr rich)]) /\
    get_services Scenario.ties_apart Scenario.a_minute_later
      = Json 200 (JArr (map (pick ["id"; "service"; "level"; "admin_id"]) rich)) /\
    map (fun row => get_prop row "id") rich = [Scenario.num 2; Scenario.num 1].
Proof.
  destruct (legacy_listings_project_the_rich_ones
              Scenario.ties_apart Scenario.a_minute_later eq_refl)
    as [(rich & legacy & H1 & H2 & _ & _ & _ & _ & Hd & _) _].
  rewrite Hd in H2.
  - exists (map (service_object_rich Scenario.a_minute_later) rich).
    split; [exact H1|]. split; [exact H2|].
    assert (E : get_api_services Scenario.ties_apart Scenario.a_minute_later
                = Json 200 (JObj [("services", JArr
                    (map (service_object_rich Scenario.a_minute_later)
                       (services_rows Scenario.ties_apart sql_services_rich
                          Scenario.a_minute_later)))])) by reflexivity.
    rewrite H1 in E. apply services_body_inj in E. rewrite E. by vm_compute.
  - apply (bool_decide_unpack _). by vm_compute.
Defined.

(* ===================================================================== *)
(** ** The end-to-end scenarios of the specification *)
(* ===================================================================== *)

(** A registration with an unused email, then a login with the same
    credentials. *)
Example register_then_login :
  let db := (post_register Scenario.offline Scenario.seeded
               (Scenario.register_body "Bob" "bob@legit.city" "pa55word!" "user")).2 in
  post_login Scenario.offline db (Scenario.login_body "bob@legit.city" "pa55word!")
  = Json 200 (JObj
      [("success", JBool true);
       ("message", JStr "Login successful");
       ("redirectUrl", JStr "/user-dashboard?name=Bob&id=2");
       ("user", JObj
          [("id", Scenario.num 2); ("name", JStr "Bob");
           ("email", JStr "bob@legit.city"); ("accountType", JStr "user");
           ("verified", JNum zero); ("subscription_expires_at", JNull)])]).
Proof. reflexivity. Qed.

(** [{adminId: 1, name: "Gold", price: 100, duration: 30}] is in the
    seeded store; listed in USD it has [price_usd] 100, [price_local] 100
    and rate 1. *)
Example gold_plan_listed_in_usd :
  get_api_plans Scenario.offline Scenario.seeded (JObj [("currency", JStr "USD")])
  = Json 200 (JObj
      [("plans", JArr
          [JObj [("id", Scenario.num 1); ("admin_id", Scenario.num 1);
                 ("admin_name", JStr "Ann"); ("name", JStr "Gold");
                 ("description", JStr EmptyString);
                 ("price_usd", Scenario.num 100);
                 ("duration_days", Scenario.num 30);
                 ("currency", JStr "USD");
                 ("price_local", Scenario.num 100);
                 ("created_at", JDate 1730000000)]]);
       ("base", JStr "USD"); ("currency", JStr "USD");
       ("rate", JNum one)]).
Proof. reflexivity. Qed.

(** Listing the services twice with no write in between gives the same
    response. *)
Example listing_is_repeatable (rt : runtime) (db : store) :
  (app rt db GET_api_services).2 = db /\
  (app rt (app rt db GET_api_services).2 GET_api_services).1
  = (app rt db GET_api_services).1.
Proof. by split. Qed.

(* ===================================================================== *)
(** ** Further properties of the handlers *)
(* ===================================================================== *)

(** *** What a request does to the store *)

(** What a request leaves behind: the store as it was, or a success
    response and one row more. *)
Lemma app_shape (rt : runtime) (db : store) (req : request) :
  (app rt db req).2 = db \/
  ((exists body, (app rt db req).1 = Json 200 body \/
                 (app rt db req).1 = Json 201 body) /\
   total_rows (app rt db req).2 = S (total_rows db)).
Proof.
  destruct req; simpl; auto.
  - unfold post_register, insert_user. js_paths; auto.
    right. split; [eauto|]. unfold total_rows. simpl. rewrite insert_row_size. lia.
  - unfold post_api_plans, insert_plan. js_paths; auto.
    right. split; [eauto|]. unfold total_rows. simpl. rewrite insert_row_size. lia.
  - unfold post_subscribe, insert_subscription. js_paths; auto;
      (right; split; [eauto|]; unfold total_rows; simpl;
       rewrite insert_row_size; lia).
  - unfold post_api_services, insert_service. js_paths; auto.
    right. split; [eauto|]. unfold total_rows. simpl. rewrite insert_row_size. lia.
  - unfold post_api_announcements, insert_announcement. js_paths; auto.
    right. split; [eauto|]. unfold total_rows. simpl. rewrite insert_row_size. lia.
  - unfold post_api_work, insert_work. js_paths; auto;
      (right; split; [eauto|]; unfold total_rows; simpl;
       rewrite insert_row_size; lia).
Qed.

(** X1.  A request that is answered with a status of 400 or more leaves
    the store exactly as it was. *)
Theorem error_response_leaves_the_store
    (rt : runtime) (db : store) (req : request) (status : Z) (body : jsval) :
  (app rt db req).1 = Json status body ->
  400 <= status ->
  (app rt db req).2 = db.
Proof.
  intros H Hs.
  destruct (app_shape rt db req) as [E|[(b & [E|E]) _]]; [done| |];
    rewrite H in E; injection E as -> _; lia.
Qed.

Lemma error_response_leaves_the_store_witness :
  (app Scenario.offline Scenario.seeded (POST_api_plans Scenario.free_plan)).2
  = Scenario.seeded.
Proof.
  apply (error_response_leaves_the_store Scenario.offline Scenario.seeded
           (POST_api_plans Scenario.free_plan) 400
           (message_body "adminId, name, price and duration are required")).
  - reflexivity.
  - lia.
Defined.

(** X2.  A request adds at most one row: after it the store is as it
    was, or holds exactly one row more. *)
Theorem request_adds_at_most_one_row (rt : runtime) (db : store) (req : request) :
  (app rt db req).2 = db \/
  total_rows (app rt db req).2 = S (total_rows db).
Proof. destruct (app_shape rt db req) as [E|[_ E]]; auto. Qed.

(** X3.  When the driver raises an error for the statement of a request,
    the store is left as it was, and every route other than the three
    pages answers with a status of 400 or more: none reports a success. *)
Theorem driver_error_is_never_a_success
    (rt : runtime) (db : store) (req : request) (e : js_error) :
  pool_fault rt = Some e ->
  (app rt db req).2 = db /\
  (is_page req = false ->
   exists status body, (app rt db req).1 = Json status body /\ 400 <= status).
Proof.
  intros Hf. destruct req; simpl; (split; [|try done; intros _]); try done.
  all: try (unfold post_register, insert_user, post_login, select_users_by_email,
      post_api_plans, insert_plan, get_api_plans, select_active_plans,
      post_subscribe, insert_subscription, post_api_services, insert_service,
      get_api_services, select_services_rich, get_services, select_services,
      post_api_announcements, insert_announcement, get_api_announcements,
      select_announcements_rich, get_announcements, select_announcements,
      post_api_work, insert_work, get_api_work, select_work;
    js_unfold; rewrite ?destructure_eq, ?Hf;
    repeat case_match; simplify_eq; simpl; try done;
    do 2 eexists; (split; [reflexivity|lia])).
Qed.

(** With the store down, a registration is answered with an error and
    nothing is stored. *)
Lemma driver_error_is_never_a_success_witness :
  (app store_down Scenario.seeded
     (POST_register
        (Scenario.register_body "Bob" "bob@legit.city" "pa55word!" "user"))).2
  = Scenario.seeded /\
  exists status body,
    (app store_down Scenario.seeded
       (POST_register
          (Scenario.register_body "Bob" "bob@legit.city" "pa55word!" "user"))).1
    = Json status body /\ 400 <= status.
Proof.
  destruct (driver_error_is_never_a_success store_down Scenario.seeded
              (POST_register
                 (Scenario.register_body "Bob" "bob@legit.city" "pa55word!" "user"))
              Scenario.ECONNREFUSED eq_refl) as [H1 H2].
  split; [exact H1 | exact (H2 eq_refl)].
Defined.

(** *** Subscriptions *)

(** X4.  A subscribe request with a truthy [userId] and [planId] and a
    falsy [serviceId], handled while the store answers, adds exactly one
    row to [subscriptions]; it holds [userId] and [planId], and its
    [service_id] is NULL. *)
Theorem subscribe_to_plan (rt : runtime) (db : store) (body : jsval) :
  object_coercible body = true ->
  pool_fault rt = None ->
  truthy (get_prop body "userId") = true ->
  truthy (get_prop body "serviceId") = false ->
  truthy (get_prop body "planId") = true ->
  let k := auto_increment (subscriptions db) in
  let r := {| Subscriptions.user_id := get_prop body "userId";
              Subscriptions.service_id := JNull;
              Subscriptions.plan_id := get_prop body "planId" |} in
  subscriptions db !! k = None /\
  post_subscribe rt db body =
    (Json 200 (success_body "Subscribed to plan"),
     with_subscriptions db (<[k := r]> (subscriptions db))).
Proof.
  intros Hb Hf Hu Hs Hp. simpl. split; [apply auto_increment_fresh|].
  unfold post_subscribe, insert_subscription.
  rewrite !destructure_eq, Hb. js_unfold. unfold falsy.
  by rewrite Hf, Hu, Hs, Hp.
Qed.

Lemma subscribe_to_plan_witness :
  (post_subscribe Scenario.offline Scenario.seeded
     (JObj [("userId", Scenario.num 5); ("planId", Scenario.num 9)])).1
  = Json 200 (success_body "Subscribed to plan").
Proof.
  destruct (subscribe_to_plan Scenario.offline Scenario.seeded
              (JObj [("userId", Scenario.num 5); ("planId", Scenario.num 9)])
              eq_refl eq_refl eq_refl eq_refl eq_refl) as [_ E].
  by rewrite E.
Defined.

(** X5.  The last statement of the subscribe handler is never reached:
    no request gets the "Invalid subscription request" response. *)
Theorem subscribe_never_answers_invalid_request
    (rt : runtime) (db : store) (body : jsval) :
  (post_subscribe rt db body).1
  <> Json 400 (message_body "Invalid subscription request").
Proof.
  unfold post_subscribe, insert_subscription. rewrite !destructure_eq.
  js_unfold. unfold falsy.
  destruct (object_coercible body); [|done].
  destruct (truthy (get_prop body "userId")); [|done].
  destruct (truthy (get_prop body "serviceId")); simpl.
  - by destruct (pool_fault rt).
  - destruct (truthy (get_prop body "planId")); simpl; [|done].
    by destruct (pool_fault rt).
Qed.

(** X6.  The handlers keep subscriptions to one target: if every row of
    [subscriptions] has either a service and no plan or a plan and no
    service, so has every row after any request. *)
Theorem subscriptions_keep_one_target
    (rt : runtime) (db : store) (req : request) :
  (forall k r, subscriptions db !! k = Some r -> one_target r) ->
  forall k r, subscriptions (app rt db req).2 !! k = Some r -> one_target r.
Proof.
  intros Hinv. destruct req; simpl; try done.
  - unfold post_register, insert_user. js_paths; done.
  - unfold post_api_plans, insert_plan. js_paths; done.
  - unfold post_subscribe, insert_subscription. rewrite !destructure_eq.
    js_unfold. unfold falsy.
    destruct (object_coercible body); [|done].
    destruct (truthy (get_prop body "userId")); [|done].
    destruct (truthy (get_prop body "serviceId")) eqn:Hs; simpl.
    + destruct (pool_fault rt); [done|]. simpl. unfold insert_row.
      intros k r [[_ <-]|[_ H]]%lookup_insert_Some; [|by eapply Hinv].
      by left.
    + destruct (truthy (get_prop body "planId")) eqn:Hp; simpl; [|done].
      destruct (pool_fault rt); [done|]. simpl. unfold insert_row.
      intros k r [[_ <-]|[_ H]]%lookup_insert_Some; [|by eapply Hinv].
      by right.
  - unfold post_api_services, insert_service. js_paths; done.
  - unfold post_api_announcements, insert_announcement. js_paths; done.
  - unfold post_api_work, insert_work. js_paths; done.
Qed.

(** The subscription made through the handler on an empty table has
    one target. *)
Lemma subscriptions_keep_one_target_witness :
  from_option one_target False
    (subscriptions (app Scenario.offline Scenario.seeded
                      (POST_subscribe Scenario.subscribe_both)).2 !! 1).
Proof.
  assert (H0 : forall k r, subscriptions Scenario.seeded !! k = Some r ->
                           one_target r).
  { intros k r H. vm_compute in H. discriminate H. }
  pose proof (subscriptions_keep_one_target Scenario.offline Scenario.seeded
                (POST_subscribe Scenario.subscribe_both) H0 1) as H.
  destruct (subscriptions (app Scenario.offline Scenario.seeded
              (POST_subscribe Scenario.subscribe_both)).2 !! 1) as [r|] eqn:E.
  - simpl. by apply H.
  - vm_compute in E. discriminate E.
Defined.

(** *** Users *)

Lemma email_taken_false (db : store) (email : jsval) (k : Z) (u : Users.row) :
  email_taken db email = false ->
  users db !! k = Some u ->
  sql_eq (Users.email u) email = false.
Proof.
  unfold email_taken. intros Hno Hu.
  destruct (sql_eq (Users.email u) email) eqn:E; [|done].
  assert (existsb (fun kr => sql_eq (Users.email kr.2) email)
            (map_to_list (users db)) = true) as Hyes; [|congruence].
  apply existsb_exists. exists (k, u). split; [|done].
  by apply list_elem_of_In, elem_of_map_to_list.
Qed.

Lemma filter_Permutation_bool {A} (f : A -> bool) (l l' : list A) :
  l ≡ₚ l' -> List.filter f l ≡ₚ List.filter f l'.
Proof.
  induction 1 as [|x l l' _ IH|x y l|l l' l'' _ IH1 _ IH2]; simpl.
  - done.
  - destruct (f x); by rewrite IH.
  - destruct (f x), (f y); try done. apply Permutation_swap.
  - by rewrite IH1.
Qed.

(** The rows a login finds right after the registration of [email]. *)
Lemma select_after_insert (db : store) (email : jsval) (r : Users.row) :
  email_taken db email = false ->
  sql_eq (Users.email r) email = true ->
  List.filter (fun kr => sql_eq (Users.email kr.2) email)
    (map_to_list (insert_row r (users db)))
  = [(auto_increment (users db), r)].
Proof.
  intros Hno Hyes. apply Permutation_singleton_r.
  unfold insert_row.
  rewrite (filter_Permutation_bool _ _ _
             (map_to_list_insert _ _ r (auto_increment_fresh (users db)))).
  simpl. rewrite Hyes.
  unfold email_taken in Hno. by rewrite (filter_nil_of_existsb _ _ Hno).
Qed.

(** X7.  A login with the email and the password of a registration that
    has just succeeded succeeds: it is answered 200 with the [id] the new
    row got and its email.  The email is a string not yet in [users], the
    password a string, the store answers, bcrypt matches the password with
    the hash it made of it, and the name can be URI-encoded. *)
Theorem register_then_login_succeeds
    (rt : runtime) (db : store) (body login : jsval) (e pw : string) :
  object_coercible body = true ->
  object_coercible login = true ->
  pool_fault rt = None ->
  truthy (get_prop body "name") = true ->
  get_prop body "email" = JStr e -> e <> EmptyString ->
  get_prop body "password" = JStr pw -> pw <> EmptyString ->
  truthy (get_prop body "accountType") = true ->
  email_taken db (JStr e) = false ->
  get_prop login "email" = JStr e ->
  get_prop login "password" = JStr pw ->
  bcrypt_compare_strings rt pw (bcrypt_hash_string rt pw 10) = true ->
  (exists enc, encodeURIComponent rt (get_prop body "name") = Return enc) ->
  exists b,
    post_login rt (post_register rt db body).2 login = Json 200 b /\
    get_prop (get_prop b "user") "id" = JNum (of_Z (auto_increment (users db))) /\
    get_prop (get_prop b "user") "email" = JStr e.
Proof.
  intros Hb Hl Hf Hn He Hne Hp Hnp Ha Hno Hle Hlp Hcmp [enc Henc].
  apply String.eqb_neq in Hne, Hnp.
  assert (E : (post_register rt db body).2 =
    with_users db (insert_row
      {| Users.name := get_prop body "name"; Users.email := JStr e;
         Users.password := JStr (bcrypt_hash_string rt pw 10);
         Users.account_type := get_prop body "accountType";
         Users.verified := JNum zero;
         Users.subscription_expires_at := JNull |} (users db))).
  { unfold post_register, insert_user. rewrite !destructure_eq, Hb. js_unfold.
    unfold falsy. rewrite Hn, He, Hp, Ha. simpl. by rewrite Hne, Hnp, Hf, Hno. }
  rewrite E. unfold post_login, select_users_by_email.
  rewrite !destructure_eq, Hl. js_unfold. unfold falsy.
  rewrite Hle, Hlp, Hf. simpl. rewrite Hne, Hnp. simpl.
  rewrite select_after_insert; [|done|by simpl; rewrite String.eqb_refl].
  simpl. rewrite Hcmp, Henc. simpl. eexists. split; [reflexivity|]. by split.
Qed.

Lemma register_then_login_succeeds_witness :
  exists b,
    post_login Scenario.offline
      (post_register Scenario.offline Scenario.seeded
         (Scenario.register_body "Bob" "bob@legit.city" "pa55word!" "user")).2
      (Scenario.login_body "bob@legit.city" "pa55word!") = Json 200 b /\
    get_prop (get_prop b "user") "id" = Scenario.num 2 /\
    get_prop (get_prop b "user") "email" = JStr "bob@legit.city".
Proof.
  apply (register_then_login_succeeds Scenario.offline Scenario.seeded
           (Scenario.register_body "Bob" "bob@legit.city" "pa55word!" "user")
           (Scenario.login_body "bob@legit.city" "pa55word!")
           "bob@legit.city" "pa55word!"); try reflexivity; try discriminate.
  by eexists.
Defined.

(** X8.  A login is answered 200 only for a row of [users] whose email
    equals the submitted one and whose stored hash bcrypt matches with the
    submitted password, a string; the response carries the [id] of that
    row, and the [user] object in it has no [password]. *)
Theorem login_success_is_sound
    (rt : runtime) (db : store) (body b : jsval) :
  post_login rt db body = Json 200 b ->
  exists k u pw hash,
    users db !! k = Some u /\
    sql_eq (Users.email u) (get_prop body "email") = true /\
    get_prop body "password" = JStr pw /\
    Users.password u = JStr hash /\
    bcrypt_compare_strings rt pw hash = true /\
    get_prop (get_prop b "user") "id" = JNum (of_Z k) /\
    get_prop (get_prop b "user") "password" = JUndefined.
Proof.
  unfold post_login, select_users_by_email. rewrite !destructure_eq.
  js_unfold.
  destruct (object_coercible body); [|done].
  destruct (falsy _ || falsy _); [done|].
  destruct (pool_fault rt); [done|].
  destruct (List.filter _ _) as [|[k u] rest] eqn:Hrows; [done|].
  apply filter_head in Hrows as [Hin Hmatch].
  apply list_elem_of_In, elem_of_map_to_list in Hin.
  simpl in *. unfold bcrypt_compare.
  destruct (get_prop body "password") as [| | | |pw| | |]; try done.
  destruct (Users.password u) as [| | | |hash| | |] eqn:Hhash; try done.
  destruct (bcrypt_compare_strings rt pw hash) eqn:Hcmp; [|done]. simpl.
  destruct (encodeURIComponent rt (Users.name u)); [|done].
  intros [= <-]. exists k, u, pw, hash. by repeat split.
Qed.

Lemma login_success_is_sound_witness :
  exists k u pw hash,
    users Scenario.seeded !! k = Some u /\
    sql_eq (Users.email u) (JStr "ann@legit.city") = true /\
    JStr "s3cret!" = JStr pw /\
    Users.password u = JStr hash /\
    bcrypt_compare_strings Scenario.offline pw hash = true.
Proof.
  destruct (login_success_is_sound Scenario.offline Scenario.seeded
              (Scenario.login_body "ann@legit.city" "s3cret!") _ eq_refl)
    as (k & u & pw & hash & H1 & H2 & H3 & H4 & H5 & _).
  exists k, u, pw, hash. by repeat split.
Defined.

(** *** Listings *)

Lemma elem_of_order_by_desc {A} (key : A -> Z) (l : list A) (x : A) :
  x ∈ order_by_desc key l <-> x ∈ l.
Proof. by rewrite (order_by_desc_perm key l). Qed.

Lemma elem_of_active_plans (db : store) (k : Z) (r : Plans.row) :
  (k, r) ∈ active_plans db <->
  plans db !! k = Some r /\ key_of (Plans.active r) = Some 1.
Proof.
  unfold active_plans. rewrite list_elem_of_In, filter_In.
  rewrite <- list_elem_of_In, elem_of_map_to_list. unfold is_active. simpl.
  by rewrite bool_decide_eq_true.
Qed.

(** X11.  A create-plan request with a truthy [adminId], [name], [price]
    and [duration], handled while the store answers, is answered with the
    [id] of the row it adds; the row is active, its description is the one
    given or, when that is falsy, the empty string; and the next listing
    has it. *)
Theorem created_plan_is_listed (rt : runtime) (db : store) (body : jsval) :
  object_coercible body = true ->
  pool_fault rt = None ->
  truthy (get_prop body "adminId") = true ->
  truthy (get_prop body "name") = true ->
  truthy (get_prop body "price") = true ->
  truthy (get_prop body "duration") = true ->
  let k := auto_increment (plans db) in
  let r := {| Plans.admin_id := get_prop body "adminId";
              Plans.name := get_prop body "name";
              Plans.description :=
                if truthy (get_prop body "description")
                then get_prop body "description" else JStr EmptyString;
              Plans.price_usd := get_prop body "price";
              Plans.duration_days := get_prop body "duration";
              Plans.active := JNum one;
              Plans.created_at := CURRENT_TIMESTAMP rt |} in
  post_api_plans rt db body =
    (Json 200 (JObj [("success", JBool true); ("message", JStr "Plan created");
                     ("planId", JNum (of_Z k))]),
     with_plans db (<[k := r]> (plans db))) /\
  (k, r) ∈ active_plans (post_api_plans rt db body).2.
Proof.
  intros Hb Hf Ha Hn Hp Hd k r.
  assert (E : post_api_plans rt db body =
    (Json 200 (JObj [("success", JBool true); ("message", JStr "Plan created");
                     ("planId", JNum (of_Z k))]),
     with_plans db (<[k := r]> (plans db)))).
  { unfold post_api_plans, insert_plan. rewrite !destructure_eq, Hb. js_unfold.
    unfold falsy. by rewrite Hf, Ha, Hn, Hp, Hd. }
  split; [exact E|]. rewrite E. apply elem_of_active_plans. simpl.
  split; [apply lookup_insert_eq|reflexivity].
Qed.

Lemma created_plan_is_listed_witness :
  (post_api_plans Scenario.offline Scenario.seeded Scenario.gold_plan).1
  = Json 200 (JObj [("success", JBool true); ("message", JStr "Plan created");
                    ("planId", Scenario.num 2)]).
Proof.
  destruct (created_plan_is_listed Scenario.offline Scenario.seeded
              Scenario.gold_plan eq_refl eq_refl eq_refl eq_refl eq_refl eq_refl)
    as [E _].
  by rewrite E.
Defined.

(** X12.  Whatever [getRate] returns is truthy: never 0, [NaN],
    [undefined], [null] or the empty string. *)
Theorem getRate_returns_a_truthy_rate (rt : runtime) (v rate : jsval) :
  getRate rt v = Return rate -> truthy rate = true.
Proof.
  unfold getRate. destruct (falsy v); [by intros [= <-]|].
  destruct v as [| | | |s| | |]; try done.
  destruct (String.eqb _ _); [by intros [= <-]|].
  js_unfold. intros [= <-].
  destruct (axios_get rt _) as [data|]; [|done].
  unfold js_or. by destruct (truthy (opt_get _ _)) eqn:E.
Qed.

Lemma getRate_returns_a_truthy_rate_witness :
  getRate (Scenario.online
             (JObj [("rates", JObj [("EUR", JNum (SFdiv prec emax (of_Z 92) (of_Z 100)))])]))
    (JStr "eur")
  = Return (JNum (SFdiv prec emax (of_Z 92) (of_Z 100))) /\
  truthy (JNum (SFdiv prec emax (of_Z 92) (of_Z 100))) = true.
Proof.
  split; [reflexivity|].
  apply (getRate_returns_a_truthy_rate
           (Scenario.online
              (JObj [("rates", JObj [("EUR", JNum (SFdiv prec emax (of_Z 92) (of_Z 100)))])]))
           (JStr "eur")).
  reflexivity.
Defined.

Lemma elem_of_map_newest_rows {A} (rt : runtime) (sql : string)
    (f : Z * A -> jsval) (created_at : A -> Z) (m : gmap Z A) (k : Z) (r : A) :
  m !! k = Some r ->
  f (k, r) ∈ map f (newest_rows rt sql created_at (map_to_list m)).
Proof.
  intros H. apply list_elem_of_In, in_map, list_elem_of_In.
  rewrite newest_rows_perm. by apply elem_of_map_to_list.
Qed.

Lemma length_map_newest_rows {A} (rt : runtime) (sql : string)
    (f : Z * A -> jsval) (created_at : A -> Z) (m : gmap Z A) :
  length (map f (newest_rows rt sql created_at (map_to_list m))) = size m.
Proof.
  rewrite length_map, (newest_rows_perm rt sql created_at (map_to_list m)).
  apply length_map_to_list.
Qed.

(** Closes a goal saying that the row just inserted under [k] is in a
    listing. *)
Ltac new_row_listed k :=
  match goal with
  | |- _ ∈ map ?f (newest_rows ?rt ?sql ?key (map_to_list ?m)) =>
      exact (elem_of_map_newest_rows rt sql f key m k _ (lookup_insert_eq _ _ _))
  end.

(** X13.  After a work upload that succeeded, the work listing has one
    entry for each row of [work], and among them the entry of the upload,
    with the [file_path] that was stored: the generated name, or NULL when
    no file was attached. *)
Theorem uploaded_work_is_listed
    (rt : runtime) (db : store) (body : jsval) (attached : option string) :
  object_coercible body = true ->
  pool_fault rt = None ->
  truthy (get_prop body "title") = true ->
  truthy (get_prop body "description") = true ->
  truthy (get_prop body "adminId") = true ->
  let db' := (post_api_work rt db body attached).2 in
  exists rows,
    get_api_work rt db' = Json 200 (JObj [("work", JArr rows)]) /\
    length rows = S (size (work db)) /\
    JObj [("id", JNum (of_Z (auto_increment (work db))));
          ("title", get_prop body "title");
          ("description", get_prop body "description");
          ("file_path",
             match attached with
             | Some o => JStr (safeName rt o)
             | None => JNull
             end);
          ("created_at", JDate (CURRENT_TIMESTAMP rt));
          ("admin_name", admin_name db (get_prop body "adminId"))] ∈ rows.
Proof.
  intros Hb Hf Ht Hd Ha db'.
  destruct (work_upload_file_path rt db body attached Hb) as [_ H].
  destruct (H (conj Ht (conj Hd Ha)) Hf) as (Hfresh & E & _).
  subst db'. rewrite E. simpl.
  eexists. unfold get_api_work, select_work. js_unfold. rewrite Hf.
  split; [reflexivity|]. split.
  - rewrite length_map_newest_rows. simpl.
    by apply map_size_insert_None.
  - match goal with |- _ ∈ map ?f (newest_rows ?rt' ?sql ?key (map_to_list ?m)) =>
      pose proof (elem_of_map_newest_rows rt' sql f key m (auto_increment (work db)) _
                    (lookup_insert_eq _ _ _)) as Hin
    end.
    revert Hin. unfold work_object, safeName. simpl. by destruct attached.
Qed.

Lemma uploaded_work_is_listed_witness :
  exists rows,
    get_api_work Scenario.offline
      (post_api_work Scenario.offline Scenario.seeded Scenario.work_body
         (Some "site plan.pdf")).2
    = Json 200 (JObj [("work", JArr rows)]) /\
    length rows = 1%nat.
Proof.
  destruct (uploaded_work_is_listed Scenario.offline Scenario.seeded
              Scenario.work_body (Some "site plan.pdf")
              eq_refl eq_refl eq_refl eq_refl eq_refl) as (rows & H1 & H2 & _).
  exists rows. by split.
Defined.

(** X14.  After a create-service request with a truthy [service],
    [level] and [adminId], handled while the store answers, both service
    listings have the new service, under the [id] it got. *)
Theorem created_service_is_listed (rt : runtime) (db : store) (body : jsval) :
  object_coercible body = true ->
  pool_fault rt = None ->
  truthy (get_prop body "service") = true ->
  truthy (get_prop body "level") = true ->
  truthy (get_prop body "adminId") = true ->
  let db' := (post_api_services rt db body).2 in
  (post_api_services rt db body).1 = Json 200 (success_body "Service created") /\
  exists rich legacy,
    get_api_services rt db' = Json 200 (JObj [("services", JArr rich)]) /\
    get_services rt db' = Json 200 (JArr legacy) /\
    length rich = S (size (services db)) /\
    length legacy = S (size (services db)) /\
    JObj [("id", JNum (of_Z (auto_increment (services db))));
          ("service", get_prop body "service");
          ("level", get_prop body "level");
          ("admin_id", get_prop body "adminId");
          ("admin_name", admin_name db (get_prop body "adminId"));
          ("created_at", JDate (CURRENT_TIMESTAMP rt))] ∈ rich /\
    JObj [("id", JNum (of_Z (auto_increment (services db))));
          ("service", get_prop body "service");
          ("level", get_prop body "level");
          ("admin_id", get_prop body "adminId")] ∈ legacy.
Proof.
  intros Hb Hf Hs Hl Ha db'.
  assert (E : post_api_services rt db body =
    (Json 200 (success_body "Service created"),
     with_services db (insert_row
       {| Services.service := get_prop body "service";
          Services.level := get_prop body "level";
          Services.admin_id := get_prop body "adminId";
          Services.created_at := CURRENT_TIMESTAMP rt |} (services db)))).
  { unfold post_api_services, insert_service. rewrite !destructure_eq, Hb.
    js_unfold. unfold falsy. by rewrite Hf, Hs, Hl, Ha. }
  subst db'. rewrite E. split; [done|]. simpl.
  do 2 eexists.
  unfold get_api_services, get_services, select_services_rich, select_services,
    services_rows.
  js_unfold. rewrite Hf. simpl.
  split; [reflexivity|]. split; [reflexivity|].
  rewrite !length_map_newest_rows, insert_row_size.
  split; [done|]. split; [done|]. split.
  - new_row_listed (auto_increment (services db)).
  - new_row_listed (auto_increment (services db)).
Qed.

Lemma created_service_is_listed_witness :
  (post_api_services Scenario.offline Scenario.seeded Scenario.service_body).1
  = Json 200 (success_body "Service created").
Proof.
  by destruct (created_service_is_listed Scenario.offline Scenario.seeded
                 Scenario.service_body eq_refl eq_refl eq_refl eq_refl eq_refl)
    as [E _].
Defined.

(** X15.  After a create-announcement request with a truthy [content]
    and [adminId], handled while the store answers, the announcement
    listing has the new announcement; its title is the one given or, when
    that is missing or otherwise falsy, the empty string. *)
Theorem created_announcement_is_listed
    (rt : runtime) (db : store) (body : jsval) :
  object_coercible body = true ->
  pool_fault rt = None ->
  truthy (get_prop body "content") = true ->
  truthy (get_prop body "adminId") = true ->
  let db' := (post_api_announcements rt db body).2 in
  (post_api_announcements rt db body).1
    = Json 200 (success_body "Announcement created") /\
  exists rows,
    get_announcements rt db' = Json 200 (JArr rows) /\
    length rows = S (size (announcements db)) /\
    JObj [("id", JNum (of_Z (auto_increment (announcements db))));
          ("title", if truthy (get_prop body "title")
                    then get_prop body "title" else JStr EmptyString);
          ("content", get_prop body "content");
          ("created_at", JDate (CURRENT_TIMESTAMP rt))] ∈ rows.
Proof.
  intros Hb Hf Hc Ha db'.
  assert (E : post_api_announcements rt db body =
    (Json 200 (success_body "Announcement created"),
     with_announcements db (insert_row
       {| Announcements.title := js_or (get_prop body "title") (JStr EmptyString);
          Announcements.content := get_prop body "content";
          Announcements.admin_id := get_prop body "adminId";
          Announcements.created_at := CURRENT_TIMESTAMP rt |} (announcements db)))).
  { unfold post_api_announcements, insert_announcement.
    rewrite !destructure_eq, Hb. js_unfold. unfold falsy.
    by rewrite Hf, Hc, Ha. }
  subst db'. rewrite E. split; [done|]. simpl.
  eexists.
  unfold get_announcements, select_announcements, announcements_rows.
  js_unfold. rewrite Hf. simpl.
  split; [reflexivity|].
  rewrite !length_map_newest_rows, insert_row_size.
  split; [done|].
  new_row_listed (auto_increment (announcements db)).
Qed.

Lemma created_announcement_is_listed_witness :
  (post_api_announcements Scenario.offline Scenario.seeded
     (JObj [("content", JStr "Closed on Monday"); ("adminId", Scenario.num 1)])).1
  = Json 200 (success_body "Announcement created").
Proof.
  by destruct (created_announcement_is_listed Scenario.offline Scenario.seeded
                 (JObj [("content", JStr "Closed on Monday");
                        ("adminId", Scenario.num 1)])
                 eq_refl eq_refl eq_refl eq_refl)
    as [E _].
Defined.

(** *** Stored file names *)

Lemma no_space_app (s t : string) :
  no_space (s ++ t) = no_space s && no_space t.
Proof.
  induction s as [|c s IH]; [done|]. simpl. rewrite IH. by rewrite andb_assoc.
Qed.

Lemma all_digits_uint (d : Decimal.uint) :
  all_digits (NilEmpty.string_of_uint d) = true.
Proof. induction d; simpl; auto. Qed.

Lemma all_digits_decimal (z : Z) : 0 <= z -> all_digits (decimal z) = true.
Proof.
  intros Hz. unfold decimal. destruct z as [|p|p]; [done| |lia].
  simpl. unfold NilZero.string_of_uint.
  destruct (Pos.to_uint p); try done; apply (all_digits_uint (_ _)).
Qed.

Lemma all_digits_no_space (s : string) : all_digits s = true -> no_space s = true.
Proof.
  induction s as [|c s IH]; [done|]. simpl.
  intros [Hc Hs]%andb_prop. rewrite (IH Hs), andb_true_r.
  unfold is_digit in Hc. unfold is_space.
  destruct (Z.of_N (N_of_ascii c)) eqn:E; lia.
Qed.

Lemma no_space_decimal (z : Z) : no_space (decimal z) = true.
Proof.
  destruct (Z.le_gt_cases 0 z) as [Hz|Hz].
  - by apply all_digits_no_space, all_digits_decimal.
  - unfold decimal. destruct z as [|p|p]; try lia. simpl.
    apply all_digits_no_space. unfold NilZero.string_of_uint.
    destruct (Pos.to_uint p); try done; apply (all_digits_uint (_ _)).
Qed.

Lemma no_space_replace_runs (b : bool) (s : string) :
  no_space (replace_runs b s) = true.
Proof.
  revert b. induction s as [|c s IH]; intros b; [done|]. simpl.
  destruct (is_space c) eqn:E.
  - destruct b; [apply IH|]. simpl. apply IH.
  - simpl. by rewrite E, IH.
Qed.

Lemma replace_runs_no_space (s : string) :
  no_space s = true -> replace_runs false s = s.
Proof.
  induction s as [|c s IH]; [done|]. simpl.
  intros [Hc Hs]%andb_prop. apply negb_true_iff in Hc. rewrite Hc.
  by rewrite (IH Hs).
Qed.

(** X16.  The name under which an upload is stored has no white space;
    an original name without white space is kept as it is after the time
    stamp; and replacing the white space of a name twice gives what
    replacing it once gives. *)
Theorem stored_name_has_no_white_space (rt : runtime) (o : string) :
  no_space (safeName rt o) = true /\
  (no_space o = true -> safeName rt o = decimal (Date_now rt) ++ "-" ++ o) /\
  replace_whitespace (replace_whitespace o) = replace_whitespace o.
Proof.
  unfold safeName, replace_whitespace. split; [|split].
  - rewrite !no_space_app, no_space_decimal, no_space_replace_runs. done.
  - intros H. by rewrite (replace_runs_no_space _ H).
  - apply replace_runs_no_space, no_space_replace_runs.
Qed.

Lemma stored_name_has_no_white_space_witness :
  safeName Scenario.offline "report.pdf" = "1730000000000-report.pdf".
Proof.
  destruct (stored_name_has_no_white_space Scenario.offline "report.pdf")
    as (_ & H & _).
  by rewrite H.
Defined.

Lemma digits_then_hyphen (d1 d2 x y : string) :
  all_digits d1 = true -> all_digits d2 = true ->
  d1 ++ "-" ++ x = d2 ++ "-" ++ y -> d1 = d2 /\ x = y.
Proof.
  revert d2. induction d1 as [|c d1 IH]; intros [|c2 d2]; simpl.
  - intros _ _ H. by simplify_eq.
  - intros _ [Hc _]%andb_prop H. by simplify_eq.
  - intros [Hc _]%andb_prop _ H. by simplify_eq.
  - intros [_ H1]%andb_prop [_ H2]%andb_prop H. simplify_eq.
    destruct (IH d2 H1 H2) as [-> ->]; done.
Qed.

Lemma decimal_inj (z1 z2 : Z) : decimal z1 = decimal z2 -> z1 = z2.
Proof.
  assert (Hparse : forall z,
            NilZero.int_of_string (decimal z) = Some (Z.to_int z)).
  { intros z. apply NilZero.isi; destruct z; simpl; try discriminate;
      intros [= H]; by apply Unsigned.to_uint_nonnil in H. }
  intros H. apply (f_equal NilZero.int_of_string) in H.
  rewrite !Hparse in H. injection H as H.
  by rewrite <- (DecimalZ.of_to z1), <- (DecimalZ.of_to z2), H.
Qed.

(** X17.  Two uploads are stored under the same name exactly when their
    time stamps are the same millisecond and their original names are the
    same once white space is replaced.  Time stamps are not negative. *)
Theorem stored_names_collide_only_when
    (rt1 rt2 : runtime) (o1 o2 : string) :
  0 <= Date_now rt1 -> 0 <= Date_now rt2 ->
  safeName rt1 o1 = safeName rt2 o2 <->
  Date_now rt1 = Date_now rt2 /\ replace_whitespace o1 = replace_whitespace o2.
Proof.
  intros H1 H2. unfold safeName. split.
  - intros H.
    apply digits_then_hyphen in H as [Hd Hn]; try by apply all_digits_decimal.
    split; [by apply decimal_inj|done].
  - by intros [-> ->].
Qed.

(** The names [a b.txt] and [a  b.txt], uploaded in the same millisecond,
    are stored under one name. *)
Lemma stored_names_collide_only_when_witness :
  safeName Scenario.offline "a b.txt" = safeName Scenario.offline "a  b.txt".
Proof.
  apply (stored_names_collide_only_when Scenario.offline Scenario.offline
           "a b.txt" "a  b.txt"); [done|done|].
  by split.
Defined.

(** *** Validation and malformed requests *)

(** X18.  Validation comes first.  A login without a truthy [email] or
    [password], a create-plan request without a truthy [adminId], [name],
    [price] or [duration], a create-service request without a truthy
    [service], [level] or [adminId], and a create-announcement request
    without a truthy [content] or [adminId] each get their 400 response,
    whatever the runtime does, and the store is left as it was. *)
Theorem missing_field_is_rejected_first
    (rt : runtime) (db : store) (body : jsval) :
  object_coercible body = true ->
  (truthy (get_prop body "email") = false \/
   truthy (get_prop body "password") = false ->
   post_login rt db body = Json 400 (message_body "Email and password required"))
  /\
  (truthy (get_prop body "adminId") = false \/
   truthy (get_prop body "name") = false \/
   truthy (get_prop body "price") = false \/
   truthy (get_prop body "duration") = false ->
   post_api_plans rt db body =
     (Json 400 (message_body "adminId, name, price and duration are required"), db))
  /\
  (truthy (get_prop body "service") = false \/
   truthy (get_prop body "level") = false \/
   truthy (get_prop body "adminId") = false ->
   post_api_services rt db body =
     (Json 400 (message_body "All fields required"), db))
  /\
  (truthy (get_prop body "content") = false \/
   truthy (get_prop body "adminId") = false ->
   post_api_announcements rt db body =
     (Json 400 (message_body "content and adminId required"), db)).
Proof.
  intros Hb. repeat split.
  - intros H. unfold post_login. rewrite !destructure_eq, Hb. js_unfold.
    unfold falsy. destruct H as [-> | ->]; simpl; by rewrite ?orb_true_r.
  - intros H. unfold post_api_plans. rewrite !destructure_eq, Hb. js_unfold.
    unfold falsy.
    destruct H as [-> | [-> | [-> | ->]]]; simpl; by rewrite ?orb_true_r.
  - intros H. unfold post_api_services. rewrite !destructure_eq, Hb. js_unfold.
    unfold falsy. destruct H as [-> | [-> | ->]]; simpl; by rewrite ?orb_true_r.
  - intros H. unfold post_api_announcements. rewrite !destructure_eq, Hb.
    js_unfold. unfold falsy.
    destruct H as [-> | ->]; simpl; by rewrite ?orb_true_r.
Qed.

(** An empty body is rejected by all four. *)
Lemma missing_field_is_rejected_first_witness :
  post_login Scenario.offline Scenario.seeded (JObj [])
    = Json 400 (message_body "Email and password required") /\
  post_api_services Scenario.offline Scenario.seeded (JObj [])
    = (Json 400 (message_body "All fields required"), Scenario.seeded).
Proof.
  destruct (missing_field_is_rejected_first Scenario.offline Scenario.seeded
              (JObj []) eq_refl) as (H1 & _ & H3 & _).
  split; [apply H1|apply H3]; by left.
Defined.

(** X19.  A request that reaches a handler without a body, [req.body]
    being [undefined] or [null], is answered 500 by every route that reads
    a body, and the store is left as it was: the destructuring throws
    inside the [try]. *)
Theorem missing_body_is_a_500 (rt : runtime) (db : store) (body : jsval)
    (attached : option string) :
  object_coercible body = false ->
  post_register rt db body = (Json 500 (message_body "Error registering user"), db) /\
  post_login rt db body = Json 500 (message_body "Error logging in") /\
  post_api_plans rt db body = (Json 500 (message_body "Error creating plan"), db) /\
  post_subscribe rt db body = (Json 500 (message_body "Error subscribing"), db) /\
  post_api_services rt db body
    = (Json 500 (message_body "Error creating service"), db) /\
  post_api_announcements rt db body
    = (Json 500 (message_body "Error creating announcement"), db) /\
  post_api_work rt db body attached
    = (Json 500 (message_body "Error uploading work"), db).
Proof.
  intros Hb.
  unfold post_register, post_login, post_api_plans, post_subscribe,
    post_api_services, post_api_announcements, post_api_work.
  rewrite !destructure_eq, Hb. by repeat split.
Qed.

Lemma missing_body_is_a_500_witness :
  post_subscribe Scenario.offline Scenario.seeded JUndefined
  = (Json 500 (message_body "Error subscribing"), Scenario.seeded).
Proof.
  by destruct (missing_body_is_a_500 Scenario.offline Scenario.seeded
                 JUndefined None eq_refl) as (_ & _ & _ & H & _).
Defined.

(** *** The rate that is applied *)

(** X20.  For a target currency other than the base currency, when the
    rate service answers the request for
    [latest?base=USD&symbols=<currency>] and its answer has a truthy entry
    for the upper-cased currency under [rates], [getRate] returns that
    entry.  A plan listing in that currency reports it as its rate and
    prices every plan by it, when the entry and the stored prices convert
    to numbers; when the entry does not convert, as an object with a
    [toString] entry does not, and there is a plan to price, the listing
    fails with the 500 response. *)
Theorem service_rate_is_applied
    (rt : runtime) (db : store) (s : string) (data : jsval) :
  s <> EmptyString ->
  toUpperCase rt s <> BASE_CURRENCY ->
  axios_get rt ("https://api.exchangerate.host/latest?base=USD&symbols=" ++ s)
    = Return data ->
  truthy (opt_get (opt_get data "rates") (toUpperCase rt s)) = true ->
  getRate rt (JStr s) = Return (opt_get (opt_get data "rates") (toUpperCase rt s)) /\
  (pool_fault rt = None ->
   toUpperCase rt (toUpperCase rt s) = toUpperCase rt s ->
   toUpperCase rt s <> EmptyString ->
   axios_get rt ("https://api.exchangerate.host/latest?base=USD&symbols="
                   ++ toUpperCase rt s) = Return data ->
   forall price_usd,
     prices_convert rt db price_usd ->
     (forall x,
        ToNumber rt (opt_get (opt_get data "rates") (toUpperCase rt s)) = Return x ->
        get_api_plans rt db (JObj [("currency", JStr s)]) =
          Json 200 (plans_body rt db (toUpperCase rt s)
                      (opt_get (opt_get data "rates") (toUpperCase rt s))
                      price_usd (fun r => round2 (mul (price_usd r) x)))) /\
     (forall e,
        ToNumber rt (opt_get (opt_get data "rates") (toUpperCase rt s)) = Throw e ->
        active_plans db <> [] ->
        get_api_plans rt db (JObj [("currency", JStr s)]) =
          Json 500 (message_body "Error fetching plans"))).
Proof.
  intros Hs Hu Hget Hentry.
  assert (Hrate : forall t,
    t <> EmptyString -> toUpperCase rt t = toUpperCase rt s ->
    axios_get rt ("https://api.exchangerate.host/latest?base=USD&symbols=" ++ t)
      = Return data ->
    getRate rt (JStr t) = Return (opt_get (opt_get data "rates") (toUpperCase rt s))).
  { intros t Ht Htu Hg.
    change ("https://api.exchangerate.host/latest?base=USD&symbols=" ++ t)
      with (latest_url t) in Hg.
    unfold getRate, falsy. simpl.
    apply String.eqb_neq in Ht. rewrite Ht, Htu. simpl.
    apply String.eqb_neq in Hu. rewrite Hu.
    js_unfold. rewrite Hg.
    unfold js_or. by rewrite Hentry. }
  split; [by apply Hrate|].
  intros Hf Hidem Hne Hget' price_usd Hp.
  assert (Hc : listing_currency rt (get_prop (JObj [("currency", JStr s)]) "currency")
               = toUpperCase rt s) by (by destruct s).
  assert (Ht : text_or_absent (get_prop (JObj [("currency", JStr s)]) "currency")
               = true) by done.
  split.
  - intros x Hx.
    rewrite (get_api_plans_eq rt db _
               (opt_get (opt_get data "rates") (toUpperCase rt s)) x price_usd Hf Ht);
      rewrite ?Hc; try done.
    by apply Hrate.
  - intros e He Hplans.
    apply (get_api_plans_rate_throws rt db _
             (opt_get (opt_get data "rates") (toUpperCase rt s)) e price_usd);
      rewrite ?Hc; try done.
    by apply Hrate.
Qed.

(** The service quotes 0.92 for the euro: the Gold plan, price 100, is
    listed at that rate. *)
Lemma service_rate_is_applied_witness :
  getRate (Scenario.online
             (JObj [("rates", JObj [("EUR", JNum (SFdiv prec emax (of_Z 92) (of_Z 100)))])]))
    (JStr "eur")
  = Return (JNum (SFdiv prec emax (of_Z 92) (of_Z 100))) /\
  get_api_plans
    (Scenario.online
       (JObj [("rates", JObj [("EUR", JNum (SFdiv prec emax (of_Z 92) (of_Z 100)))])]))
    Scenario.seeded (JObj [("currency", JStr "eur")])
  = Json 200
      (plans_body
         (Scenario.online
            (JObj [("rates", JObj [("EUR", JNum (SFdiv prec emax (of_Z 92) (of_Z 100)))])]))
         Scenario.seeded "EUR" (JNum (SFdiv prec emax (of_Z 92) (of_Z 100)))
         (fun _ => of_Z 100)
         (fun _ => round2 (mul (of_Z 100) (SFdiv prec emax (of_Z 92) (of_Z 100))))).
Proof.
  destruct (service_rate_is_applied
    (Scenario.online
       (JObj [("rates", JObj [("EUR", JNum (SFdiv prec emax (of_Z 92) (of_Z 100)))])]))
    Scenario.seeded "eur"
    (JObj [("rates", JObj [("EUR", JNum (SFdiv prec emax (of_Z 92) (of_Z 100)))])])
    ltac:(discriminate) ltac:(vm_compute; discriminate) eq_refl eq_refl)
    as [H1 H2].
  split; [exact H1|].
  assert (Hp : prices_convert Scenario.offline Scenario.seeded (fun _ => of_Z 100))
    by (vm_compute; repeat constructor).
  destruct (H2 eq_refl eq_refl ltac:(vm_compute; discriminate) eq_refl _ Hp)
    as [H3 _].
  by apply H3.
Defined.

(** An entry that is an object with [toString] and [valueOf] entries is
    truthy and is returned as the rate; the multiplication cannot make a
    number of it, and the listing of the Gold plan fails. *)
Example unconvertible_rate_fails_the_listing :
  get_api_plans
    (Scenario.online
       (JObj [("rates", JObj [("EUR", JObj [("toString", Scenario.num 1);
                                            ("valueOf", Scenario.num 1)])])]))
    Scenario.seeded (JObj [("currency", JStr "EUR")])
  = Json 500 (message_body "Error fetching plans").
Proof. reflexivity. Qed.

(* ===================================================================== *)
(** ** Properties of the front-end validators *)
(* ===================================================================== *)

Module ValidateFacts.
Import Validate.
Local Open Scope list_scope.

(** *** [test] decides matching *)

Lemma nullable_matches (r : regex) : nullable r = true <-> matches r [].
Proof.
  induction r as [| |p|r1 IH1 r2 IH2|r1 IH1 r2 IH2|r1 IH1 r2 IH2|r IH]; simpl.
  - split; [done|]. inversion 1.
  - split; [constructor|done].
  - split; [done|]. inversion 1.
  - rewrite andb_true_iff, IH1, IH2. split.
    + intros [H1 H2]. by apply (matches_seq _ _ [] []).
    + inversion 1 as [| |? ? s t H1 H2 [E1 E2] E| | | | |]; subst.
      apply app_eq_nil in E as [-> ->]. done.
  - rewrite orb_true_iff, IH1, IH2. split.
    + intros [H|H]; by constructor.
    + inversion 1; subst; auto.
  - rewrite andb_true_iff, IH1, IH2. split.
    + intros [H1 H2]. by constructor.
    + inversion 1; subst; auto.
  - split; [constructor|done].
Qed.

Lemma matches_many_cons (r : regex) (c : ascii) (s : list ascii) :
  matches (Many r) (c :: s) ->
  exists s1 s2, s = s1 ++ s2 /\ matches r (c :: s1) /\ matches (Many r) s2.
Proof.
  intros H. remember (Many r) as R eqn:ER. remember (c :: s) as l eqn:El.
  revert s El.
  induction H as [| | | | | | |r' s1 s2 H1 _ H2 IH2]; intros s0 El; try done.
  injection ER as ->.
  destruct s1 as [|c' s1]; simpl in El.
  - by apply IH2.
  - injection El as -> <-. by exists s1, s2.
Qed.

Lemma deriv_matches (r : regex) (c : ascii) (s : list ascii) :
  matches (deriv c r) s <-> matches r (c :: s).
Proof.
  revert s.
  induction r as [| |p|r1 IH1 r2 IH2|r1 IH1 r2 IH2|r1 IH1 r2 IH2|r IH];
    intros s; simpl.
  - split; inversion 1.
  - split; inversion 1.
  - destruct (p c) eqn:E; split.
    + inversion 1; subst. by constructor.
    + inversion 1; subst. constructor.
    + inversion 1.
    + inversion 1; subst. congruence.
  - assert (Hseq : matches (Seq (deriv c r1) r2) s ->
                   matches (Seq r1 r2) (c :: s)).
    { inversion 1 as [| |? ? s1 s2 H1 H2| | | | |]; subst.
      apply IH1 in H1. by apply (matches_seq _ _ (c :: s1) s2). }
    assert (Hinv : matches (Seq r1 r2) (c :: s) ->
                   (matches r1 [] /\ matches r2 (c :: s)) \/
                   matches (Seq (deriv c r1) r2) s).
    { inversion 1 as [| |? ? s1 s2 H1 H2 [E1 E2] E| | | | |]; subst.
      destruct s1 as [|c' s1]; simpl in E; subst.
      - by left.
      - injection E as -> <-. right. constructor; [by apply IH1|done]. }
    destruct (nullable r1) eqn:En; split.
    + inversion 1; subst; [by apply Hseq|].
      apply (matches_seq _ _ [] (c :: s)); [by apply nullable_matches|].
      by apply IH2.
    + intros [[_ H]|H]%Hinv; [|by constructor].
      apply matches_right. by apply IH2.
    + apply Hseq.
    + intros [[H _]|H]%Hinv; [|done].
      apply nullable_matches in H. congruence.
  - split.
    + inversion 1; subst; [apply matches_left|apply matches_right];
        by (apply IH1 || apply IH2).
    + inversion 1; subst; [apply matches_left|apply matches_right];
        by (apply IH1 || apply IH2).
  - split; inversion 1; subst; constructor; by (apply IH1 || apply IH2).
  - split.
    + inversion 1 as [| |? ? s1 s2 H1 H2| | | | |]; subst.
      apply IH in H1. by apply (matches_many_more _ (c :: s1) s2).
    + intros (s1 & s2 & -> & H1 & H2)%matches_many_cons.
      constructor; [by apply IH|done].
Qed.

Lemma test_chars_matches (r : regex) (s : list ascii) :
  test_chars r s = true <-> matches r s.
Proof.
  revert r. induction s as [|c s IH]; intros r; simpl.
  - apply nullable_matches.
  - by rewrite IH, deriv_matches.
Qed.

(** *** What the patterns match *)

Lemma matches_seq_inv (r1 r2 : regex) (l : list ascii) :
  matches (Seq r1 r2) l <->
  exists s t, l = s ++ t /\ matches r1 s /\ matches r2 t.
Proof.
  split.
  - inversion 1; subst. eauto.
  - intros (s & t & -> & H1 & H2). by constructor.
Qed.

Lemma matches_class_inv (p : ascii -> bool) (l : list ascii) :
  matches (Class p) l <-> exists c, l = [c] /\ p c = true.
Proof.
  split.
  - inversion 1; subst. eauto.
  - intros (c & -> & H). by constructor.
Qed.

Lemma matches_many_class (p : ascii -> bool) (l : list ascii) :
  matches (Many (Class p)) l <-> forallb p l = true.
Proof.
  split.
  - intros H. remember (Many (Class p)) as R eqn:ER.
    induction H as [| | | | | | |r s t H1 _ _ IH2]; try done.
    injection ER as ->. inversion H1; subst. simpl.
    rewrite IH2; [|done]. by rewrite andb_true_r.
  - induction l as [|c l IH]; simpl; [constructor|].
    intros [Hc Hl]%andb_prop.
    apply (matches_many_more _ [c] l); [by constructor|by apply IH].
Qed.

Lemma matches_anything (l : list ascii) : matches anything l.
Proof. apply matches_many_class. by induction l. Qed.

Lemma matches_plus_class (p : ascii -> bool) (l : list ascii) :
  matches (plus (Class p)) l <-> l <> [] /\ forallb p l = true.
Proof.
  unfold plus. rewrite matches_seq_inv. split.
  - intros (s & t & -> & (c & -> & Hc)%matches_class_inv & Ht%matches_many_class).
    simpl. by rewrite Hc, Ht.
  - intros [Hne Hl]. destruct l as [|c l]; [done|]. simpl in Hl.
    apply andb_prop in Hl as [Hc Hl]. exists [c], l.
    split; [done|]. split; [by constructor|by apply matches_many_class].
Qed.

Lemma matches_at_least (n : nat) (p : ascii -> bool) (l : list ascii) :
  matches (at_least n (Class p)) l <->
  (n <= length l)%nat /\ forallb p l = true.
Proof.
  revert l. induction n as [|n IH]; intros l; simpl.
  - rewrite matches_many_class. split; [intros H; split; [lia|done]|by intros [_ H]].
  - rewrite matches_seq_inv. split.
    + intros (s & t & -> & (c & -> & Hc)%matches_class_inv & [Hn Ht]%IH).
      simpl. rewrite Hc, Ht. split; [lia|done].
    + intros [Hn Hl]. destruct l as [|c l]; simpl in *; [lia|].
      apply andb_prop in Hl as [Hc Hl]. exists [c], l.
      split; [done|]. split; [by constructor|]. apply IH. split; [lia|done].
Qed.

(** A look-ahead [(?=.*[q])], on a subject without line terminators,
    asks for a code unit of the class [q]. *)
Lemma matches_ahead_class (q : ascii -> bool) (l : list ascii) :
  forallb not_line_terminator l = true ->
  matches (Seq (Seq (Many dot) (Class q)) anything) l <-> existsb q l = true.
Proof.
  intros Hl. rewrite matches_seq_inv. split.
  - intros (s & t & -> & (s1 & s2 & -> & _ & (c & -> & Hc)%matches_class_inv)
              %matches_seq_inv & _).
    rewrite !existsb_app. simpl. rewrite Hc. by rewrite !orb_true_r.
  - intros (c & Hin & Hc)%existsb_exists.
    apply in_split in Hin as (s1 & s3 & ->).
    rewrite forallb_app in Hl. apply andb_prop in Hl as [H1 _].
    exists (s1 ++ [c]), s3. split; [by rewrite <- app_assoc|].
    split; [|apply matches_anything].
    apply matches_seq; [by apply matches_many_class|by constructor].
Qed.

Lemma password_class_not_terminator (c : ascii) :
  password_class c = true -> not_line_terminator c = true.
Proof.
  destruct c as [[] [] [] [] [] [] [] []]; vm_compute; done.
Qed.

Lemma forallb_impl {A} (p q : A -> bool) (l : list A) :
  (forall a, p a = true -> q a = true) ->
  forallb p l = true -> forallb q l = true.
Proof.
  intros Hpq. induction l as [|a l IH]; [done|]. simpl.
  intros [Ha Hl]%andb_prop. by rewrite (Hpq a Ha), IH.
Qed.

Lemma string_length_chars (s : string) :
  String.length s = length (list_ascii_of_string s).
Proof. induction s as [|c s IH]; [done|]. simpl. by rewrite IH. Qed.

Lemma chars_app (s t : string) :
  list_ascii_of_string (s ++ t)%string
  = list_ascii_of_string s ++ list_ascii_of_string t.
Proof. induction s as [|c s IH]; [done|]. simpl. by rewrite IH. Qed.

Lemma string_of_chars_app (l1 l2 : list ascii) :
  string_of_list_ascii (l1 ++ l2)
  = (string_of_list_ascii l1 ++ string_of_list_ascii l2)%string.
Proof. induction l1 as [|c l1 IH]; [done|]. simpl. by rewrite IH. Qed.

(** X21.  [isStrongPassword] accepts exactly the passwords of at least
    eight code units, all of them letters A-Z or a-z, digits or one of
    [@$!%*?&], with at least one digit and at least one of [@$!%*?&]. *)
Theorem isStrongPassword_spec (pw : string) :
  isStrongPassword pw =
    (8 <=? String.length pw)%nat && all_in password_class pw
    && any_in digit_class pw && any_in special_class pw.
Proof.
  apply eq_true_iff_eq.
  unfold isStrongPassword, test, password_pattern, ahead, all_in, any_in.
  rewrite test_chars_matches, string_length_chars.
  set (l := list_ascii_of_string pw).
  rewrite !andb_true_iff, Nat.leb_le. split.
  - inversion 1 as [| | | | |? ? ? Hd Hrest| |]; subst.
    inversion Hrest as [| | | | |? ? ? Hs Hlen| |]; subst.
    apply (matches_at_least 8 password_class) in Hlen as [Hlen Hall].
    pose proof (forallb_impl _ _ _ password_class_not_terminator Hall) as Hnt.
    apply (matches_ahead_class _ _ Hnt) in Hd, Hs. done.
  - intros [[[Hlen Hall] Hd] Hs].
    pose proof (forallb_impl _ _ _ password_class_not_terminator Hall) as Hnt.
    repeat constructor.
    + by apply (matches_ahead_class _ _ Hnt).
    + by apply (matches_ahead_class _ _ Hnt).
    + by apply (matches_at_least 8 password_class).
Qed.

(** X22.  [isValidEmail] accepts exactly the values whose lower-cased
    form is a local part, [@], a domain, a dot and an ending, the three
    of them non-empty and free of white space and of [@]. *)
Theorem isValidEmail_spec (br : browser) (v : string) :
  isValidEmail br v = true <->
  exists a b c : string,
    toLowerCase br v = (a ++ "@" ++ b ++ "." ++ c)%string /\
    a <> EmptyString /\ b <> EmptyString /\ c <> EmptyString /\
    all_in not_space_nor_at a = true /\
    all_in not_space_nor_at b = true /\
    all_in not_space_nor_at c = true.
Proof.
  unfold isValidEmail, test, email_pattern, all_in.
  rewrite test_chars_matches. split.
  - intros (a & t1 & E1 & [Ha Hfa]%matches_plus_class
            & (at_ & t2 & -> & (c1 & -> & Hc1)%matches_class_inv
            & (b & t3 & -> & [Hb Hfb]%matches_plus_class
            & (dot_ & c & -> & (c2 & -> & Hc2)%matches_class_inv
            & [Hc Hfc]%matches_plus_class)%matches_seq_inv)%matches_seq_inv)
              %matches_seq_inv)%matches_seq_inv.
    apply Ascii.eqb_eq in Hc1, Hc2. subst c1 c2.
    exists (string_of_list_ascii a), (string_of_list_ascii b),
      (string_of_list_ascii c).
    rewrite !list_ascii_of_string_of_list_ascii.
    split.
    + rewrite <- (string_of_list_ascii_of_string (toLowerCase br v)), E1.
      by rewrite !string_of_chars_app.
    + repeat split; try done.
      * by destruct a.
      * by destruct b.
      * by destruct c.
  - intros (a & b & c & E & Ha & Hb & Hc & Hfa & Hfb & Hfc).
    rewrite E, !chars_app. simpl.
    apply matches_seq; [apply matches_plus_class; split; [by destruct a|done]|].
    apply (matches_seq _ _ ["@"%char]); [by constructor|].
    apply matches_seq; [apply matches_plus_class; split; [by destruct b|done]|].
    apply (matches_seq _ _ ["."%char]); [by constructor|].
    apply matches_plus_class; split; [by destruct c|done].
Qed.

(** *** The validators *)

Lemma consistent_cleared : consistent cleared.
Proof. by left. Qed.

Lemma consistent_step (b : bool) (id message : string) (c : checks) :
  consistent c -> consistent (if b then reject id message c else c).
Proof.
  intros H. destruct b; [|done]. right. split; [done|].
  apply insert_non_empty.
Qed.

Lemma register_checks_consistent (br : browser) (f : register_form) :
  consistent (register_checks br f).
Proof.
  unfold register_checks. repeat apply consistent_step. apply consistent_cleared.
Qed.

Lemma login_checks_consistent (br : browser) (f : login_form) :
  consistent (login_checks br f).
Proof.
  unfold login_checks. repeat apply consistent_step. apply consistent_cleared.
Qed.

Lemma register_checks_valid (br : browser) (f : register_form) :
  valid (register_checks br f) =
    (3 <=? String.length (trim (regName f)))%nat
    && isValidEmail br (regEmail f)
    && isStrongPassword (regPassword f)
    && String.eqb (regPassword f) (confirmPassword f)
    && negb (String.eqb (accountType f) EmptyString).
Proof.
  unfold register_checks.
  destruct (Nat.ltb_spec (String.length (trim (regName f))) 3) as [Hn|Hn];
    [rewrite (proj2 (Nat.leb_gt _ _) Hn)|rewrite (proj2 (Nat.leb_le _ _) Hn)];
    destruct (isValidEmail br (regEmail f)), (isStrongPassword (regPassword f)),
      (String.eqb (regPassword f) (confirmPassword f)),
      (String.eqb (accountType f) EmptyString); reflexivity.
Qed.

Lemma login_checks_valid (br : browser) (f : login_form) :
  valid (login_checks br f) =
    isValidEmail br (loginEmail f) && isStrongPassword (loginPassword f).
Proof.
  unfold login_checks.
  by destruct (isValidEmail br (loginEmail f)),
    (isStrongPassword (loginPassword f)).
Qed.

(** X23.  [validateRegister] returns [true] exactly when it has marked
    no input with an error; when it returns [false] it leaves
    [localStorage] as it was and raises no alert. *)
Theorem validateRegister_true_iff_no_error
    (br : browser) (st : storage) (f : register_form) (v : validation) :
  validateRegister br st f = Return v ->
  (returned v = true <-> errors v = ∅) /\
  (returned v = false -> stored v = st /\ alerted v = None).
Proof.
  unfold validateRegister. js_unfold.
  destruct (elements (getUsers br st)) as [l|]; [|done].
  destruct (some_has_email _ l) as [dup|]; [|done].
  set (c6 := if dup then _ else _).
  assert (Hc : consistent c6).
  { apply consistent_step, register_checks_consistent. }
  destruct Hc as [[Hv Hm]|[Hv Hm]]; rewrite Hv; simpl; intros [= <-]; simpl.
  - by split.
  - split; [|done]. split; [done|]. intros E. by rewrite E in Hm.
Qed.

(** Registering Ann twice: the second time the email is marked and the
    item is left as the first registration made it. *)
Lemma validateRegister_true_iff_no_error_witness :
  exists v,
    validateRegister Demo.chrome Demo.with_ann Demo.ann = Return v /\
    returned v = false /\ stored v = Demo.with_ann /\
    errors v = {[ "regEmail" :=
                    "This email is already registered. Try logging in." ]}.
Proof.
  eexists. split; [reflexivity|].
  destruct (validateRegister_true_iff_no_error Demo.chrome Demo.with_ann
              Demo.ann _ eq_refl) as [_ H].
  destruct (H eq_refl) as [E _]. by split.
Defined.

(** X24.  When the stored users are an array that can be searched,
    [validateRegister] returns [true] exactly when the trimmed name has at
    least three code units, the email is valid, the password is strong and
    equals its confirmation, an account type is chosen, and no stored user
    has the normalised email; it then stores the users followed by the
    new one, its email normalised, and raises the alert. *)
Theorem validateRegister_accepts_exactly
    (br : browser) (st : storage) (f : register_form)
    (l : list jsval) (dup : bool) :
  elements (getUsers br st) = Return l ->
  some_has_email (normalizeEmail br (regEmail f)) l = Return dup ->
  exists v,
    validateRegister br st f = Return v /\
    returned v =
      (3 <=? String.length (trim (regName f)))%nat
      && isValidEmail br (regEmail f)
      && isStrongPassword (regPassword f)
      && String.eqb (regPassword f) (confirmPassword f)
      && negb (String.eqb (accountType f) EmptyString)
      && negb dup /\
    (returned v = true ->
     stored v = saveUsers br (JArr (l ++ [new_user br f])) /\
     alerted v = Some Registration_successful).
Proof.
  intros Hl Hdup. unfold validateRegister. js_unfold. rewrite Hl, Hdup.
  rewrite <- register_checks_valid.
  destruct dup; simpl.
  - eexists. split; [reflexivity|]. simpl. by rewrite andb_false_r.
  - rewrite andb_true_r.
    destruct (valid (register_checks br f)); simpl;
      eexists; (split; [reflexivity|]); simpl; done.
Qed.

Lemma validateRegister_accepts_exactly_witness :
  exists v,
    validateRegister Demo.chrome Demo.with_ann Demo.bob = Return v /\
    returned v = true /\
    stored v = saveUsers Demo.chrome
                 (JArr [new_user Demo.chrome Demo.ann; new_user Demo.chrome Demo.bob]).
Proof.
  destruct (validateRegister_accepts_exactly Demo.chrome Demo.with_ann Demo.bob
              [new_user Demo.chrome Demo.ann] false eq_refl eq_refl)
    as (v & E & Hr & Hs).
  exists v. split; [done|]. split; [done|]. by apply Hs.
Defined.

Lemma some_has_email_false (email : string) (l : list jsval) :
  some_has_email email l = Return false ->
  Forall (fun u => has_email email u = Return false) l.
Proof.
  induction l as [|u l IH]; simpl; [constructor|]. js_unfold.
  destruct (has_email email u) as [[]|] eqn:E; try done.
  intros H. constructor; [done|by apply IH].
Qed.

(** X25.  A registration that [validateRegister] accepts adds a user
    whose email no stored user has: each stored user was compared with the
    normalised email and differed. *)
Theorem registered_email_is_new
    (br : browser) (st : storage) (f : register_form) (v : validation) :
  validateRegister br st f = Return v ->
  returned v = true ->
  exists l,
    elements (getUsers br st) = Return l /\
    stored v = saveUsers br (JArr (l ++ [new_user br f])) /\
    Forall (fun u => has_email (normalizeEmail br (regEmail f)) u = Return false) l.
Proof.
  unfold validateRegister. js_unfold.
  destruct (elements (getUsers br st)) as [l|]; [|done].
  destruct (some_has_email _ l) as [dup|] eqn:Hdup; [|done].
  destruct dup; simpl.
  - intros [= <-]. done.
  - destruct (valid (register_checks br f)); simpl; intros [= <-]; [|done].
    intros _. exists l. split; [done|]. split; [done|].
    by apply some_has_email_false.
Qed.

Lemma registered_email_is_new_witness :
  exists l,
    elements (getUsers Demo.chrome Demo.with_ann) = Return l /\
    Forall (fun u => has_email "bob@legit.city" u = Return false) l.
Proof.
  destruct (registered_email_is_new Demo.chrome Demo.with_ann Demo.bob _
              eq_refl eq_refl) as (l & H1 & _ & H2).
  exists l. by split.
Defined.

Lemma find_after_no_match (email : string) (l l' : list jsval) :
  some_has_email email l = Return false ->
  find_by_email email (l ++ l') = find_by_email email l'.
Proof.
  induction l as [|u l IH]; simpl; [done|]. js_unfold.
  destruct (has_email email u) as [[]|]; done.
Qed.

(** X26.  After a registration that [validateRegister] accepted, a login
    with the same email and password is accepted, when the stored item
    reads back as the array that was written. *)
Theorem registration_then_login
    (br : browser) (st : storage) (f : register_form) (v : validation) :
  validateRegister br st f = Return v ->
  returned v = true ->
  (forall l, elements (getUsers br st) = Return l ->
     JSON_parse br (JSON_stringify br (JArr (l ++ [new_user br f])))
     = Return (JArr (l ++ [new_user br f]))) ->
  validateLogin br (stored v)
    {| loginEmail := regEmail f; loginPassword := regPassword f |}
  = Return {| returned := true; errors := ∅; stored := stored v;
              alerted := Some Login_successful |}.
Proof.
  intros Hv Hr Hjson.
  revert Hv. unfold validateRegister. js_unfold.
  destruct (elements (getUsers br st)) as [l|] eqn:Hl; [|done].
  destruct (some_has_email _ l) as [dup|] eqn:Hdup; [|done].
  destruct dup; simpl; [by intros [= <-]|].
  destruct (valid (register_checks br f)) eqn:Hvalid; simpl; intros [= <-];
    [|done].
  rewrite register_checks_valid in Hvalid.
  apply andb_prop in Hvalid as [[[[_ He]%andb_prop Hp]%andb_prop _]%andb_prop _].
  unfold validateLogin. simpl.
  assert (Hc : login_checks br
                 {| loginEmail := regEmail f; loginPassword := regPassword f |}
               = cleared).
  { unfold login_checks. simpl. by rewrite He, Hp. }
  rewrite Hc. simpl. js_unfold.
  unfold getUsers, saveUsers. simpl. js_unfold. rewrite (Hjson l eq_refl).
  simpl. rewrite (find_after_no_match _ _ _ Hdup). simpl.
  unfold has_email. simpl. js_unfold. rewrite String.eqb_refl. simpl.
  by rewrite String.eqb_refl.
Qed.

Lemma registration_then_login_witness :
  validateLogin Demo.chrome
    (saveUsers Demo.chrome
       (JArr [new_user Demo.chrome Demo.ann; new_user Demo.chrome Demo.bob]))
    {| loginEmail := "bob@legit.city"; loginPassword := "pa55word!" |}
  = Return {| returned := true; errors := ∅;
              stored := saveUsers Demo.chrome
                (JArr [new_user Demo.chrome Demo.ann; new_user Demo.chrome Demo.bob]);
              alerted := Some Login_successful |}.
Proof.
  apply (registration_then_login Demo.chrome Demo.with_ann Demo.bob
           {| returned := true; errors := ∅;
              stored := saveUsers Demo.chrome
                (JArr [new_user Demo.chrome Demo.ann; new_user Demo.chrome Demo.bob]);
              alerted := Some Registration_successful |}).
  - reflexivity.
  - reflexivity.
  - intros l [= <-]. reflexivity.
Defined.

(** X27.  A login whose fields pass the format checks fails in the same
    way for an email no stored user has and for a stored user whose
    password differs: [false] is returned and both inputs are marked with
    the same message. *)
Theorem login_failure_is_generic
    (br : browser) (st : storage) (f1 f2 : login_form)
    (l : list jsval) (u : jsval) :
  isValidEmail br (loginEmail f1) = true ->
  isStrongPassword (loginPassword f1) = true ->
  isValidEmail br (loginEmail f2) = true ->
  isStrongPassword (loginPassword f2) = true ->
  elements (getUsers br st) = Return l ->
  find_by_email (normalizeEmail br (loginEmail f1)) l = Return JUndefined ->
  find_by_email (normalizeEmail br (loginEmail f2)) l = Return u ->
  truthy u = true ->
  strict_eq_str (get_prop u "password") (loginPassword f2) = false ->
  validateLogin br st f1
  = Return {| returned := false;
              errors := {[ "loginPassword" := "Email or password is incorrect.";
                           "loginEmail" := "Email or password is incorrect." ]};
              stored := st; alerted := None |} /\
  validateLogin br st f2 = validateLogin br st f1.
Proof.
  intros He1 Hp1 He2 Hp2 Hl H1 H2 Hu Hpw.
  assert (E : forall f, isValidEmail br (loginEmail f) = true ->
            isStrongPassword (loginPassword f) = true ->
            login_checks br f = cleared).
  { intros f He Hp. unfold login_checks. by rewrite He, Hp. }
  assert (Hmap : setError "loginPassword" "Email or password is incorrect."
                   (setError "loginEmail" "Email or password is incorrect." ∅)
                 = {[ "loginPassword" := "Email or password is incorrect.";
                      "loginEmail" := "Email or password is incorrect." ]}).
  { unfold setError. by rewrite insert_empty. }
  assert (E1 : validateLogin br st f1 =
    Return {| returned := false;
              errors := {[ "loginPassword" := "Email or password is incorrect.";
                           "loginEmail" := "Email or password is incorrect." ]};
              stored := st; alerted := None |}).
  { unfold validateLogin. rewrite (E f1 He1 Hp1). simpl. js_unfold.
    rewrite Hl, H1. simpl. by rewrite Hmap. }
  split; [exact E1|]. rewrite E1.
  unfold validateLogin. rewrite (E f2 He2 Hp2). simpl. js_unfold.
  rewrite Hl, H2. unfold falsy. rewrite Hu, Hpw. simpl. by rewrite Hmap.
Qed.

Lemma login_failure_is_generic_witness :
  validateLogin Demo.chrome Demo.with_ann
    {| loginEmail := "ann@legit.city"; loginPassword := "gue55ing!" |}
  = validateLogin Demo.chrome Demo.with_ann
      {| loginEmail := "eve@legit.city"; loginPassword := "gue55ing!" |}.
Proof.
  by destruct (login_failure_is_generic Demo.chrome Demo.with_ann
              {| loginEmail := "eve@legit.city"; loginPassword := "gue55ing!" |}
              {| loginEmail := "ann@legit.city"; loginPassword := "gue55ing!" |}
              [new_user Demo.chrome Demo.ann] (new_user Demo.chrome Demo.ann)
              eq_refl eq_refl eq_refl eq_refl eq_refl eq_refl eq_refl eq_refl
              eq_refl) as [_ H].
Defined.

Lemma has_email_true (email : string) (u : jsval) :
  has_email email u = Return true -> get_prop u "email" = JStr email.
Proof.
  unfold has_email. js_unfold. rewrite destructure_eq.
  destruct (object_coercible u); [|done].
  destruct (get_prop u "email") as [| | | |e| | |]; simpl; try done.
  intros [= ->%String.eqb_eq]. done.
Qed.

Lemma find_by_email_found (email : string) (l : list jsval) (u : jsval) :
  find_by_email email l = Return u ->
  u = JUndefined \/ (u ∈ l /\ get_prop u "email" = JStr email).
Proof.
  induction l as [|w l IH]; simpl; [intros [= <-]; by left|]. js_unfold.
  destruct (has_email email w) as [[]|] eqn:E; [| |done].
  - intros [= <-]. right. split; [by left|by apply has_email_true].
  - intros [H|[H1 H2]]%IH; [by left|]. right. split; [by right|done].
Qed.

(** X28.  [validateLogin] returns [true] only for a stored user whose
    email is the normalised one typed and whose password is exactly the
    one typed, both in a valid format; and it never changes
    [localStorage], whatever it returns. *)
Theorem validateLogin_success_is_sound
    (br : browser) (st : storage) (f : login_form) (v : validation) :
  validateLogin br st f = Return v ->
  stored v = st /\
  (returned v = true ->
   isValidEmail br (loginEmail f) = true /\
   isStrongPassword (loginPassword f) = true /\
   exists l u,
     elements (getUsers br st) = Return l /\ u ∈ l /\
     get_prop u "email" = JStr (normalizeEmail br (loginEmail f)) /\
     get_prop u "password" = JStr (loginPassword f)).
Proof.
  unfold validateLogin. rewrite login_checks_valid.
  destruct (isValidEmail br (loginEmail f)) eqn:He;
    [|simpl; intros [= <-]; by split].
  destruct (isStrongPassword (loginPassword f)) eqn:Hp;
    [|simpl; intros [= <-]; by split].
  simpl. js_unfold.
  destruct (elements (getUsers br st)) as [l|]; [|done].
  destruct (find_by_email _ l) as [u|] eqn:Hf; [|done].
  destruct (falsy u) eqn:Hu; simpl; [intros [= <-]; by split|].
  destruct (strict_eq_str (get_prop u "password") (loginPassword f)) eqn:Hpw;
    simpl; intros [= <-]; simpl; (split; [done|]); [|done].
  intros _. split; [done|]. split; [done|].
  exists l, u. split; [done|].
  apply find_by_email_found in Hf as [->|[H1 H2]]; [done|].
  split; [done|]. split; [done|].
  destruct (get_prop u "password") as [| | | |pw| | |]; simpl in Hpw; try done.
  by apply String.eqb_eq in Hpw as ->.
Qed.

Lemma validateLogin_success_is_sound_witness :
  exists u,
    u ∈ [new_user Demo.chrome Demo.ann] /\
    get_prop u "email" = JStr "ann@legit.city" /\
    get_prop u "password" = JStr "s3cret!pw".
Proof.
  destruct (validateLogin_success_is_sound Demo.chrome Demo.with_ann
              {| loginEmail := "ANN@Legit.City"; loginPassword := "s3cret!pw" |}
              _ eq_refl) as [_ H].
  destruct (H eq_refl) as (_ & _ & l & u & [= <-] & H1 & H2 & H3).
  by exists u.
Defined.

(** A few values, as the validators judge them. *)
Example emails_judged :
  map (isValidEmail Demo.chrome)
    ["a@b.c"; "Ann@Legit.City"; "a@b"; "a b@c.d"; "a@@b.c"; "@b.c"; "a@b."]
  = [true; true; false; false; false; false; false].
Proof. reflexivity. Qed.

Example passwords_judged :
  map isStrongPassword
    ["s3cret!pw"; "secret!pw"; "s3cretpw1"; "s3c!"; "s3cret! pw"; "s3cret!pw#"]
  = [true; false; false; false; false; false].
Proof. reflexivity. Qed.

End ValidateFacts.
